(** * SpeakKid: the Gemini service layer (src/services/geminiService.ts)

    A shallow embedding of the model-fallback resolver, the retry/fallback
    orchestrator [callWithRetry], the content request builders, the score
    normalizer of [evaluatePresentation] (both revisions present in the
    source file) and the PCM decoder [decodeAudioData], together with the
    properties the specification states about them.

    Conventions.
    - A JavaScript number is modelled by [number]: NaN, the two infinities,
      or an exact rational.  Arithmetic is exact: binary64 rounding and the
      sign of zero are not represented.  The concrete values the claims
      mention are evaluated a second time in IEEE 754 binary64, on the
      kernel's primitive floats ([Binary64]).
    - Strings are byte strings (UTF-8, as the source file is encoded).
    - Built-in functions of the JavaScript runtime whose full definition is
      outside the repository ([String.prototype.toLowerCase], [JSON.parse],
      [String.prototype.trim], [atob]) and the remote service are Section
      variables; the facts used about them are stated as hypotheses and a
      reference instance discharges them. *)

From Stdlib Require Import Ascii String Strings.Byte QArith Qcanon Qround ZArith Lia Lqa.
From Stdlib Require Floats.PrimFloat Floats.FloatOps Floats.SpecFloat.
From Stdlib Require Numbers.Cyclic.Int63.Uint63.
From stdpp Require Import base strings list gmap pretty.

Set Warnings "-register-all,-inexact-float".
Open Scope Z_scope.

(** ** JavaScript numbers *)

Inductive number : Type :=
  | NaN
  | NegInf
  | PosInf
  | Fin (q : Qc).

Definition Qc_ltb (x y : Qc) : bool :=
  match (x ?= y)%Qc with Lt => true | _ => false end.

Definition Qc_leb (x y : Qc) : bool :=
  match (x ?= y)%Qc with Gt => false | _ => true end.

Definition Qc_eqb (x y : Qc) : bool :=
  match (x ?= y)%Qc with Eq => true | _ => false end.

(** Literals. *)
Definition num (q : Q) : number := Fin (Q2Qc q).

Module JS.

Definition isNaN (a : number) : bool :=
  match a with NaN => true | _ => false end.

(** [a < b], [a <= b], [a > b]: false whenever an operand is NaN. *)
Definition lt (a b : number) : bool :=
  match a, b with
  | NaN, _ | _, NaN => false
  | _, NegInf => false
  | NegInf, _ => true
  | PosInf, _ => false
  | Fin _, PosInf => true
  | Fin x, Fin y => Qc_ltb x y
  end.

Definition le (a b : number) : bool :=
  match a, b with
  | NaN, _ | _, NaN => false
  | NegInf, _ => true
  | _, PosInf => true
  | _, NegInf => false
  | PosInf, _ => false
  | Fin x, Fin y => Qc_leb x y
  end.

Definition gt (a b : number) : bool := lt b a.

(** Sign of a non-NaN number as an integer in {-1, 0, 1}. *)
Definition sgn (a : number) : Z :=
  match a with
  | NaN => 0
  | NegInf => -1
  | PosInf => 1
  | Fin x => if Qc_ltb 0 x then 1 else if Qc_ltb x 0 then -1 else 0
  end.

Definition inf_of_sign (s : Z) : number :=
  if (0 <? s) then PosInf else if (s <? 0) then NegInf else NaN.

(** [a * b] *)
Definition mul (a b : number) : number :=
  match a, b with
  | NaN, _ | _, NaN => NaN
  | Fin x, Fin y => Fin (x * y)
  | _, _ => inf_of_sign (sgn a * sgn b)
  end.

(** [a / b]; a zero divisor is the positive zero. *)
Definition div (a b : number) : number :=
  match a, b with
  | NaN, _ | _, NaN => NaN
  | Fin x, Fin y => if Qc_eqb y 0 then inf_of_sign (sgn a) else Fin (x / y)
  | Fin _, _ => Fin 0
  | _, Fin y => if Qc_ltb y 0 then inf_of_sign (- sgn a) else a
  | _, _ => NaN
  end.

(** [a + b] *)
Definition add (a b : number) : number :=
  match a, b with
  | NaN, _ | _, NaN => NaN
  | Fin x, Fin y => Fin (x + y)
  | Fin _, _ => b
  | _, Fin _ => a
  | PosInf, PosInf => PosInf
  | NegInf, NegInf => NegInf
  | _, _ => NaN
  end.

(** [Math.round]: the nearest integer, ties towards +Infinity. *)
Definition round_Qc (x : Qc) : Z := Qfloor (x + Q2Qc (1 # 2))%Qc.

Definition Math_round (a : number) : number :=
  match a with
  | Fin x => Fin (Q2Qc (inject_Z (round_Qc x)))
  | _ => a
  end.

(** [Math.max(a, b)] and [Math.min(a, b)]: NaN if an argument is NaN. *)
Definition Math_max (a b : number) : number :=
  match a, b with
  | NaN, _ | _, NaN => NaN
  | _, _ => if lt a b then b else a
  end.

Definition Math_min (a b : number) : number :=
  match a, b with
  | NaN, _ | _, NaN => NaN
  | _, _ => if lt b a then b else a
  end.

(** Truthiness of a number: [0] and [NaN] are falsy. *)
Definition truthy (a : number) : bool :=
  match a with
  | NaN => false
  | Fin x => negb (Qc_eqb x 0)
  | _ => true
  end.

End JS.

Declare Scope js_scope.
Delimit Scope js_scope with js.
Infix "*" := JS.mul : js_scope.
Infix "/" := JS.div : js_scope.
Infix "+" := JS.add : js_scope.
Infix "<?" := JS.lt : js_scope.
Infix "<=?" := JS.le : js_scope.
Infix ">?" := JS.gt : js_scope.

(** ** The score normalizer of [evaluatePresentation]

    The argument is [number | undefined]: [None] stands for an absent
    ([undefined] or [null]) field. *)

(** First revision of the file. *)
Module Rev1.

Definition normalize (val : option number) : number :=
  (* let v = val || 0; *)
  let v := match val with
           | Some x => if JS.truthy x then x else num 0
           | None => num 0
           end in
  (* if (v > 0 && v <= 1) v = v * 10; *)
  let v := if (v >? num 0)%js && (v <=? num 1)%js then (v * num 10)%js else v in
  JS.Math_min (num 10) (JS.Math_max (num 0) (JS.Math_round (v * num 10)%js / num 10)%js).

End Rev1.

(** Second revision of the file. *)
Module Rev2.

Definition normalize (val : option number) : number :=
  match val with
  | None => num 0                      (* val === undefined || val === null *)
  | Some v =>
      if JS.isNaN v then num 0 else
      let v := if (v >? num 0)%js && (v <? num 1)%js then (v * num 10)%js else v in
      let v := if (v >? num 10)%js then (v / num 10)%js else v in
      JS.Math_min (num 10) (JS.Math_max (num 0) (JS.Math_round (v * num 10)%js / num 10)%js)
  end.

End Rev2.


(** ** Strings *)

(** [hay.includes(needle)] *)
Fixpoint includes (needle hay : string) : bool :=
  String.prefix needle hay ||
  match hay with
  | EmptyString => false
  | String _ rest => includes needle rest
  end.

(** [a || b] on optional strings: the empty string and [undefined] are falsy. *)
Definition str_truthy (a : option string) : bool :=
  match a with
  | Some s => negb (String.eqb s "")
  | None => false
  end.

Definition str_or (a b : option string) : option string :=
  if str_truthy a then a else b.

(** Interpolation of a possibly undefined string in a template literal. *)
Definition interpolate (a : option string) : string :=
  match a with
  | Some s => s
  | None => "undefined"
  end.

(** Decimal rendering of [Math.round(a)] inside a template literal (exact for
    integers of magnitude below 1e21, which JavaScript prints in full). *)
Definition round_toString (a : number) : string :=
  match JS.Math_round a with
  | NaN => "NaN"
  | PosInf => "Infinity"
  | NegInf => "-Infinity"
  | Fin x => pretty (Qfloor x)
  end.

(** ** Thrown values

    A thrown value is seen through the three observations the orchestrator
    makes of it: [err?.message], [err?.status] and [JSON.stringify(err)]. *)

Record JsError : Type := mkError {
  message : option string;
  status : option Z;
  stringified : option string
}.

(** [new Error(msg)]: no status, no enumerable property. *)
Definition Error (msg : string) : JsError :=
  {| message := Some msg; status := None; stringified := Some "{}" |}.

Definition result (A : Type) : Type := (JsError + A)%type.

(** ** API key and model management *)

Abbreviation localStorage := (gmap string string).

Definition FALLBACK_MODELS : list string :=
  [ "gemini-3-flash-preview";
    "gemini-3-pro-preview";
    "gemini-2.5-flash" ].

Definition MISSING_KEY_MESSAGE : string :=
  "CHƯA CÓ API KEY: Bé vui lòng nhấn nút ⚙️ Settings để nhập API Key nhé!".

Definition getApiKey (ls : localStorage) : result string :=
  let key := interpolate (str_or (ls !! "gemini_api_key") (Some "")) in
  if String.eqb key "" then inl (Error MISSING_KEY_MESSAGE) else inr key.

Definition getSelectedModel (ls : localStorage) : string :=
  interpolate (str_or (ls !! "selected_model") (Some "gemini-3-flash-preview")).

Definition getFallbackModels (ls : localStorage) : list string :=
  let primary := getSelectedModel ls in
  let others := List.filter (fun m => negb (String.eqb m primary)) FALLBACK_MODELS in
  primary :: others.

(** ** Retry with model fallback *)

(** What the promise returned by the attempt callback has done when the
    timer of [withTimeout] fires: resolved, rejected, or still pending. *)
Inductive outcome (T : Type) : Type :=
  | Resolved (v : T)
  | Rejected (e : JsError)
  | Unsettled.
Arguments Resolved {T} v.
Arguments Rejected {T} e.
Arguments Unsettled {T}.

Definition TIMEOUT_MARKER : string := "quá thời gian".

Definition timeoutMessage (label : string) (ms : number) : string :=
  "⏱️ " ++ label ++ " " ++ TIMEOUT_MARKER ++ " ("
    ++ round_toString (ms / num 1000)%js ++ "s). Bé hãy thử lại nhé!".

Definition withTimeout {T} (promise : outcome T) (ms : number) (label : string)
  : result T :=
  match promise with
  | Resolved v => inr v
  | Rejected e => inl e
  | Unsettled => inl (Error (timeoutMessage label ms))
  end.

(** Observable effects of the orchestrator, in order: an invocation of the
    attempt callback, or a backoff wait ([setTimeout(resolve, delay)]).
    Console output is not recorded. *)
Inductive event : Type :=
  | Attempt (model : string)
  | Sleep (delay : number).

Definition AGGREGATE_PREFIX : string := "TẤT CẢ MODEL ĐỀU LỖI: ".
Definition AGGREGATE_SUFFIX : string :=
  String "010"%char (String "010"%char "Bé hãy kiểm tra API Key hoặc chờ 30 giây rồi thử lại nhé!").

Section Orchestrator.

(** [String.prototype.toLowerCase] *)
Variable toLowerCase : string -> string.

Definition errorStr (err : JsError) : string :=
  toLowerCase
    (interpolate (str_or (str_or (message err) (stringified err)) (Some ""))).

Definition isQuotaError (err : JsError) : bool :=
  match status err with Some 429 => true | _ => false end
  || includes "quota" (errorStr err)
  || includes "resource_exhausted" (errorStr err).

Definition isTimeoutError (err : JsError) : bool :=
  includes TIMEOUT_MARKER (errorStr err).

(** The attempt callback [fn]: given the model, it acts on the state [S]
    of the outside world and settles (or not). *)
Context {S T : Type}.
Variable fn : string -> S -> outcome T * S.
Variable maxRetriesPerModel : nat.
Variable timeoutMs : number.

(** Mutable state of one call: the world the callback acts on, the events
    so far (most recent last) and [lastError]. *)
Record Run : Type := mkRun {
  world : S;
  trace : list event;
  lastError : option JsError
}.

(** The inner [for] loop over [attempt] for one model.  [remaining] is the
    number of iterations the guard [attempt < maxRetriesPerModel] still
    admits; the result is [Some v] when an attempt returned [v] and [None]
    when the loop was left (guard false, or [break]). *)
Fixpoint attemptLoop (model : string) (remaining attempt : nat) (delay : number)
    (r : Run) : option T * Run :=
  match remaining with
  | O => (None, r)
  | Datatypes.S remaining' =>
      let '(promise, w) := fn model (world r) in
      let tr := trace r ++ [Attempt model] in
      match withTimeout promise timeoutMs ("Model " ++ model) with
      | inr v => (Some v, mkRun w tr (lastError r))
      | inl err =>
          let r' := mkRun w tr (Some err) in
          if isTimeoutError err then (None, r')
          else if isQuotaError err && (attempt <? maxRetriesPerModel - 1)%nat then
            attemptLoop model remaining' (Datatypes.S attempt)
              (delay * num 2.5)%js
              (mkRun w (tr ++ [Sleep delay]) (Some err))
          else (None, r')
      end
  end.

(** The outer [for (const model of models)] loop. *)
Fixpoint modelLoop (models : list string) (r : Run) : option T * Run :=
  match models with
  | [] => (None, r)
  | model :: rest =>
      match attemptLoop model maxRetriesPerModel 0 (num 1500) r with
      | (Some v, r') => (Some v, r')
      | (None, r') => modelLoop rest r'
      end
  end.

Definition aggregateMessage (lastError : option JsError) : string :=
  let errMsg :=
    match lastError with
    | Some e => str_or (message e) (stringified e)
    | None => None
    end in
  AGGREGATE_PREFIX ++ interpolate errMsg ++ AGGREGATE_SUFFIX.

Definition callWithRetry (ls : localStorage) (w : S) : result T * Run :=
  let models := getFallbackModels ls in
  match modelLoop models (mkRun w [] None) with
  | (Some v, r) => (inr v, r)
  | (None, r) => (inl (Error (aggregateMessage (lastError r))), r)
  end.

End Orchestrator.

(** ** Values exchanged with the service *)

Inductive json : Type :=
  | JNull
  | JBool (b : bool)
  | JNumber (x : number)
  | JString (s : string)
  | JArray (items : list json)
  | JObject (members : gmap string json).

Inductive CEFRLevel : Type :=
  | Starters | Movers | Flyers | A1 | A2 | B1 | B2 | C1 | C2.

(** The inputs a builder puts in its request.  The prompt text and the
    response schema assembled from them are not reproduced. *)
Inductive Contents : Type :=
  | ImagePromptContents (theme : string)
  | ScriptContents (imagePrompt userText : string) (level : CEFRLevel) (childName : string)
  | ScriptFromImageContents (imageBase64 imageMimeType : string) (level : CEFRLevel)
      (childName : string)
  | VoiceContents (text : string)
  | EvaluationContents (originalScript audioBase64 audioMimeType : string).

Record Request : Type := mkRequest {
  model : string;
  contents : Contents
}.

(** [response.text] and
    [response.candidates?.[0]?.content?.parts?.[0]?.inlineData?.data]. *)
Record Response : Type := mkResponse {
  text : option string;
  inlineData : option string
}.

(** ** Score post-processing of [evaluatePresentation] *)

Record EvaluationResult : Type := mkEvaluationResult {
  raw : json;                       (* ...raw *)
  pronunciation : number;
  fluency : number;
  intonation : number;
  vocabulary : number;
  grammar : number;
  taskFulfillment : number;
  score : number;
  perceivedLevel : CEFRLevel;
  keyVocabulary : list json;
  evaluationDate : string
}.

(** [raw.key], with [None] for [undefined]: a member of an object, and
    nothing on a number, a boolean, a string or an array, which have none
    of the members read here. *)
Definition member (raw : json) (key : string) : option json :=
  match raw with
  | JObject members => members !! key
  | _ => None
  end.

(** Reading a member of [null] throws (message as worded by V8). *)
Definition NULL_MEMBER_MESSAGE : string :=
  "Cannot read properties of null (reading 'pronunciation')".

Definition sum6 (a b c d e f : number) : number :=
  (a + b + c + d + e + f)%js.

Section Conversion.

(** The conversion of a string to a number (StringToNumber). *)
Variable StringToNumber : string -> number.

(** [Number(value)] for a value of parsed JSON.  An array is converted
    through its string form: that of the empty array and of [[null]] is
    empty, that of a one-element array is the string form of its element,
    and with more elements it has a comma and is not numeric; neither is
    [true], [false] or the string form of an object. *)
Fixpoint toNumber (value : json) : number :=
  match value with
  | JNull => num 0
  | JBool b => if b then num 1 else num 0
  | JNumber x => x
  | JString s => StringToNumber s
  | JArray [] => num 0
  | JArray [item] =>
      match item with
      | JNull => num 0
      | JBool _ => NaN
      | JObject _ => NaN
      | _ => toNumber item
      end
  | JArray _ => NaN
  | JObject _ => NaN
  end.

End Conversion.

(** The response schema types the six scores as numbers, and [normalize] is
    declared on [number | undefined]; the value read at run time can still
    be of any JSON kind. *)

Module Rev1Eval.

Section WithConversion.

Variable StringToNumber : string -> number.

(** [normalize(val)] at a value of any kind.  [val || 0] replaces the
    falsy values ([undefined], [null], [false], 0, NaN, the empty
    string) by 0.  A truthy value that is not a number is converted by
    each comparison and multiplication that uses it; when it converts
    to NaN both comparisons fail and NaN goes through [Math.round],
    [Math.max] and [Math.min]. *)
Definition normalizeValue (val : option json) : number :=
  match val with
  | None | Some JNull | Some (JBool false) | Some (JString EmptyString) => num 0
  | Some (JNumber x) => Rev1.normalize (Some x)
  | Some value =>
      let v := toNumber StringToNumber value in
      if JS.isNaN v then NaN else Rev1.normalize (Some v)
  end.

(** [normalize(raw.key)] *)
Definition normalized (raw : json) (key : string) : number :=
  normalizeValue (member raw key).

Definition evaluate (raw : json) (level : CEFRLevel) (today : string)
  : result EvaluationResult :=
  match raw with
  | JNull => inl (Error NULL_MEMBER_MESSAGE)
  | _ =>
      let pronunciation := normalized raw "pronunciation" in
      let fluency := normalized raw "fluency" in
      let intonation := normalized raw "intonation" in
      let vocabulary := normalized raw "vocabulary" in
      let grammar := normalized raw "grammar" in
      let taskFulfillment := normalized raw "taskFulfillment" in
      let avg :=
        (sum6 pronunciation fluency intonation vocabulary grammar taskFulfillment
         / num 6)%js in
      inr (mkEvaluationResult raw pronunciation fluency intonation vocabulary
             grammar taskFulfillment (Rev1.normalize (Some avg)) level [] today)
  end.

End WithConversion.

End Rev1Eval.

Module Rev2Eval.

Section WithConversion.

Variable StringToNumber : string -> number.

(** The argument of [normalize] as the number it computes with:
    [undefined] and [null] are answered 0 at once, as an absent number
    is; any other value is converted by [Number(val)]. *)
Definition argument (val : option json) : option number :=
  match val with
  | None | Some JNull => None
  | Some value => Some (toNumber StringToNumber value)
  end.

(** [normalize(raw.key)] *)
Definition normalized (raw : json) (key : string) : number :=
  Rev2.normalize (argument (member raw key)).

Definition evaluate (raw : json) (level : CEFRLevel) (today : string)
  : result EvaluationResult :=
  match raw with
  | JNull => inl (Error NULL_MEMBER_MESSAGE)
  | _ =>
      let pronunciation := normalized raw "pronunciation" in
      let fluency := normalized raw "fluency" in
      let intonation := normalized raw "intonation" in
      let vocabulary := normalized raw "vocabulary" in
      let grammar := normalized raw "grammar" in
      let taskFulfillment := normalized raw "taskFulfillment" in
      let avg :=
        (sum6 pronunciation fluency intonation vocabulary grammar taskFulfillment
         / num 6)%js in
      let finalScore := (JS.Math_round (avg * num 10) / num 10)%js in
      inr (mkEvaluationResult raw pronunciation fluency intonation vocabulary
             grammar taskFulfillment finalScore level [] today)
  end.

End WithConversion.

End Rev2Eval.

(** ** Audio decoding *)

Record AudioBuffer : Type := mkAudioBuffer {
  numberOfChannels : nat;
  frames : nat;
  sampleRate : number;
  channelData : list (list number)
}.

(** One element of an [Int16Array] over a little-endian buffer. *)
Definition int16_of_bytes (lo hi : Byte.byte) : Z :=
  let u := Z.of_N (Byte.to_N lo) + 256 * Z.of_N (Byte.to_N hi) in
  if u <? 32768 then u else u - 65536.

Fixpoint int16_view (data : list Byte.byte) : list Z :=
  match data with
  | lo :: hi :: rest => int16_of_bytes lo hi :: int16_view rest
  | _ => []
  end.

(** [new Int16Array(data.buffer)]: a RangeError unless the byte length is a
    multiple of 2. *)
Definition Int16Array (data : list Byte.byte) : result (list Z) :=
  if Nat.even (List.length data) then inr (int16_view data)
  else inl (Error "byte length of Int16Array should be a multiple of 2").

(** Conversion of a frame count to the unsigned integer [createBuffer]
    receives: truncation, with NaN and the infinities mapped to 0.  The frame
    counts of [decodeAudioData] are quotients of two lengths, never negative
    and below 2^32, where the conversion does not wrap. *)
Definition toUnsignedLong (a : number) : nat :=
  match a with
  | Fin x => Z.to_nat (Qfloor x)
  | _ => 0%nat
  end.

(** Number of iterations of [for (let i = 0; i < bound; i++)] for a finite
    or NaN [bound].  The bound of [decodeAudioData] is infinite only when
    [numChannels] is 0, and then the enclosing loop over the channels has no
    iteration. *)
Definition iterations (bound : number) : nat :=
  match bound with
  | Fin x => Z.to_nat (Qceiling x)
  | _ => 0%nat
  end.

(** The audio context passed to [decodeAudioData], seen through the one
    method used: [ctx.createBuffer(numChannels, frameCount, sampleRate)]. *)
Record AudioContext : Type := mkAudioContext {
  createBuffer : nat -> number -> number -> result AudioBuffer
}.

(** A buffer as the Web Audio API allocates it: [numChannels] zero-filled
    channels of [frameCount] (truncated) frames each. *)
Definition silentBuffer (numChannels : nat) (frameCount rate : number) : AudioBuffer :=
  mkAudioBuffer numChannels (toUnsignedLong frameCount) rate
    (replicate numChannels (replicate (toUnsignedLong frameCount) (num 0))).

(** [dataInt16[index] / 32768.0]; an index out of range reads [undefined]. *)
Definition scaledSample (dataInt16 : list Z) (index : nat) : number :=
  match dataInt16 !! index with
  | Some s => (num (inject_Z s) / num 32768)%js
  | None => NaN
  end.

(** Inner loop: [channelData[i] = dataInt16[i * numChannels + channel] / 32768.0]
    for [i], [i+1], ... ([count] iterations).  A write past the end of a typed
    array is ignored. *)
Fixpoint fillChannel (dataInt16 : list Z) (numChannels channel : nat)
    (count i : nat) (data : list number) : list number :=
  match count with
  | O => data
  | S count' =>
      fillChannel dataInt16 numChannels channel count' (S i)
        (<[i := scaledSample dataInt16 (i * numChannels + channel)]> data)
  end.

(** [getChannelData(channel)] on a buffer without that channel. *)
Definition INDEX_SIZE_MESSAGE : string :=
  "Failed to execute 'getChannelData' on 'AudioBuffer': channel index is outside the range of channels".

(** Outer loop over [channel]; [getChannelData] aliases the buffer's own
    array, so filling it updates the buffer, and throws an IndexSizeError
    for a channel the buffer does not have. *)
Fixpoint fillChannels (dataInt16 : list Z) (numChannels : nat) (frameCount : number)
    (count channel : nat) (chans : list (list number))
  : result (list (list number)) :=
  match count with
  | O => inr chans
  | S count' =>
      match chans !! channel with
      | Some channelData =>
          fillChannels dataInt16 numChannels frameCount count' (S channel)
            (<[channel := fillChannel dataInt16 numChannels channel
                            (iterations frameCount) 0 channelData]> chans)
      | None => inl (Error INDEX_SIZE_MESSAGE)
      end
  end.

(** The [Uint8Array] spans its whole [ArrayBuffer] (as the one [decode]
    allocates does), and the platform is little-endian. *)
Definition decodeAudioData (data : list Byte.byte) (ctx : AudioContext)
    (rate : number) (numChannels : nat) : result AudioBuffer :=
  match Int16Array data with
  | inl e => inl e
  | inr dataInt16 =>
      let frameCount :=
        (num (inject_Z (Z.of_nat (List.length dataInt16)))
         / num (inject_Z (Z.of_nat numChannels)))%js in
      match createBuffer ctx numChannels frameCount rate with
      | inl e => inl e
      | inr buffer =>
          match fillChannels dataInt16 numChannels frameCount numChannels 0
                  (channelData buffer) with
          | inl e => inl e
          | inr chans =>
              inr (mkAudioBuffer (numberOfChannels buffer) (frames buffer)
                     (sampleRate buffer) chans)
          end
      end
  end.

(** ** Content request builders *)

Definition dq : string := String "034"%char "".
Definition quoted (s : string) : string := dq ++ s ++ dq.

(** The literal
    [{"intro":"", "points":[], "conclusion":"", "lessonVocab":[]}]. *)
Definition DEFAULT_SCRIPT_JSON : string :=
  "{" ++ quoted "intro" ++ ":" ++ quoted "" ++ ", "
      ++ quoted "points" ++ ":[], "
      ++ quoted "conclusion" ++ ":" ++ quoted "" ++ ", "
      ++ quoted "lessonVocab" ++ ":[]}".

Definition DEFAULT_SCRIPT : json :=
  JObject (<["intro" := JString ""]>
          (<["points" := JArray []]>
          (<["conclusion" := JString ""]>
          (<["lessonVocab" := JArray []]> ∅)))).

Definition settle {A} (r : result A) : outcome A :=
  match r with
  | inl e => Rejected e
  | inr v => Resolved v
  end.

Section Builders.

Variable toLowerCase : string -> string.
(** [JSON.parse]: the parsed value, or the SyntaxError thrown. *)
Variable JSON_parse : string -> result json.
(** [String.prototype.trim] *)
Variable trim : string -> string.
(** [atob], with the binary string given as its bytes. *)
Variable atob : string -> result (list Byte.byte).
(** [new Date().toLocaleDateString('vi-VN')] at the time of the call. *)
Variable today : string.
(** [new AudioContext({ sampleRate })] *)
Variable newAudioContext : number -> AudioContext.

(** The remote service: [ai.models.generateContent(request)] on a client
    created with the given API key, acting on the outside world [S]. *)
Context {S : Type}.
Variable generateContent : string -> Request -> S -> outcome Response * S.

Variable ls : localStorage.

(** The shape shared by the five callbacks:
    [async (model) => { const ai = new GoogleGenAI({ apiKey: getApiKey() });
                        const response = await ai.models.generateContent(...);
                        return post(response); }] *)
Definition apiAttempt {A} (request : string -> Request)
    (post : Response -> result A) (model : string) (w : S) : outcome A * S :=
  match getApiKey ls with
  | inl e => (Rejected e, w)
  | inr key =>
      match generateContent key (request model) w with
      | (Resolved response, w') => (settle (post response), w')
      | (Rejected e, w') => (Rejected e, w')
      | (Unsettled, w') => (Unsettled, w')
      end
  end.

(** [callWithRetry(callback)] with the default arguments
    [maxRetriesPerModel = 1] and [timeoutMs = 60000]. *)
Definition apiCall {A} (request : string -> Request)
    (post : Response -> result A) (w : S) : result A * Run (S := S) :=
  callWithRetry toLowerCase (apiAttempt request post) 1 (num 60000) ls w.

Definition generateImagePrompt (theme : string) :=
  apiCall (fun model => mkRequest model (ImagePromptContents theme))
    (fun response =>
       inr (interpolate
              (str_or (option_map trim (text response))
                 (Some ("A professional cinematic 3D Pixar style illustration of "
                          ++ theme ++ ", high detail, vibrant colors.")%string)))).

Definition parseScript (response : Response) : result json :=
  JSON_parse (interpolate (str_or (text response) (Some DEFAULT_SCRIPT_JSON))).

Definition generatePresentationScript (imagePrompt userText : string)
    (level : CEFRLevel) (childName themeLabel : string) :=
  apiCall
    (fun model => mkRequest model (ScriptContents imagePrompt userText level childName))
    parseScript.

Definition generateScriptFromImage (imageBase64 imageMimeType : string)
    (level : CEFRLevel) (childName : string) :=
  apiCall
    (fun model =>
       mkRequest model (ScriptFromImageContents imageBase64 imageMimeType level childName))
    parseScript.

(** [decode(base64)] *)
Definition decode (base64 : option string) : result (list Byte.byte) :=
  atob (interpolate base64).

Definition generateTeacherVoice (text : string) :=
  apiCall
    (fun _model => mkRequest "gemini-2.5-flash-preview-tts" (VoiceContents text))
    (fun response =>
       match decode (inlineData response) with
       | inl e => inl e
       | inr data => decodeAudioData data (newAudioContext (num 24000)) (num 24000) 1
       end).

Definition parseEvaluation
    (evaluate : json -> CEFRLevel -> string -> result EvaluationResult)
    (level : CEFRLevel) (response : Response) : result EvaluationResult :=
  match JSON_parse (interpolate (str_or (text response) (Some "{}"))) with
  | inl e => inl e
  | inr raw => evaluate raw level today
  end.

Definition evaluatePresentationWith
    (evaluate : json -> CEFRLevel -> string -> result EvaluationResult)
    (originalScript audioBase64 audioMimeType : string) (level : CEFRLevel) :=
  apiCall
    (fun model =>
       mkRequest model (EvaluationContents originalScript audioBase64 audioMimeType))
    (parseEvaluation evaluate level).

End Builders.

Module Rev1Api.
Definition evaluatePresentation {S} toLowerCase JSON_parse StringToNumber today
    generateContent ls :=
  evaluatePresentationWith (S := S) toLowerCase JSON_parse today generateContent ls
    (Rev1Eval.evaluate StringToNumber).
End Rev1Api.

Module Rev2Api.
Definition evaluatePresentation {S} toLowerCase JSON_parse StringToNumber today
    generateContent ls :=
  evaluatePresentationWith (S := S) toLowerCase JSON_parse today generateContent ls
    (Rev2Eval.evaluate StringToNumber).
End Rev2Api.

(** ** A reference runtime

    Executable stand-ins for the built-ins taken as variables above.  They
    are used to evaluate the model on concrete inputs. *)

Module Ref.

(** Lower-casing of the ASCII letters; other bytes are kept. *)
Definition lower_ascii (c : ascii) : ascii :=
  let n := nat_of_ascii c in
  if (65 <=? n)%nat && (n <=? 90)%nat then ascii_of_nat (n + 32) else c.

Fixpoint toLowerCase (s : string) : string :=
  match s with
  | EmptyString => EmptyString
  | String c rest => String (lower_ascii c) (toLowerCase rest)
  end.

(** A JSON reader over the grammar of ECMA-404.  Numbers are read exactly
    and overflow to the infinities as binary64 does; a [\u] escape is
    written out in UTF-8 one UTF-16 unit at a time. *)

Definition is_ws (c : ascii) : bool :=
  let n := nat_of_ascii c in
  (n =? 32)%nat || (n =? 9)%nat || (n =? 10)%nat || (n =? 13)%nat.

Fixpoint skip_ws (s : string) : string :=
  match s with
  | String c rest => if is_ws c then skip_ws rest else s
  | EmptyString => s
  end.

Definition digit (c : ascii) : option Z :=
  let n := nat_of_ascii c in
  if (48 <=? n)%nat && (n <=? 57)%nat then Some (Z.of_nat (n - 48)) else None.

Definition hex_digit (c : ascii) : option Z :=
  let n := nat_of_ascii c in
  if (48 <=? n)%nat && (n <=? 57)%nat then Some (Z.of_nat (n - 48))
  else if (65 <=? n)%nat && (n <=? 70)%nat then Some (Z.of_nat (n - 55))
  else if (97 <=? n)%nat && (n <=? 102)%nat then Some (Z.of_nat (n - 87))
  else None.

(** Reads a maximal run of digits: its value, its length, the rest. *)
Fixpoint digits (s : string) (acc : Z) (count : nat) : Z * nat * string :=
  match s with
  | String c rest =>
      match digit c with
      | Some d => digits rest (10 * acc + d) (S count)
      | None => (acc, count, s)
      end
  | EmptyString => (acc, count, s)
  end.

Definition BINARY64_OVERFLOW : Z := 2 ^ 1024 - 2 ^ 970.

Definition to_number (negative : bool) (mantissa : Z) (scale : nat) (exponent : Z)
  : number :=
  let e := exponent - Z.of_nat scale in
  let magnitude :=
    if 0 <=? e then inject_Z (mantissa * 10 ^ e)
    else Qmake mantissa (Z.to_pos (10 ^ (- e))) in
  if Qle_bool (inject_Z BINARY64_OVERFLOW) magnitude
  then (if negative then NegInf else PosInf)
  else Fin (Q2Qc (if negative then Qopp magnitude else magnitude)).

Definition read_exponent (s : string) : option (Z * string) :=
  match s with
  | String c rest =>
      if (c =? "e")%char || (c =? "E")%char then
        let '(negative, rest') :=
          match rest with
          | String "-" r => (true, r)
          | String "+" r => (false, r)
          | _ => (false, rest)
          end in
        match digits rest' 0 0 with
        | (_, O, _) => None
        | (e, _, rest'') => Some (if negative then - e else e, rest'')
        end
      else Some (0, s)
  | EmptyString => Some (0, s)
  end.

Definition read_number (s : string) : option (number * string) :=
  let '(negative, s1) :=
    match s with
    | String "-" r => (true, r)
    | _ => (false, s)
    end in
  match digits s1 0 0 with
  | (_, O, _) => None
  | (int, n, s2) =>
      let leading_zero :=
        match s1 with String "0" _ => (1 <? n)%nat | _ => false end in
      if leading_zero then None else
      let fraction :=
        match s2 with
        | String "." r =>
            match digits r int 0 with
            | (_, O, _) => None
            | (m, k, s3) => Some (m, k, s3)
            end
        | _ => Some (int, O, s2)
        end in
      match fraction with
      | None => None
      | Some (m, k, s3) =>
          match read_exponent s3 with
          | None => None
          | Some (e, s4) => Some (to_number negative m k e, s4)
          end
      end
  end.

Definition utf8 (u : Z) : string :=
  let b (n : Z) := ascii_of_N (Z.to_N n) in
  if u <? 128 then String (b u) ""
  else if u <? 2048 then
    String (b (192 + u / 64)) (String (b (128 + u mod 64)) "")
  else
    String (b (224 + u / 4096))
      (String (b (128 + (u / 64) mod 64)) (String (b (128 + u mod 64)) "")).

Definition read_hex4 (s : string) : option (Z * string) :=
  match s with
  | String a (String b (String c (String d rest))) =>
      match hex_digit a, hex_digit b, hex_digit c, hex_digit d with
      | Some x, Some y, Some z, Some w => Some (((x * 16 + y) * 16 + z) * 16 + w, rest)
      | _, _, _, _ => None
      end
  | _ => None
  end.

(** The characters of a string literal after its opening quote. *)
Fixpoint read_chars (s : string) (fuel : nat) : option (string * string) :=
  match fuel with
  | O => None
  | S fuel' =>
      match s with
      | EmptyString => None
      | String c rest =>
          if (c =? "034")%char then Some (EmptyString, rest)
          else if (c =? "\")%char then
            match rest with
            | String e rest' =>
                let plain (x : ascii) :=
                  match read_chars rest' fuel' with
                  | Some (body, tail) => Some (String x body, tail)
                  | None => None
                  end in
                if (e =? "034")%char then plain "034"%char
                else if (e =? "\")%char then plain "\"%char
                else if (e =? "/")%char then plain "/"%char
                else if (e =? "b")%char then plain "008"%char
                else if (e =? "f")%char then plain "012"%char
                else if (e =? "n")%char then plain "010"%char
                else if (e =? "r")%char then plain "013"%char
                else if (e =? "t")%char then plain "009"%char
                else if (e =? "u")%char then
                  match read_hex4 rest' with
                  | Some (u, rest'') =>
                      match read_chars rest'' fuel' with
                      | Some (body, tail) => Some ((utf8 u ++ body)%string, tail)
                      | None => None
                      end
                  | None => None
                  end
                else None
            | EmptyString => None
            end
          else if (nat_of_ascii c <? 32)%nat then None
          else
            match read_chars rest fuel' with
            | Some (body, tail) => Some (String c body, tail)
            | None => None
            end
      end
  end.

Definition read_string (s : string) : option (string * string) :=
  read_chars s (S (String.length s)).

Definition read_literal (word : string) (v : json) (s : string)
  : option (json * string) :=
  if String.prefix word s
  then Some (v, String.substring (String.length word)
                  (String.length s - String.length word) s)
  else None.

Fixpoint read_value (fuel : nat) (s : string) : option (json * string) :=
  match fuel with
  | O => None
  | S fuel' =>
      match skip_ws s with
      | String "n" _ => read_literal "null" JNull (skip_ws s)
      | String "t" _ => read_literal "true" (JBool true) (skip_ws s)
      | String "f" _ => read_literal "false" (JBool false) (skip_ws s)
      | String "034" rest =>
          match read_string rest with
          | Some (str, tail) => Some (JString str, tail)
          | None => None
          end
      | String "[" rest =>
          match skip_ws rest with
          | String "]" tail => Some (JArray [], tail)
          | _ => read_elements fuel' rest []
          end
      | String "{" rest =>
          match skip_ws rest with
          | String "}" tail => Some (JObject ∅, tail)
          | _ => read_members fuel' rest ∅
          end
      | _ =>
          match read_number (skip_ws s) with
          | Some (x, tail) => Some (JNumber x, tail)
          | None => None
          end
      end
  end
with read_elements (fuel : nat) (s : string) (acc : list json)
  : option (json * string) :=
  match fuel with
  | O => None
  | S fuel' =>
      match read_value fuel' s with
      | Some (v, tail) =>
          match skip_ws tail with
          | String "," tail' => read_elements fuel' tail' (acc ++ [v])
          | String "]" tail' => Some (JArray (acc ++ [v]), tail')
          | _ => None
          end
      | None => None
      end
  end
with read_members (fuel : nat) (s : string) (acc : gmap string json)
  : option (json * string) :=
  match fuel with
  | O => None
  | S fuel' =>
      match skip_ws s with
      | String "034" rest =>
          match read_string rest with
          | Some (key, tail) =>
              match skip_ws tail with
              | String ":" tail' =>
                  match read_value fuel' tail' with
                  | Some (v, tail'') =>
                      match skip_ws tail'' with
                      | String "," t => read_members fuel' t (<[key := v]> acc)
                      | String "}" t => Some (JObject (<[key := v]> acc), t)
                      | _ => None
                      end
                  | None => None
                  end
              | _ => None
              end
          | None => None
          end
      | _ => None
      end
  end.

Definition JSON_parse (text : string) : result json :=
  match read_value (2 * String.length text + 2) text with
  | Some (v, tail) =>
      match skip_ws tail with
      | EmptyString => inr v
      | _ => inl (mkError (Some "Unexpected non-whitespace character after JSON")
                    None (Some "{}"))
      end
  | None => inl (mkError (Some "Unexpected token in JSON") None (Some "{}"))
  end.

(** [trim] for the ASCII white space (space, tab, line feed, vertical tab,
    form feed, carriage return). *)
Definition is_space (c : ascii) : bool :=
  let n := nat_of_ascii c in
  (n =? 32)%nat || ((9 <=? n)%nat && (n <=? 13)%nat).

Fixpoint trimStart (s : string) : string :=
  match s with
  | String c rest => if is_space c then trimStart rest else s
  | EmptyString => s
  end.

Fixpoint trimEnd (s : string) : string :=
  match s with
  | String c rest =>
      match trimEnd rest with
      | EmptyString => if is_space c then EmptyString else String c EmptyString
      | rest' => String c rest'
      end
  | EmptyString => s
  end.

Definition trim (s : string) : string := trimEnd (trimStart s).

(** The conversion of a string to a number, over the grammar of
    StringNumericLiteral: white space around the literal is dropped and
    the empty string is 0; a literal is a decimal literal with an optional
    sign and parts ([12], [1.5], [.5], [5.], [1e3]), [Infinity] with an
    optional sign, or an unsigned integer in base 16, 8 or 2 ([0x1f],
    [0o17], [0b101]); any other string is NaN. *)
Fixpoint radix_digits (radix : Z) (s : string) (acc : Z) (count : nat)
  : Z * nat * string :=
  match s with
  | String c rest =>
      match hex_digit c with
      | Some d =>
          if d <? radix then radix_digits radix rest (radix * acc + d) (S count)
          else (acc, count, s)
      | None => (acc, count, s)
      end
  | EmptyString => (acc, count, s)
  end.

Definition radix_literal (radix : Z) (s : string) : number :=
  match radix_digits radix s 0 0 with
  | (_, O, _) => NaN
  | (v, _, EmptyString) => to_number false v 0 0
  | _ => NaN
  end.

Definition decimal_literal (negative : bool) (s : string) : number :=
  if String.eqb s "Infinity" then (if negative then NegInf else PosInf)
  else
    let '(int, n, s2) := digits s 0 0 in
    let '(m, k, s3) :=
      match s2 with
      | String "." r => digits r int 0
      | _ => (int, O, s2)
      end in
    if (n + k =? 0)%nat then NaN
    else
      match read_exponent s3 with
      | Some (e, EmptyString) => to_number negative m k e
      | _ => NaN
      end.

Definition StringToNumber (s : string) : number :=
  match trim s with
  | EmptyString => num 0
  | String "+" rest => decimal_literal false rest
  | String "-" rest => decimal_literal true rest
  | String "0" (String c rest) as literal =>
      if (c =? "x")%char || (c =? "X")%char then radix_literal 16 rest
      else if (c =? "o")%char || (c =? "O")%char then radix_literal 8 rest
      else if (c =? "b")%char || (c =? "B")%char then radix_literal 2 rest
      else decimal_literal false literal
  | literal => decimal_literal false literal
  end.

(** [atob]: forgiving base64 decoding (white space removed, padding
    optional), InvalidCharacterError otherwise. *)
Definition base64_value (c : ascii) : option N :=
  let n := N_of_ascii c in
  if (65 <=? n)%N && (n <=? 90)%N then Some (n - 65)%N
  else if (97 <=? n)%N && (n <=? 122)%N then Some (n - 71)%N
  else if (48 <=? n)%N && (n <=? 57)%N then Some (n + 4)%N
  else if (n =? 43)%N then Some 62%N
  else if (n =? 47)%N then Some 63%N
  else None.

Fixpoint remove_spaces (s : string) : string :=
  match s with
  | EmptyString => EmptyString
  | String c rest =>
      if is_space c && negb (nat_of_ascii c =? 11)%nat then remove_spaces rest
      else String c (remove_spaces rest)
  end.

Fixpoint base64_values (s : string) : option (list N) :=
  match s with
  | EmptyString => Some []
  | String c rest =>
      match base64_value c, base64_values rest with
      | Some v, Some vs => Some (v :: vs)
      | _, _ => None
      end
  end.

Definition byte_of (n : N) : list Byte.byte :=
  match Byte.of_N (n mod 256) with
  | Some b => [b]
  | None => []
  end.

Fixpoint base64_bytes (vs : list N) : option (list Byte.byte) :=
  match vs with
  | a :: b :: c :: d :: rest =>
      match base64_bytes rest with
      | Some bytes =>
          Some (byte_of (a * 4 + b / 16) ++ byte_of (b * 16 + c / 4)
                  ++ byte_of (c * 64 + d) ++ bytes)
      | None => None
      end
  | [a; b; c] => Some (byte_of (a * 4 + b / 16) ++ byte_of (b * 16 + c / 4))
  | [a; b] => Some (byte_of (a * 4 + b / 16))
  | [_] => None
  | [] => Some []
  end.

Fixpoint strip_padding (s : string) : string :=
  match s with
  | String "=" (String "=" EmptyString) => EmptyString
  | String "=" EmptyString => EmptyString
  | String c rest => String c (strip_padding rest)
  | EmptyString => s
  end.

Definition atob (s : string) : result (list Byte.byte) :=
  let data := remove_spaces s in
  let data :=
    if (String.length data mod 4 =? 0)%nat then strip_padding data else data in
  match base64_values data with
  | Some vs =>
      match base64_bytes vs with
      | Some bytes => inr bytes
      | None => inl (Error "The string to be decoded is not correctly encoded.")
      end
  | None => inl (Error "The string to be decoded is not correctly encoded.")
  end.

(** An audio context that follows the Web Audio API: NotSupportedError
    for a buffer without channel or without frame. *)
Definition audioContext : AudioContext :=
  mkAudioContext (fun numChannels frameCount rate =>
    if (numChannels =? 0)%nat || (toUnsignedLong frameCount =? 0)%nat then
      inl (Error "The number of channels or frames provided is outside the supported range")
    else inr (silentBuffer numChannels frameCount rate)).

End Ref.

(** ** The same arithmetic in binary64

    The normalizer and the aggregate on the kernel's primitive floats, which
    are the IEEE 754 binary64 numbers of JavaScript. *)

Module Binary64.

Import PrimFloat FloatOps SpecFloat.

Definition of_Z (n : Z) : float :=
  if n <? 0 then PrimFloat.opp (of_uint63 (Uint63.of_Z (- n)))
  else of_uint63 (Uint63.of_Z n).

(** [Math.round]: the integer nearest to [x], ties towards +Infinity; NaN,
    the infinities, the zeros and the integers are returned unchanged, and
    a negative value that rounds to zero gives -0.  The float [x] is
    [(-1)^negative * m * 2^e]. *)
Definition Math_round (x : float) : float :=
  match Prim2SF x with
  | S754_finite negative m e =>
      if 0 <=? e then x
      else
        let v := if negative then Z.neg m else Z.pos m in
        let n := (2 * v + 2 ^ (- e)) / 2 ^ (1 - e) in
        if n =? 0 then (if negative then (-0)%float else 0%float) else of_Z n
  | _ => x
  end.

Definition Math_max (a b : float) : float :=
  if is_nan a || is_nan b then nan
  else if (a <? b)%float then b
  else if (b <? a)%float then a
  else if get_sign a then b else a.

Definition Math_min (a b : float) : float :=
  if is_nan a || is_nan b then nan
  else if (a <? b)%float then a
  else if (b <? a)%float then b
  else if get_sign a then a else b.

Definition truthy (a : float) : bool :=
  negb (is_nan a) && negb (a =? 0)%float.

Module Rev1.

Definition normalize (val : option float) : float :=
  let v := match val with
           | Some x => if truthy x then x else 0%float
           | None => 0%float
           end in
  let v := if (0 <? v)%float && (v <=? 1)%float then (v * 10)%float else v in
  Math_min 10%float (Math_max 0%float (Math_round (v * 10)%float / 10)%float).

End Rev1.

Module Rev2.

Definition normalize (val : option float) : float :=
  match val with
  | None => 0%float
  | Some v =>
      if is_nan v then 0%float else
      let v := if (0 <? v)%float && (v <? 1)%float then (v * 10)%float else v in
      let v := if (10 <? v)%float then (v / 10)%float else v in
      Math_min 10%float (Math_max 0%float (Math_round (v * 10)%float / 10)%float)
  end.

(** [Math.round(avg * 10) / 10] for the mean of six scores. *)
Definition finalScore (a b c d e f : float) : float :=
  let avg := ((a + b + c + d + e + f) / 6)%float in
  (Math_round (avg * 10) / 10)%float.

End Rev2.

(** [dataInt16[index] / 32768.0] *)
Definition pcmSample (s : Z) : float := (of_Z s / 32768)%float.

(** The backoff delay after [k] multiplications by 2.5. *)
Fixpoint backoffDelay (k : nat) : float :=
  match k with
  | O => 1500%float
  | S k' => (backoffDelay k' * 2.5)%float
  end.

End Binary64.

(** ** Vocabulary of the specification *)

(** "Clamp to [0,10]" and "round to the nearest 0.1". *)
Definition clamp (x : number) : number :=
  JS.Math_min (num 10) (JS.Math_max (num 0) x).

Definition roundTenth (x : number) : number :=
  (JS.Math_round (x * num 10) / num 10)%js.

(** The number [k / 10]. *)
Definition tenths (k : Z) : number := Fin (Q2Qc (inject_Z k) / Q2Qc 10).

(** "Arithmetic mean of the six scores, rounded to one decimal". *)
Definition meanScore (a b c d e f : number) : number :=
  roundTenth (sum6 a b c d e f / num 6)%js.

(** The scale detection of the second revision: a value in (0,1) is read as
    a fraction, a value above 10 as a percentage. *)
Definition rescale (v : Qc) : Qc :=
  if Qc_ltb 0 v && Qc_ltb v 1 then v * Q2Qc 10
  else if Qc_ltb (Q2Qc 10) v then v / Q2Qc 10
  else v.

(** Decidable identity of numbers (NaN identical to itself). *)
Definition same_number (a b : number) : bool :=
  match a, b with
  | NaN, NaN | NegInf, NegInf | PosInf, PosInf => true
  | Fin x, Fin y => Qc_eqb x y
  | _, _ => false
  end.

(** A parsed evaluation carrying the six scores 9, 8, 7, 9, 8, 10. *)
Definition sampleEvaluation : json :=
  JObject (<["pronunciation" := JNumber (num 9)]>
          (<["fluency" := JNumber (num 8)]>
          (<["intonation" := JNumber (num 7)]>
          (<["vocabulary" := JNumber (num 9)]>
          (<["grammar" := JNumber (num 8)]>
          (<["taskFulfillment" := JNumber (num 10)]> ∅)))))).

(** Number of invocations of the callback for model [M] in a trace, and the
    backoff waits of a trace, in order. *)
Definition attemptsOf (M : string) (tr : list event) : nat :=
  List.length
    (List.filter (fun ev => match ev with
                            | Attempt m => String.eqb m M
                            | Sleep _ => false
                            end) tr).

Definition sleepsOf (tr : list event) : list number :=
  flat_map (fun ev => match ev with
                      | Attempt _ => []
                      | Sleep d => [d]
                      end) tr.

(** The events of [n] quota failures followed by a success on model [M]:
    [n + 1] attempts separated by waits that start at [delay] and are
    multiplied by 2.5 each time. *)
Fixpoint retryTrace (M : string) (n : nat) (delay : number) : list event :=
  match n with
  | O => [Attempt M]
  | S n' => Attempt M :: Sleep delay :: retryTrace M n' (delay * num 2.5)%js
  end.

(** The [k]-th backoff delay, [1500 * 2.5^k] milliseconds. *)
Definition backoffDelay (k : nat) : number :=
  Fin (Q2Qc 1500 * Qcpower (Q2Qc 2.5) k).

(** The kinds of failure the orchestrator distinguishes, in the order it
    tests them. *)
Inductive errorKind : Type :=
  | Timeout
  | QuotaExceeded
  | TransientServiceError.

Section Classification.

Variable toLowerCase : string -> string.

Definition classify (err : JsError) : errorKind :=
  if isTimeoutError toLowerCase err then Timeout
  else if isQuotaError toLowerCase err then QuotaExceeded
  else TransientServiceError.

Context {S T : Type}.
Variable fn : string -> S -> outcome T * S.

(** Invoked for model [M] from the world [w], the callback is rejected
    [n] times in a row with an error of kind [QuotaExceeded] and then
    resolves with [v], leaving the world [w']; [last] is the last of
    these errors, if any. *)
Inductive quotaThenSuccess (M : string)
  : nat -> S -> option JsError -> T -> S -> Prop :=
  | qts_success w v w' :
      fn M w = (Resolved v, w') ->
      quotaThenSuccess M 0 w None v w'
  | qts_quota n w e w1 last v w' :
      fn M w = (Rejected e, w1) ->
      classify e = QuotaExceeded ->
      quotaThenSuccess M n w1 last v w' ->
      quotaThenSuccess M (Datatypes.S n) w
        (Some (match last with Some l => l | None => e end)) v w'.

End Classification.

(** ** Scenarios

    Concrete callbacks on which the orchestrator is run below.  The world
    of a callback is the number of times it has been invoked. *)

Definition PRIMARY : string := "gemini-3-flash-preview".

(** A rate-limit error as the service reports it. *)
Definition rateLimitError : JsError :=
  mkError (Some "You exceeded your current quota") (Some 429) None.

(** Fails twice with the rate-limit error, then resolves with 42. *)
Definition quotaTwice (m : string) (calls : nat) : outcome nat * nat :=
  (if (calls <? 2)%nat then Rejected rateLimitError else Resolved 42%nat, S calls).

(** An error with status 429 whose message carries the timeout marker. *)
Definition markedRateLimitError : JsError :=
  mkError (Some "Yêu cầu quá thời gian chờ") (Some 429) None.

(** On the primary model: fails once with [markedRateLimitError], then
    resolves with 42.  On any other model: always fails. *)
Definition markedQuotaOnce (m : string) (calls : nat) : outcome nat * nat :=
  (if String.eqb m PRIMARY
   then (if (calls =? 0)%nat then Rejected markedRateLimitError else Resolved 42%nat)
   else Rejected (Error "boom"),
   S calls).

(** Never settles before the deadline. *)
Definition neverSettles (m : string) (calls : nat) : outcome nat * nat :=
  (Unsettled, S calls).

(** Local storage holding an API key, and a service that answers every
    request with prose instead of JSON. *)
Definition keyedStorage : localStorage := <["gemini_api_key" := "AIza-test"]> ∅.

Definition chattyService (key : string) (request : Request) (calls : nat)
  : outcome Response * nat :=
  (Resolved (mkResponse (Some "Sorry, I cannot help with that.") None), S calls).

(** A service that is never reached in the scenarios where it is used. *)
Definition silentService (key : string) (request : Request) (calls : nat)
  : outcome Response * nat :=
  (Unsettled, S calls).

(** Outcome of an operation that tried every candidate model once, never
    reached the service and failed with the aggregate error built from the
    missing-key error. *)
Definition failsAfterFallback {S A : Type} (ls : localStorage) (w : S)
    (out : result A * Run (S := S)) : Prop :=
  out = (inl (Error (aggregateMessage (Some (Error MISSING_KEY_MESSAGE)))),
         mkRun w (List.map Attempt (getFallbackModels ls))
           (Some (Error MISSING_KEY_MESSAGE))).

(** An evaluation whose six scores and aggregate are all 0. *)
Definition allZero (r : EvaluationResult) : Prop :=
  pronunciation r = num 0 /\ fluency r = num 0 /\ intonation r = num 0 /\
  vocabulary r = num 0 /\ grammar r = num 0 /\ taskFulfillment r = num 0 /\
  score r = num 0.

(** An absent or empty response body. *)
Definition emptyBody (response : Response) : Prop :=
  text response = None \/ text response = Some "".

(** A service that answers every request with an empty body. *)
Definition emptyService (key : string) (request : Request) (calls : nat)
  : outcome Response * nat :=
  (Resolved (mkResponse (Some "") None), S calls).

(** A 16-bit sample scaled as the decoder does, [s / 32768]. *)
Definition pcmSample (s : Z) : number := (num (inject_Z s) / num 32768)%js.

(** Sample [i] of channel [c] of a buffer. *)
Definition sampleAt (buffer : AudioBuffer) (c i : nat) : option number :=
  match channelData buffer !! c with
  | Some data => data !! i
  | None => None
  end.

(** A service that answers with the four PCM bytes 00 40 00 C0 in base64. *)
Definition voiceService (key : string) (request : Request) (calls : nat)
  : outcome Response * nat :=
  (Resolved (mkResponse None (Some "AEAAwA==")), S calls).


(** * Further code of the repository *)

(** ** Shape of a run of the orchestrator *)

(** The events of a sequence of visits: the visit [(m, k)] invokes the
    callback [k + 1] times for model [m], with a wait before each retry,
    the first of 1500 ms and each next one 2.5 times longer. *)
Definition visits (blocks : list (string * nat)) : list event :=
  flat_map (fun b => retryTrace (fst b) (snd b) (num 1500)) blocks.

(** Number of invocations of the callback in a trace, for all models. *)
Definition attemptCount (tr : list event) : nat :=
  List.length
    (List.filter (fun ev => match ev with
                            | Attempt _ => true
                            | Sleep _ => false
                            end) tr).

(** Always rejected with the rate-limit error. *)
Definition alwaysRateLimited (m : string) (calls : nat) : outcome nat * nat :=
  (Rejected rateLimitError, S calls).

(** Always rejected with an error that is neither a timeout nor a quota
    error. *)
Definition alwaysBroken (m : string) (calls : nat) : outcome nat * nat :=
  (Rejected (Error "boom"), S calls).

(** A trace made of one attempt on each of the first candidate models, in
    list order, and nothing else. *)
Definition singleAttempts (ls : localStorage) (tr : list event) : Prop :=
  exists tried rest : list string,
    getFallbackModels ls = tried ++ rest /\ tr = List.map Attempt tried.

(** ** The application component (src/App.tsx) *)

(** [s.padStart(targetLength, padString)]: [s] when it is long enough or the
    pad is empty, otherwise [s] after the pad repeated and cut to the missing
    length. *)
Fixpoint filler (n : nat) (pad rest : string) : string :=
  match n with
  | O => EmptyString
  | Datatypes.S n' =>
      match rest with
      | String c rest' => String c (filler n' pad rest')
      | EmptyString =>
          match pad with
          | String c pad' => String c (filler n' pad pad')
          | EmptyString => EmptyString
          end
      end
  end.

Definition padStart (targetLength : nat) (padString s : string) : string :=
  if (targetLength <=? String.length s)%nat then s
  else (filler (targetLength - String.length s) padString padString ++ s)%string.

Module App.

(** [formatTime(seconds)] for a whole number of seconds (the recording
    timer counts them one by one): [Math.floor] of the quotient, the
    remainder with the sign of the dividend, and their decimal forms. *)
Definition formatTime (seconds : Z) : string :=
  let mins := seconds / 60 in
  let secs := Z.rem seconds 60 in
  (pretty mins ++ ":" ++ padStart 2 "0" (pretty secs))%string.

Inductive AppStatus : Type :=
  | IDLE | GENERATING | READY | RECORDING | REVIEWING | EVALUATING | RESULT | ERROR.

(** The state of the component that decides which panel is shown and
    whether the service may be called: six of its [useState] variables and
    the browser's local storage.  The other variables (the presentation,
    the recording, the audio playback) are written but never read by the
    code modelled here, except for the three that [handleGenerate] tests
    and the one that [handleEvaluate] tests, which are arguments. *)
Record State : Type := mkState {
  status : AppStatus;
  result : option EvaluationResult;
  showSettings : bool;
  apiKey : string;
  selectedModel : string;
  appError : option string;
  localStorage : gmap string string
}.

(** The initial values of the [useState] calls. *)
Definition initial (storage : gmap string string) : State :=
  {| status := IDLE;
     result := None;
     showSettings := false;
     apiKey := interpolate (str_or (storage !! "gemini_api_key") (Some ""));
     selectedModel :=
       interpolate (str_or (storage !! "selected_model")
                      (Some "gemini-3-flash-preview"));
     appError := None;
     localStorage := storage |}.

(** The effect run once after the first render: the settings dialog is
    opened when no API key is stored. *)
Definition mountEffect (s : State) : State :=
  if negb (str_truthy (localStorage s !! "gemini_api_key"))
  then {| status := status s; result := result s; showSettings := true;
          apiKey := apiKey s; selectedModel := selectedModel s;
          appError := appError s; localStorage := localStorage s |}
  else s.

Definition setShowSettings (b : bool) (s : State) : State :=
  {| status := status s; result := result s; showSettings := b;
     apiKey := apiKey s; selectedModel := selectedModel s;
     appError := appError s; localStorage := localStorage s |}.

Definition setStatus (st : AppStatus) (s : State) : State :=
  {| status := st; result := result s; showSettings := showSettings s;
     apiKey := apiKey s; selectedModel := selectedModel s;
     appError := appError s; localStorage := localStorage s |}.

Definition setAppError (e : option string) (s : State) : State :=
  {| status := status s; result := result s; showSettings := showSettings s;
     apiKey := apiKey s; selectedModel := selectedModel s;
     appError := e; localStorage := localStorage s |}.

Definition setResult (res : EvaluationResult) (s : State) : State :=
  {| status := status s; result := Some res; showSettings := showSettings s;
     apiKey := apiKey s; selectedModel := selectedModel s;
     appError := appError s; localStorage := localStorage s |}.

Definition handleSaveSettings (key model : string) (s : State) : State :=
  let s :=
    {| status := status s; result := result s; showSettings := false;
       apiKey := key; selectedModel := model;
       appError := appError s;
       localStorage :=
         <["selected_model" := model]> (<["gemini_api_key" := key]> (localStorage s)) |} in
  if str_truthy (appError s) then setStatus IDLE (setAppError None s) else s.

(** [onClose] of the settings dialog. *)
Definition onClose (s : State) : State :=
  if negb (String.eqb (apiKey s) "") then setShowSettings false s else s.

(** [err?.message || fallback] *)
Definition errorMessage (err : JsError) (fallback : string) : string :=
  interpolate (str_or (message err) (Some fallback)).

Definition GENERATE_FALLBACK : string := "Lỗi không xác định. Bé hãy thử lại nhé!".
Definition EVALUATE_FALLBACK : string := "Lỗi khi chấm bài. Bé hãy thử lại nhé!".

Section Handlers.

(** The values [handleGenerate] tests are objects or strings; only
    their being set matters. *)
Context {UploadedImage Theme Blob : Type}.

(** [handleGenerate] up to its first [await]: nothing chosen, an alert
    and no change; no API key, the settings dialog; otherwise the
    operations are started ([true]). *)
Definition handleGenerate (uploadedImage : option UploadedImage)
    (customThemeLabel : string) (selectedTheme : option Theme) (s : State)
  : State * bool :=
  if negb (bool_decide (is_Some uploadedImage))
     && String.eqb customThemeLabel ""
     && negb (bool_decide (is_Some selectedTheme))
  then (s, false)
  else
    match getApiKey (localStorage s) with
    | inl _ => (setShowSettings true s, false)
    | inr _ => (setAppError None (setStatus GENERATING s), true)
    end.

(** The rest of [handleGenerate] when all its operations have resolved
    and the script was assembled, and its [catch] block otherwise. *)
Definition handleGenerate_resolved (s : State) : State := setStatus READY s.

Definition handleGenerate_rejected (err : JsError) (s : State) : State :=
  setStatus ERROR (setAppError (Some (errorMessage err GENERATE_FALLBACK)) s).

Definition handleRetry (s : State) : State := setStatus IDLE (setAppError None s).

(** [startRecording] after [getUserMedia]: recording, or the [catch]
    block; [stopRecording]. *)
Definition startRecording_resolved (s : State) : State := setStatus RECORDING s.
Definition startRecording_rejected (s : State) : State := setStatus READY s.
Definition stopRecording (s : State) : State := setStatus REVIEWING s.

Definition handleEvaluate (recordedBlob : option Blob) (s : State) : State * bool :=
  match recordedBlob with
  | None => (s, false)
  | Some _ =>
      match getApiKey (localStorage s) with
      | inl _ => (setShowSettings true s, false)
      | inr _ => (setAppError None (setStatus EVALUATING s), true)
      end
  end.

Definition handleEvaluate_resolved (res : EvaluationResult) (s : State) : State :=
  setStatus RESULT (setResult res s).

Definition handleEvaluate_rejected (err : JsError) (s : State) : State :=
  setStatus ERROR (setAppError (Some (errorMessage err EVALUATE_FALLBACK)) s).

(** The two cancel buttons. *)
Definition cancelGenerate (s : State) : State := setAppError None (setStatus IDLE s).
Definition cancelEvaluate (s : State) : State :=
  setAppError None (setStatus REVIEWING s).

(** [window.location.reload()]: the component starts again on the same
    storage. *)
Definition reload (s : State) : State := mountEffect (initial (localStorage s)).

(** [String.prototype.trim] *)
Variable trim : string -> string.

(** [handleSave] of the settings dialog (SettingsModal), whose [onSave]
    is [handleSaveSettings]: [apiKey] and [selectedModel] are the
    contents of its two fields. *)
Definition handleSave (apiKey selectedModel : string) (s : State) : State :=
  if String.eqb (trim apiKey) "" then s
  else handleSaveSettings (trim apiKey) selectedModel s.

(** What can happen to the component: a click, or the settling of a
    promise a handler awaits. *)
Inductive Action : Type :=
  | SaveClicked (apiKey selectedModel : string)
  | CloseClicked
  | SettingsClicked
  | GenerateClicked (uploadedImage : option UploadedImage)
      (customThemeLabel : string) (selectedTheme : option Theme)
  | GenerateResolved
  | GenerateRejected (err : JsError)
  | RetryClicked
  | CancelGenerateClicked
  | CancelEvaluateClicked
  | RecordingStarted
  | RecordingRejected
  | StopClicked
  | EvaluateClicked (recordedBlob : option Blob)
  | EvaluateResolved (res : EvaluationResult)
  | EvaluateRejected (err : JsError)
  | Reloaded.

Definition perform (a : Action) (s : State) : State :=
  match a with
  | SaveClicked apiKey selectedModel => handleSave apiKey selectedModel s
  | CloseClicked => onClose s
  | SettingsClicked => setShowSettings true s
  | GenerateClicked uploadedImage customThemeLabel selectedTheme =>
      fst (handleGenerate uploadedImage customThemeLabel selectedTheme s)
  | GenerateResolved => handleGenerate_resolved s
  | GenerateRejected err => handleGenerate_rejected err s
  | RetryClicked => handleRetry s
  | CancelGenerateClicked => cancelGenerate s
  | CancelEvaluateClicked => cancelEvaluate s
  | RecordingStarted => startRecording_resolved s
  | RecordingRejected => startRecording_rejected s
  | StopClicked => stopRecording s
  | EvaluateClicked recordedBlob => fst (handleEvaluate recordedBlob s)
  | EvaluateResolved res => handleEvaluate_resolved res s
  | EvaluateRejected err => handleEvaluate_rejected err s
  | Reloaded => reload s
  end.

Definition run (actions : list Action) (s : State) : State :=
  fold_left (fun s a => perform a s) actions s.

(** The states the component can be in, whatever the order of the
    clicks and of the answers: any sequence of actions after the first
    render on some storage. *)
Definition reachable (s : State) : Prop :=
  exists (storage : gmap string string) (actions : list Action),
    s = run actions (mountEffect (initial storage)).

End Handlers.

End App.

(** What every handler of the component preserves. *)
Definition panelsConsistent (s : App.State) : Prop :=
  (App.status s = App.ERROR -> str_truthy (App.appError s) = true) /\
  (App.status s = App.RESULT -> is_Some (App.result s)) /\
  App.apiKey s = interpolate (str_or (App.localStorage s !! "gemini_api_key") (Some "")) /\
  (App.apiKey s = "" -> App.showSettings s = true) /\
  (App.status s = App.GENERATING \/ App.status s = App.EVALUATING -> App.apiKey s <> "").

(** A state in which an evaluation failed, and the dialog contents
    [" AIza-new "] with the third model selected. *)
Definition failedState : App.State :=
  App.mkState App.ERROR None false "AIza-old" "gemini-3-flash-preview"
    (Some "TẤT CẢ MODEL ĐỀU LỖI") (<["gemini_api_key" := "AIza-old"]> ∅).

(** ** The illustration service and its page (src/unnamed) *)

(** Truthiness of a value of parsed JSON, and [value || fallback] for a
    member that may be absent. *)
Definition json_truthy (value : json) : bool :=
  match value with
  | JNull => false
  | JBool b => b
  | JNumber x => JS.truthy x
  | JString s => negb (String.eqb s "")
  | JArray _ | JObject _ => true
  end.

Definition json_or (value : option json) (fallback : json) : json :=
  match value with
  | Some v => if json_truthy v then v else fallback
  | None => fallback
  end.

(** [s.split(",")[1]]: the text between the first and the second comma, or
    [undefined] when there is no comma. *)
Fixpoint afterComma (s : string) : option string :=
  match s with
  | EmptyString => None
  | String c rest => if (c =? ",")%char then Some rest else afterComma rest
  end.

Fixpoint untilComma (s : string) : string :=
  match s with
  | EmptyString => EmptyString
  | String c rest => if (c =? ",")%char then EmptyString else String c (untilComma rest)
  end.

Definition split_comma_1 (s : string) : option string :=
  option_map untilComma (afterComma s).

Module Illustrator.

Inductive EnglishLevel : Type := Starter | A1 | A2 | B1 | B2.

Definition levelName (level : EnglishLevel) : string :=
  match level with
  | Starter => "Starter" | A1 => "A1" | A2 => "A2" | B1 => "B1" | B2 => "B2"
  end.

Inductive AspectRatio : Type := R1_1 | R3_4 | R4_3 | R9_16 | R16_9.

(** A part of a request: [{ text }] or [{ inlineData: { mimeType, data } }]. *)
Inductive Part : Type :=
  | TextPart (text : json)
  | InlineDataPart (mimeType : string) (data : option string).

(** The configuration of a request: the system instruction, a fixed text
    in which only the level varies, with the JSON response type; or the
    image configuration. *)
Inductive Config : Type :=
  | TextConfig (level : EnglishLevel)
  | ImageConfig (aspectRatio : AspectRatio).

Record Request : Type := mkRequest {
  model : string;
  parts : list Part;
  config : Config
}.

(** [part.inlineData] of a part of the response, with its [data]. *)
Record ResponsePart : Type := mkResponsePart {
  inlineData : option (option string)
}.

(** [response.text] and [response.candidates?.[0]?.content?.parts]. *)
Record Response : Type := mkResponse {
  text : option string;
  candidateParts : option (list ResponsePart)
}.

Record Generated : Type := mkGenerated {
  prompt : json;
  readingText : json
}.

Definition NO_IMAGE_MESSAGE : string := "No image data returned from Gemini".
Definition DATA_URL_PREFIX : string := "data:image/png;base64,".

(** The loop of [generateImage] over the parts of the response. *)
Fixpoint firstImage (responseParts : list ResponsePart) : result string :=
  match responseParts with
  | [] => inl (Error NO_IMAGE_MESSAGE)
  | part :: rest =>
      match inlineData part with
      | Some data => inr (DATA_URL_PREFIX ++ interpolate data)%string
      | None => firstImage rest
      end
  end.

Section Service.

Variable JSON_parse : string -> result json.
(** [ai.models.generateContent(request)], acting on the outside world. *)
Context {S : Type}.
Variable service : Request -> S -> outcome Response * S.

(** The [try] block of [generateContent] and its [catch]: a body that
    is not JSON, or [null] (whose members cannot be read), gives the
    empty result. *)
Definition parseGenerated (response : Response) : Generated :=
  match JSON_parse (interpolate (str_or (text response) (Some "{}"))) with
  | inl _ => mkGenerated (JString "") (JString "")
  | inr JNull => mkGenerated (JString "") (JString "")
  | inr result =>
      mkGenerated (json_or (member result "prompt") (JString ""))
        (json_or (member result "readingText") (JString ""))
  end.

Definition generateContent (input : string) (level : EnglishLevel)
    (imageData : option string) (w : S) : outcome Generated * S :=
  let topic :=
    TextPart (JString ("Topic: " ++ input ++ String "010"%char "Level: "
                         ++ levelName level)) in
  let requestParts :=
    match imageData with
    | Some url =>
        if negb (String.eqb url "")
        then [topic; InlineDataPart "image/jpeg" (split_comma_1 url)]
        else [topic]
    | None => [topic]
    end in
  match service (mkRequest "gemini-3-flash-preview" requestParts (TextConfig level)) w with
  | (Resolved response, w') => (Resolved (parseGenerated response), w')
  | (Rejected e, w') => (Rejected e, w')
  | (Unsettled, w') => (Unsettled, w')
  end.

(** [aspectRatio] is "1:1" when the argument is left out. *)
Definition generateImage (prompt : json) (aspectRatio : option AspectRatio) (w : S)
  : outcome string * S :=
  match service (mkRequest "gemini-2.5-flash-image" [TextPart prompt]
                   (ImageConfig (default R1_1 aspectRatio))) w with
  | (Resolved response, w') =>
      (settle (firstImage (match candidateParts response with
                           | Some ps => ps
                           | None => []
                           end)), w')
  | (Rejected e, w') => (Rejected e, w')
  | (Unsettled, w') => (Unsettled, w')
  end.

(** The page: its [useState] variables. *)
Record State : Type := mkState {
  topic : string;
  level : EnglishLevel;
  imagePreview : option string;
  aspectRatio : AspectRatio;
  isGenerating : bool;
  generatedImage : option string;
  generatedPrompt : option json;
  readingText' : option json;
  error : option string
}.

Definition NOTHING_ENTERED : string := "Vui lòng nhập chủ đề hoặc tải ảnh lên.".
Definition GENERATION_FAILED : string :=
  "Có lỗi xảy ra khi tạo ảnh. Vui lòng thử lại.".

(** [handleGenerate] run to its end, or as far as the first promise
    that never settles. *)
Definition handleGenerate (s : State) (w : S) : State * S :=
  if String.eqb (topic s) "" && negb (str_truthy (imagePreview s)) then
    (mkState (topic s) (level s) (imagePreview s) (aspectRatio s)
       (isGenerating s) (generatedImage s) (generatedPrompt s) (readingText' s)
       (Some NOTHING_ENTERED), w)
  else
    let started :=
      mkState (topic s) (level s) (imagePreview s) (aspectRatio s)
        true None (generatedPrompt s) None None in
    let failed (st : State) :=
      mkState (topic st) (level st) (imagePreview st) (aspectRatio st)
        false (generatedImage st) (generatedPrompt st) (readingText' st)
        (Some GENERATION_FAILED) in
    match generateContent
            (if String.eqb (topic s) "" then "A scene based on the provided image"
             else topic s)
            (level s)
            (if str_truthy (imagePreview s) then imagePreview s else None) w with
    | (Unsettled, w1) => (started, w1)
    | (Rejected _, w1) => (failed started, w1)
    | (Resolved generated, w1) =>
        let written :=
          mkState (topic s) (level s) (imagePreview s) (aspectRatio s)
            true None (Some (prompt generated)) (Some (readingText generated))
            None in
        match generateImage (prompt generated) (Some (aspectRatio s)) w1 with
        | (Unsettled, w2) => (written, w2)
        | (Rejected _, w2) => (failed written, w2)
        | (Resolved imageUrl, w2) =>
            (mkState (topic s) (level s) (imagePreview s) (aspectRatio s)
               false (Some imageUrl) (Some (prompt generated))
               (Some (readingText generated)) None, w2)
        end
    end.

(** The poster is rendered when [generatedImage && readingText]. *)
Definition posterShown (s : State) : bool :=
  str_truthy (generatedImage s)
  && match readingText' s with
     | Some v => json_truthy v
     | None => false
     end.

End Service.

End Illustrator.

(** A text service that answers with prose, and an image service that
    answers with one picture; the world counts the requests. *)
Definition proseThenPicture (request : Illustrator.Request) (calls : nat)
  : outcome Illustrator.Response * nat :=
  (match Illustrator.config request with
   | Illustrator.TextConfig _ =>
       Resolved (Illustrator.mkResponse (Some "Here is your story!") None)
   | Illustrator.ImageConfig _ =>
       Resolved (Illustrator.mkResponse None
                   (Some [Illustrator.mkResponsePart None;
                          Illustrator.mkResponsePart (Some (Some "iVBORw0KGgo="))]))
   end, S calls).

Definition jungleForm : Illustrator.State :=
  Illustrator.mkState "Jungle" Illustrator.A1 None Illustrator.R4_3 false None None None None.

(** ** More scenarios *)

(** A service that answers every request with the JSON text [null], and
    one that answers without text and without audio. *)
Definition nullService (key : string) (request : Request) (calls : nat)
  : outcome Response * nat :=
  (Resolved (mkResponse (Some "null") None), S calls).

Definition mutedService (key : string) (request : Request) (calls : nat)
  : outcome Response * nat :=
  (Resolved (mkResponse None None), S calls).

(** A service that answers with a prompt surrounded by blanks. *)
Definition promptService (key : string) (request : Request) (calls : nat)
  : outcome Response * nat :=
  (Resolved (mkResponse (Some "  A red panda in a tree.  ") None), S calls).

(** A service that answers with the sample evaluation of six scores, given
    as JSON text. *)
Definition SAMPLE_EVALUATION_JSON : string :=
  "{" ++ quoted "pronunciation" ++ ":9," ++ quoted "fluency" ++ ":0.8,"
      ++ quoted "intonation" ++ ":70," ++ quoted "vocabulary" ++ ":9,"
      ++ quoted "grammar" ++ ":" ++ quoted "8" ++ ","
      ++ quoted "taskFulfillment" ++ ":10}".

Definition gradingService (key : string) (request : Request) (calls : nat)
  : outcome Response * nat :=
  (Resolved (mkResponse (Some SAMPLE_EVALUATION_JSON) None), S calls).

(** The seven numbers of an evaluation result are scores: multiples of 0.1
    between 0 and 10. *)
Definition isScore (x : number) : Prop := exists k : Z, 0 <= k <= 100 /\ x = tenths k.

Definition displayable (r : EvaluationResult) : Prop :=
  isScore (pronunciation r) /\ isScore (fluency r) /\ isScore (intonation r) /\
  isScore (vocabulary r) /\ isScore (grammar r) /\ isScore (taskFulfillment r) /\
  isScore (score r).


(** * Properties *)

(** ** Arithmetic on [Qc] *)

Lemma Qc_ltb_lt (x y : Qc) : Qc_ltb x y = true <-> (x < y)%Qc.
Proof.
  unfold Qc_ltb. rewrite Qclt_alt. destruct (x ?= y)%Qc; split; congruence.
Qed.

Lemma Qc_leb_le (x y : Qc) : Qc_leb x y = true <-> (x <= y)%Qc.
Proof.
  unfold Qc_leb. rewrite Qcle_alt. destruct (x ?= y)%Qc; split; congruence.
Qed.

Lemma Qc_eqb_eq (x y : Qc) : Qc_eqb x y = true <-> x = y.
Proof.
  unfold Qc_eqb. rewrite Qceq_alt. destruct (x ?= y)%Qc; split; congruence.
Qed.

Lemma Qc_ltb_ge (x y : Qc) : Qc_ltb x y = false <-> (y <= x)%Qc.
Proof.
  rewrite <- not_true_iff_false, Qc_ltb_lt. split.
  - apply Qcnot_lt_le.
  - apply Qcle_not_lt.
Qed.

Lemma Qc_leb_gt (x y : Qc) : Qc_leb x y = false <-> (y < x)%Qc.
Proof.
  rewrite <- not_true_iff_false, Qc_leb_le. split.
  - apply Qcnot_le_lt.
  - apply Qclt_not_le.
Qed.

(** Goals and hypotheses over [Qc] are moved to [Q], where [lra] decides
    linear arithmetic. *)
Ltac note_Qred q :=
  lazymatch goal with
  | _ : (Qred q == q)%Q |- _ => fail
  | _ => pose proof (Qred_correct q)
  end.

Ltac eval_Q_literals :=
  repeat match goal with
         | |- context [Qred (Qmake ?n ?d)] =>
             let v := eval vm_compute in (Qred (Qmake n d)) in
             change (Qred (Qmake n d)) with v in *
         | |- context [Qinv (Qmake ?n ?d)] =>
             let v := eval vm_compute in (Qinv (Qmake n d)) in
             change (Qinv (Qmake n d)) with v in *
         | H : context [Qred (Qmake ?n ?d)] |- _ =>
             let v := eval vm_compute in (Qred (Qmake n d)) in
             change (Qred (Qmake n d)) with v in *
         | H : context [Qinv (Qmake ?n ?d)] |- _ =>
             let v := eval vm_compute in (Qinv (Qmake n d)) in
             change (Qinv (Qmake n d)) with v in *
         end.

Ltac eval_inject_Z :=
  repeat match goal with
         | |- context [inject_Z Z0] => change (inject_Z Z0) with (0 # 1)%Q in *
         | |- context [inject_Z (Zpos ?p)] =>
             change (inject_Z (Zpos p)) with (Zpos p # 1)%Q in *
         | |- context [inject_Z (Zneg ?p)] =>
             change (inject_Z (Zneg p)) with (Zneg p # 1)%Q in *
         | H : context [inject_Z Z0] |- _ =>
             change (inject_Z Z0) with (0 # 1)%Q in *
         | H : context [inject_Z (Zpos ?p)] |- _ =>
             change (inject_Z (Zpos p)) with (Zpos p # 1)%Q in *
         | H : context [inject_Z (Zneg ?p)] |- _ =>
             change (inject_Z (Zneg p)) with (Zneg p # 1)%Q in *
         end.

Ltac to_Q :=
  eval_inject_Z;
  unfold Qcdiv, Qcminus in *;
  unfold Qclt, Qcle, Qcmult, Qcplus, Qcinv, Qcopp in *;
  cbn [this Q2Qc] in *;
  eval_Q_literals;
  repeat match goal with
         | H : context [Qred ?q] |- _ => note_Qred q
         | |- context [Qred ?q] => note_Qred q
         end.

Lemma round_Qc_bounds (x : Qc) :
  (inject_Z (JS.round_Qc x) - (1 # 2) <= x < inject_Z (JS.round_Qc x) + (1 # 2))%Q.
Proof.
  unfold JS.round_Qc.
  pose proof (Qfloor_le (x + Q2Qc (1 # 2))%Qc) as Hlo.
  pose proof (Qlt_floor (x + Q2Qc (1 # 2))%Qc) as Hhi.
  rewrite inject_Z_plus in Hhi. change (inject_Z 1) with 1%Q in Hhi.
  to_Q. split; lra.
Qed.

Lemma round_Qc_unique (x : Qc) (k : Z) :
  (inject_Z k - (1 # 2) <= x < inject_Z k + (1 # 2))%Q -> JS.round_Qc x = k.
Proof.
  intros [Hlo Hhi]. destruct (round_Qc_bounds x) as [Klo Khi].
  assert (inject_Z k < inject_Z (JS.round_Qc x) + 1)%Q as H1 by lra.
  assert (inject_Z (JS.round_Qc x) < inject_Z k + 1)%Q as H2 by lra.
  change 1%Q with (inject_Z 1) in H1, H2.
  rewrite <- inject_Z_plus, <- Zlt_Qlt in H1, H2. lia.
Qed.

Lemma round_Qc_Z (k : Z) : JS.round_Qc (Q2Qc (inject_Z k)) = k.
Proof. apply round_Qc_unique. to_Q. split; lra. Qed.

(** ** Tenths *)

Lemma tenths_lt (a b : Z) : JS.lt (tenths a) (tenths b) = (a <? b).
Proof.
  unfold tenths, JS.lt.
  destruct (Z.ltb_spec a b) as [H | H].
  - apply Qc_ltb_lt. rewrite Zlt_Qlt in H. to_Q. lra.
  - apply Qc_ltb_ge. rewrite Zle_Qle in H. to_Q. lra.
Qed.

Lemma tenths_inj (a b : Z) : tenths a = tenths b -> a = b.
Proof.
  intros H.
  pose proof (tenths_lt a b) as H1. pose proof (tenths_lt b a) as H2.
  rewrite H in H1. rewrite H in H2.
  rewrite (tenths_lt b b) in H1, H2. lia.
Qed.

Lemma num_0_tenths : num 0 = tenths 0.
Proof. unfold num, tenths. f_equal. apply Qc_is_canon. reflexivity. Qed.

Lemma num_10_tenths : num 10 = tenths 100.
Proof. unfold num, tenths. f_equal. apply Qc_is_canon. reflexivity. Qed.

Lemma Math_max_tenths (a b : Z) :
  JS.Math_max (tenths a) (tenths b) = tenths (Z.max a b).
Proof.
  change (JS.Math_max (tenths a) (tenths b))
    with (if JS.lt (tenths a) (tenths b) then tenths b else tenths a).
  rewrite tenths_lt. destruct (Z.ltb_spec a b); f_equal; lia.
Qed.

Lemma Math_min_tenths (a b : Z) :
  JS.Math_min (tenths a) (tenths b) = tenths (Z.min a b).
Proof.
  change (JS.Math_min (tenths a) (tenths b))
    with (if JS.lt (tenths b) (tenths a) then tenths b else tenths a).
  rewrite tenths_lt. destruct (Z.ltb_spec b a); f_equal; lia.
Qed.

Lemma clamp_tenths (k : Z) : clamp (tenths k) = tenths (Z.max 0 (Z.min 100 k)).
Proof.
  unfold clamp. rewrite num_0_tenths, num_10_tenths.
  rewrite Math_max_tenths, Math_min_tenths. f_equal. lia.
Qed.

Lemma roundTenth_Fin (v : Qc) :
  roundTenth (Fin v) = tenths (JS.round_Qc (v * Q2Qc 10)).
Proof. reflexivity. Qed.

(** ** The normalizer, second revision *)

Lemma gt_Fin (a b : Qc) : (Fin a >? Fin b)%js = Qc_ltb b a.
Proof. reflexivity. Qed.

Lemma lt_Fin (a b : Qc) : (Fin a <? Fin b)%js = Qc_ltb a b.
Proof. reflexivity. Qed.

Lemma le_Fin (a b : Qc) : (Fin a <=? Fin b)%js = Qc_leb a b.
Proof. reflexivity. Qed.

Lemma mul_Fin (a b : Qc) : (Fin a * Fin b)%js = Fin (a * b).
Proof. reflexivity. Qed.

Lemma div_Fin_10 (a : Qc) : (Fin a / num 10)%js = Fin (a / Q2Qc 10).
Proof. reflexivity. Qed.

(** Decides a comparison of [Qc] terms from the hypotheses. *)
Ltac Qc_cmp :=
  first [ apply Qc_ltb_lt | apply Qc_ltb_ge | apply Qc_leb_le | apply Qc_leb_gt ];
  to_Q; lra.

Lemma Rev2_normalize_unit (v : Qc) :
  (0 < v)%Qc -> (v < 1)%Qc ->
  Rev2.normalize (Some (Fin v)) = clamp (roundTenth (Fin (v * Q2Qc 10))).
Proof.
  intros H0 H1. unfold Rev2.normalize, num. cbn [JS.isNaN].
  rewrite !gt_Fin, !lt_Fin.
  replace (Qc_ltb (Q2Qc 0) v) with true by (symmetry; Qc_cmp).
  replace (Qc_ltb v (Q2Qc 1)) with true by (symmetry; Qc_cmp).
  cbn [andb]. rewrite mul_Fin, gt_Fin.
  replace (Qc_ltb (Q2Qc 10) (v * Q2Qc 10)) with false by (symmetry; Qc_cmp).
  reflexivity.
Qed.

Lemma Rev2_normalize_percent (v : Qc) :
  (Q2Qc 10 < v)%Qc ->
  Rev2.normalize (Some (Fin v)) = clamp (roundTenth (Fin (v / Q2Qc 10))).
Proof.
  intros H. unfold Rev2.normalize, num. cbn [JS.isNaN].
  rewrite !gt_Fin, !lt_Fin.
  replace (Qc_ltb v (Q2Qc 1)) with false by (symmetry; Qc_cmp).
  rewrite andb_false_r, gt_Fin.
  replace (Qc_ltb (Q2Qc 10) v) with true by (symmetry; Qc_cmp).
  reflexivity.
Qed.

Lemma Rev2_normalize_plain (v : Qc) :
  (v <= 0)%Qc \/ ((1 <= v)%Qc /\ (v <= Q2Qc 10)%Qc) ->
  Rev2.normalize (Some (Fin v)) = clamp (roundTenth (Fin v)).
Proof.
  intros H. unfold Rev2.normalize, num. cbn [JS.isNaN].
  rewrite !gt_Fin, !lt_Fin.
  replace (Qc_ltb (Q2Qc 0) v && Qc_ltb v (Q2Qc 1)) with false.
  2:{ symmetry. apply andb_false_iff.
      destruct H as [H | [H _]]; [left | right]; Qc_cmp. }
  rewrite gt_Fin.
  replace (Qc_ltb (Q2Qc 10) v) with false.
  2:{ symmetry. destruct H as [H | [_ H]]; Qc_cmp. }
  reflexivity.
Qed.

Lemma Rev2_normalize_Fin (v : Qc) :
  Rev2.normalize (Some (Fin v)) = clamp (roundTenth (Fin (rescale v))).
Proof.
  unfold rescale.
  destruct (Qc_ltb 0 v) eqn:E0; destruct (Qc_ltb v 1) eqn:E1; cbn [andb].
  - apply Rev2_normalize_unit; [apply Qc_ltb_lt, E0 | apply Qc_ltb_lt, E1].
  - destruct (Qc_ltb (Q2Qc 10) v) eqn:E10.
    + apply Rev2_normalize_percent, Qc_ltb_lt, E10.
    + apply Rev2_normalize_plain. right.
      split; [apply Qc_ltb_ge, E1 | apply Qc_ltb_ge, E10].
  - replace (Qc_ltb (Q2Qc 10) v) with false.
    + apply Rev2_normalize_plain. left. apply Qc_ltb_ge, E0.
    + symmetry. apply Qc_ltb_lt in E1. Qc_cmp.
  - apply Qc_ltb_ge in E0. apply Qc_ltb_ge in E1. exfalso. to_Q. lra.
Qed.

Lemma round_Qc_le (x : Qc) (k : Z) : (x <= inject_Z k)%Q -> JS.round_Qc x <= k.
Proof.
  intros H. destruct (round_Qc_bounds x) as [Hlo _].
  assert (inject_Z (JS.round_Qc x) < inject_Z k + 1)%Q as H1 by lra.
  change 1%Q with (inject_Z 1) in H1.
  rewrite <- inject_Z_plus, <- Zlt_Qlt in H1. lia.
Qed.

Lemma round_Qc_ge (x : Qc) (k : Z) : (inject_Z k <= x)%Q -> k <= JS.round_Qc x.
Proof.
  intros H. destruct (round_Qc_bounds x) as [_ Hhi].
  assert (inject_Z k < inject_Z (JS.round_Qc x) + 1)%Q as H1 by lra.
  change 1%Q with (inject_Z 1) in H1.
  rewrite <- inject_Z_plus, <- Zlt_Qlt in H1. lia.
Qed.

(** The normalized value is [k / 10] for an integer [k] between 0 and 100:
    it lies in [0,10] and has one decimal. *)
Lemma Rev2_normalize_key (v : Qc) :
  Rev2.normalize (Some (Fin v))
  = tenths (Z.max 0 (Z.min 100 (JS.round_Qc (rescale v * Q2Qc 10)))).
Proof. rewrite Rev2_normalize_Fin, roundTenth_Fin. apply clamp_tenths. Qed.

Lemma Rev2_normalize_range (val : option number) :
  exists k : Z, 0 <= k <= 100 /\ Rev2.normalize val = tenths k.
Proof.
  destruct val as [[ | | | v] | ].
  - exists 0. split; [lia | apply num_0_tenths].
  - exists 0. split; [lia | apply num_0_tenths].
  - exists 100. split; [lia | apply num_10_tenths].
  - eexists. split; [ | apply Rev2_normalize_key]. lia.
  - exists 0. split; [lia | apply num_0_tenths].
Qed.

Lemma same_number_eq (a b : number) : same_number a b = true -> a = b.
Proof.
  destruct a, b; cbn; try congruence.
  intros H. apply Qc_eqb_eq in H. congruence.
Qed.

(** Closes an equation between closed numbers by evaluation. *)
Ltac by_evaluation := apply same_number_eq; vm_compute; reflexivity.

Lemma Math_max_Fin (a b : Qc) :
  JS.Math_max (Fin a) (Fin b) = if Qc_ltb a b then Fin b else Fin a.
Proof. reflexivity. Qed.

Lemma Math_min_Fin (a b : Qc) :
  JS.Math_min (Fin a) (Fin b) = if Qc_ltb b a then Fin b else Fin a.
Proof. reflexivity. Qed.

Lemma clamp_Fin_low (x : Qc) : (x <= 0)%Qc -> clamp (Fin x) = num 0.
Proof.
  intros H. unfold clamp, num. rewrite Math_max_Fin.
  replace (Qc_ltb (Q2Qc 0) x) with false by (symmetry; Qc_cmp).
  reflexivity.
Qed.

Lemma clamp_Fin_high (x : Qc) : (Q2Qc 10 <= x)%Qc -> clamp (Fin x) = num 10.
Proof.
  intros H. unfold clamp, num. rewrite Math_max_Fin.
  replace (Qc_ltb (Q2Qc 0) x) with true by (symmetry; Qc_cmp).
  rewrite Math_min_Fin.
  replace (Qc_ltb x (Q2Qc 10)) with false by (symmetry; Qc_cmp).
  reflexivity.
Qed.

Lemma clamp_Fin_mid (x : Qc) :
  (0 < x)%Qc -> (x < Q2Qc 10)%Qc -> clamp (Fin x) = Fin x.
Proof.
  intros H0 H10. unfold clamp, num. rewrite Math_max_Fin.
  replace (Qc_ltb (Q2Qc 0) x) with true by (symmetry; Qc_cmp).
  rewrite Math_min_Fin.
  replace (Qc_ltb x (Q2Qc 10)) with true by (symmetry; Qc_cmp).
  reflexivity.
Qed.

(** Clamping and rounding to a tenth commute, so "clamp, then round" (the
    order of the specification) and "round, then clamp" (the order of the
    code) are the same function. *)
Lemma roundTenth_clamp (x : number) : roundTenth (clamp x) = clamp (roundTenth x).
Proof.
  destruct x as [ | | | x]; [by_evaluation | by_evaluation | by_evaluation | ].
  rewrite (roundTenth_Fin x), clamp_tenths.
  destruct (Qclt_le_dec 0 x) as [H0 | H0]; [destruct (Qclt_le_dec x (Q2Qc 10)) as [H10 | H10] | ].
  - rewrite clamp_Fin_mid, roundTenth_Fin by assumption. f_equal.
    assert (0 <= JS.round_Qc (x * Q2Qc 10)) by (apply round_Qc_ge; to_Q; lra).
    assert (JS.round_Qc (x * Q2Qc 10) <= 100) by (apply round_Qc_le; to_Q; lra).
    lia.
  - rewrite clamp_Fin_high by assumption.
    assert (100 <= JS.round_Qc (x * Q2Qc 10)) by (apply round_Qc_ge; to_Q; lra).
    replace (Z.max 0 (Z.min 100 (JS.round_Qc (x * Q2Qc 10)))) with 100 by lia.
    by_evaluation.
  - rewrite clamp_Fin_low by assumption.
    assert (JS.round_Qc (x * Q2Qc 10) <= 0) by (apply round_Qc_le; to_Q; lra).
    replace (Z.max 0 (Z.min 100 (JS.round_Qc (x * Q2Qc 10)))) with 0 by lia.
    by_evaluation.
Qed.

(** [roundTenth] picks the multiple of 0.1 nearest to its argument. *)
Lemma roundTenth_nearest (x : Qc) :
  exists k : Z,
    roundTenth (Fin x) = tenths k /\
    (x - (1 # 20) < inject_Z k * (1 # 10) <= x + (1 # 20))%Q.
Proof.
  exists (JS.round_Qc (x * Q2Qc 10)). split; [apply roundTenth_Fin | ].
  destruct (round_Qc_bounds (x * Q2Qc 10)) as [Hlo Hhi].
  to_Q. split; lra.
Qed.

Lemma round_Qc_ge_iff (x : Qc) (k : Z) :
  k <= JS.round_Qc x <-> (inject_Z k - (1 # 2) <= x)%Q.
Proof.
  destruct (round_Qc_bounds x) as [Hlo Hhi]. split; intros H.
  - rewrite Zle_Qle in H. lra.
  - assert (inject_Z k < inject_Z (JS.round_Qc x) + 1)%Q as H1 by lra.
    change 1%Q with (inject_Z 1) in H1.
    rewrite <- inject_Z_plus, <- Zlt_Qlt in H1. lia.
Qed.

Lemma round_Qc_le_iff (x : Qc) (k : Z) :
  JS.round_Qc x <= k <-> (x < inject_Z k + (1 # 2))%Q.
Proof.
  destruct (round_Qc_bounds x) as [Hlo Hhi]. split; intros H.
  - rewrite Zle_Qle in H. lra.
  - assert (inject_Z (JS.round_Qc x) < inject_Z k + 1)%Q as H1 by lra.
    change 1%Q with (inject_Z 1) in H1.
    rewrite <- inject_Z_plus, <- Zlt_Qlt in H1. lia.
Qed.

(** ** Idempotence of the normalizer *)

(** The integer [k] with [normalize v = k / 10]. *)
Lemma Rev2_key_small_iff (x : Qc) :
  1 <= Z.max 0 (Z.min 100 (JS.round_Qc (rescale x * Q2Qc 10))) <= 9
  <-> ((1 # 200) <= x < (19 # 200))%Q.
Proof.
  transitivity (1 <= JS.round_Qc (rescale x * Q2Qc 10)
                /\ JS.round_Qc (rescale x * Q2Qc 10) <= 9); [lia | ].
  rewrite round_Qc_ge_iff, round_Qc_le_iff. unfold rescale.
  destruct (Qc_ltb 0 x) eqn:E0; destruct (Qc_ltb x 1) eqn:E1; cbn [andb];
    [ | destruct (Qc_ltb (Q2Qc 10) x) eqn:E10 | destruct (Qc_ltb (Q2Qc 10) x) eqn:E10 | ];
    repeat match goal with
           | H : Qc_ltb _ _ = true |- _ => apply Qc_ltb_lt in H
           | H : Qc_ltb _ _ = false |- _ => apply Qc_ltb_ge in H
           end;
    to_Q; split; intros [? ?]; try split; lra.
Qed.

Lemma Rev2_normalize_tenths (k : Z) :
  0 <= k <= 100 ->
  Rev2.normalize (Some (tenths k))
  = tenths (if (0 <? k) && (k <? 10) then 10 * k else k).
Proof.
  intros Hk. unfold tenths at 1. rewrite Rev2_normalize_key. f_equal.
  set (q := (Q2Qc (inject_Z k) / Q2Qc 10)%Qc).
  assert (Hq : (q * (10 # 1) == inject_Z k)%Q) by (subst q; to_Q; lra).
  assert (0 <= inject_Z k <= 100)%Q as HkQ
      by (change 0%Q with (inject_Z 0); change 100%Q with (inject_Z 100);
          rewrite <- !Zle_Qle; lia).
  destruct (Z.ltb_spec 0 k) as [H0 | H0]; destruct (Z.ltb_spec k 10) as [H10 | H10];
    cbn [andb].
  - (* a fraction: multiplied by 10 *)
    assert (inject_Z 0 < inject_Z k < inject_Z 10)%Q as HQ
        by (rewrite <- !Zlt_Qlt; lia).
    assert (rescale q = (q * Q2Qc 10)%Qc) as ->.
    { unfold rescale.
      replace (Qc_ltb 0 q) with true by (symmetry; Qc_cmp).
      replace (Qc_ltb q 1) with true by (symmetry; Qc_cmp).
      reflexivity. }
    assert (JS.round_Qc (q * Q2Qc 10 * Q2Qc 10) = 10 * k) as ->.
    { apply round_Qc_unique. rewrite inject_Z_mult. to_Q. split; lra. }
    lia.
  - assert (inject_Z 10 <= inject_Z k)%Q as HQ by (rewrite <- Zle_Qle; lia).
    assert (rescale q = q) as ->.
    { unfold rescale.
      replace (Qc_ltb q 1) with false by (symmetry; Qc_cmp).
      rewrite andb_false_r.
      replace (Qc_ltb (Q2Qc 10) q) with false by (symmetry; Qc_cmp).
      reflexivity. }
    assert (JS.round_Qc (q * Q2Qc 10) = k) as ->.
    { apply round_Qc_unique. to_Q. split; lra. }
    lia.
  - assert (k = 0) as -> by lia. reflexivity.
  - lia.
Qed.

(** ** The normalizer, first revision *)

Lemma Rev1_normalize_Fin (v : Qc) :
  Rev1.normalize (Some (Fin v))
  = clamp (roundTenth
             (Fin (if Qc_ltb 0 v && Qc_leb v 1 then v * Q2Qc 10 else v))).
Proof.
  unfold Rev1.normalize. cbn [JS.truthy].
  destruct (Qc_eqb v 0) eqn:E; cbn [negb].
  - apply Qc_eqb_eq in E. subst v. reflexivity.
  - unfold num. rewrite gt_Fin, le_Fin.
    destruct (Qc_ltb (Q2Qc 0) v && Qc_leb v (Q2Qc 1)); reflexivity.
Qed.

Lemma Rev1_normalize_key (v : Qc) :
  Rev1.normalize (Some (Fin v))
  = tenths (Z.max 0 (Z.min 100
      (JS.round_Qc ((if Qc_ltb 0 v && Qc_leb v 1 then v * Q2Qc 10 else v) * Q2Qc 10)))).
Proof. rewrite Rev1_normalize_Fin, roundTenth_Fin. apply clamp_tenths. Qed.

(** Where the two revisions agree. *)
Lemma revisions_agree_iff (x : Qc) :
  Rev1.normalize (Some (Fin x)) = Rev2.normalize (Some (Fin x))
  <-> ~ (x = 1%Qc \/ ((10 # 1) < x < (199 # 2))%Q).
Proof.
  rewrite Rev1_normalize_key, Rev2_normalize_key.
  destruct (Qc_eq_dec x 1%Qc) as [-> | Hne].
  { split.
    - intros H. apply tenths_inj in H. vm_compute in H. discriminate.
    - intros H. exfalso. apply H. left. reflexivity. }
  unfold rescale.
  destruct (Qc_ltb (Q2Qc 10) x) eqn:E10.
  - (* above 10: only the second revision divides by 10 *)
    apply Qc_ltb_lt in E10.
    replace (Qc_leb x 1) with false by (symmetry; Qc_cmp).
    replace (Qc_ltb x 1) with false by (symmetry; Qc_cmp).
    rewrite !andb_false_r.
    assert (100 <= JS.round_Qc (x * Q2Qc 10)) as H1
        by (apply round_Qc_ge_iff; to_Q; lra).
    replace (Z.max 0 (Z.min 100 (JS.round_Qc (x * Q2Qc 10)))) with 100 by lia.
    split.
    + intros H. apply tenths_inj in H.
      assert (100 <= JS.round_Qc (x / Q2Qc 10 * Q2Qc 10)) as H2 by lia.
      apply round_Qc_ge_iff in H2.
      intros [-> | [_ Hlt]]; [apply Hne; reflexivity | ].
      to_Q. lra.
    + intros H. f_equal.
      assert (100 <= JS.round_Qc (x / Q2Qc 10 * Q2Qc 10)); [ | lia].
      apply round_Qc_ge_iff.
      destruct (Qlt_le_dec x (199 # 2)) as [Hlt | Hge].
      * exfalso. apply H. right. to_Q. split; lra.
      * to_Q. lra.
  - (* at most 10 and different from 1: the same scaling *)
    apply Qc_ltb_ge in E10.
    assert (Qc_leb x 1 = Qc_ltb x 1) as ->.
    { destruct (Qc_ltb x 1) eqn:E1.
      - apply Qc_ltb_lt in E1. Qc_cmp.
      - apply Qc_ltb_ge in E1. apply Qc_leb_gt.
        destruct (Qcle_lt_or_eq _ _ E1) as [Hlt | Heq]; [exact Hlt | ].
        exfalso. apply Hne. symmetry. exact Heq. }
    split; [ | reflexivity].
    intros _ [-> | [Hgt _]]; [apply Hne; reflexivity | ].
    to_Q. lra.
Qed.

Lemma same_number_refl (a : number) : same_number a a = true.
Proof. destruct a; cbn; try reflexivity. apply Qc_eqb_eq. reflexivity. Qed.

Lemma same_number_neq (a b : number) : same_number a b = false -> a <> b.
Proof. intros H E. subst b. rewrite same_number_refl in H. discriminate. Qed.

(** Closes a disequation between closed numbers by evaluation. *)
Ltac differ_by_evaluation := apply same_number_neq; vm_compute; reflexivity.



(** C8, as stated, fails in both revisions: normalize(0.05) = 0.5, and
    normalize(0.5) = 5. *)
Lemma C8_counterexample :
  (0 <= Q2Qc 0.05)%Qc /\
  Rev2.normalize (Some (num 0.05)) = num 0.5 /\
  Rev2.normalize (Some (num 0.5)) = num 5 /\
  Rev2.normalize (Some (Rev2.normalize (Some (num 0.05))))
  <> Rev2.normalize (Some (num 0.05)) /\
  Rev1.normalize (Some (Rev1.normalize (Some (num 0.05))))
  <> Rev1.normalize (Some (num 0.05)).
Proof.
  split; [discriminate | ].
  split; [by_evaluation | ]. split; [by_evaluation | ].
  split; differ_by_evaluation.
Qed.

(** C8, amended. For a finite x, normalize(normalize(x)) = normalize(x)
    exactly when x is not in [0.005, 0.095), the inputs whose normalized
    value lies strictly between 0 and 1; for an absent, NaN or infinite
    input the equation holds. *)
Theorem C8_normalize_idempotent_iff :
  (forall x : Qc,
     Rev2.normalize (Some (Rev2.normalize (Some (Fin x))))
     = Rev2.normalize (Some (Fin x))
     <-> ~ ((1 # 200) <= x < (19 # 200))%Q) /\
  (forall val : option number,
     (forall x : Qc, val <> Some (Fin x)) ->
     Rev2.normalize (Some (Rev2.normalize val)) = Rev2.normalize val).
Proof.
  split.
  - intros x. rewrite <- Rev2_key_small_iff, Rev2_normalize_key.
    set (K := Z.max 0 (Z.min 100 (JS.round_Qc (rescale x * Q2Qc 10)))).
    rewrite Rev2_normalize_tenths by lia.
    split.
    + intros H. apply tenths_inj in H.
      destruct (Z.ltb_spec 0 K); destruct (Z.ltb_spec K 10); cbn [andb] in H; lia.
    + intros H. f_equal.
      destruct (Z.ltb_spec 0 K); destruct (Z.ltb_spec K 10); cbn [andb]; lia.
  - intros [[ | | | x] | ] H;
      [by_evaluation | by_evaluation | by_evaluation | | by_evaluation].
    exfalso. apply (H x). reflexivity.
Qed.

Lemma C8_normalize_idempotent_iff_witness :
  ~ ((1 # 200) <= Q2Qc 0.25 < (19 # 200))%Q /\
  Rev2.normalize (Some (Rev2.normalize (Some (Fin (Q2Qc 0.25)))))
  = Rev2.normalize (Some (Fin (Q2Qc 0.25))).
Proof.
  assert (~ ((1 # 200) <= Q2Qc 0.25 < (19 # 200))%Q) as H.
  { intros [_ H]. vm_compute in H. discriminate. }
  split; [exact H | ].
  apply (proj1 C8_normalize_idempotent_iff (Q2Qc 0.25)). exact H.
Defined.




(** ** The aggregate score *)

Lemma add_tenths (a b : Z) : (tenths a + tenths b)%js = tenths (a + b).
Proof.
  unfold tenths. cbn [JS.add]. f_equal. apply Qc_is_canon.
  rewrite inject_Z_plus. to_Q. lra.
Qed.

(** The mean of six values of [0,10] with one decimal, rounded to one
    decimal, is again in [0,10]: no clamping is needed. *)
Lemma meanScore_range (a b c d e f : Z) :
  0 <= a <= 100 -> 0 <= b <= 100 -> 0 <= c <= 100 ->
  0 <= d <= 100 -> 0 <= e <= 100 -> 0 <= f <= 100 ->
  exists k : Z,
    0 <= k <= 100 /\
    meanScore (tenths a) (tenths b) (tenths c) (tenths d) (tenths e) (tenths f)
    = tenths k.
Proof.
  intros Ha Hb Hc Hd He Hf. unfold meanScore, sum6.
  rewrite !add_tenths. set (s := a + b + c + d + e + f).
  assert (0 <= inject_Z s <= 600)%Q as Hs
      by (change 0%Q with (inject_Z 0); change 600%Q with (inject_Z 600);
          rewrite <- !Zle_Qle; lia).
  unfold tenths at 1.
  change (Fin (Q2Qc (inject_Z s) / Q2Qc 10) / num 6)%js
    with (Fin (Q2Qc (inject_Z s) / Q2Qc 10 / Q2Qc 6)).
  rewrite roundTenth_Fin. eexists. split; [ | reflexivity]. split.
  - apply round_Qc_ge. to_Q. lra.
  - apply round_Qc_le. to_Q. lra.
Qed.

Lemma Rev2_normalized_range (StringToNumber : string -> number) (raw : json)
    (key : string) :
  exists k : Z, 0 <= k <= 100 /\ Rev2Eval.normalized StringToNumber raw key = tenths k.
Proof. apply Rev2_normalize_range. Qed.

(** A score that is a number, as the response schema has it, is normalized
    as that number; an absent or null score is normalized as absent. *)
Lemma Rev2_normalized_number (StringToNumber : string -> number) (raw : json)
    (key : string) (x : number) :
  member raw key = Some (JNumber x) ->
  Rev2Eval.normalized StringToNumber raw key = Rev2.normalize (Some x).
Proof. intros H. unfold Rev2Eval.normalized. rewrite H. reflexivity. Qed.

Lemma Rev2_normalized_absent (StringToNumber : string -> number) (raw : json)
    (key : string) :
  member raw key = None \/ member raw key = Some JNull ->
  Rev2Eval.normalized StringToNumber raw key = num 0.
Proof. intros [H | H]; unfold Rev2Eval.normalized; rewrite H; reflexivity. Qed.

Lemma Rev1_normalized_number (StringToNumber : string -> number) (raw : json)
    (key : string) (x : number) :
  member raw key = Some (JNumber x) ->
  Rev1Eval.normalized StringToNumber raw key = Rev1.normalize (Some x).
Proof. intros H. unfold Rev1Eval.normalized. rewrite H. reflexivity. Qed.

Lemma Rev2_evaluate_nonnull (StringToNumber : string -> number) (raw : json)
    (level : CEFRLevel) (today : string) :
  raw <> JNull ->
  Rev2Eval.evaluate StringToNumber raw level today
  = inr (mkEvaluationResult raw
           (Rev2Eval.normalized StringToNumber raw "pronunciation")
           (Rev2Eval.normalized StringToNumber raw "fluency")
           (Rev2Eval.normalized StringToNumber raw "intonation")
           (Rev2Eval.normalized StringToNumber raw "vocabulary")
           (Rev2Eval.normalized StringToNumber raw "grammar")
           (Rev2Eval.normalized StringToNumber raw "taskFulfillment")
           (meanScore
              (Rev2Eval.normalized StringToNumber raw "pronunciation")
              (Rev2Eval.normalized StringToNumber raw "fluency")
              (Rev2Eval.normalized StringToNumber raw "intonation")
              (Rev2Eval.normalized StringToNumber raw "vocabulary")
              (Rev2Eval.normalized StringToNumber raw "grammar")
              (Rev2Eval.normalized StringToNumber raw "taskFulfillment"))
           level [] today).
Proof.
  intros H.
  destruct raw; [contradiction | ..];
    cbv beta iota zeta delta [Rev2Eval.evaluate meanScore roundTenth];
    reflexivity.
Qed.



(** The whole evaluation of the sample: the six scores and their mean. *)
Example evaluate_sample :
  exists r : EvaluationResult,
    Rev2Eval.evaluate Ref.StringToNumber sampleEvaluation A2 "03/11/2026" = inr r /\
    pronunciation r = num 9 /\ taskFulfillment r = num 10 /\ score r = num 8.5.
Proof.
  eexists. split; [reflexivity | ].
  cbn [pronunciation taskFulfillment score]. repeat split; by_evaluation.
Qed.

(** Scores of another JSON kind than number.  The second revision converts
    them with [Number]; the first uses them as they are, and returns NaN for
    a non-empty string that is not numeric. *)
Example StringToNumber_samples :
  Ref.StringToNumber " 8.5 " = num 8.5 /\
  Ref.StringToNumber "" = num 0 /\
  Ref.StringToNumber "+7" = num 7 /\
  Ref.StringToNumber ".5" = num 0.5 /\
  Ref.StringToNumber "5." = num 5 /\
  Ref.StringToNumber "1e3" = num 1000 /\
  Ref.StringToNumber "0x10" = num 16 /\
  Ref.StringToNumber "-Infinity" = NegInf /\
  Ref.StringToNumber "8/10" = NaN /\
  Ref.StringToNumber "1e" = NaN /\
  Ref.StringToNumber "-0x10" = NaN.
Proof. repeat split; by_evaluation. Qed.

Example normalized_other_kinds :
  let raw :=
    JObject (<["pronunciation" := JString "85"]>
            (<["fluency" := JString "good"]>
            (<["intonation" := JBool true]>
            (<["vocabulary" := JArray [JNumber (num 0.8)]]>
            (<["grammar" := JNull]> ∅))))) in
  Rev2Eval.normalized Ref.StringToNumber raw "pronunciation" = num 8.5 /\
  Rev2Eval.normalized Ref.StringToNumber raw "fluency" = num 0 /\
  Rev2Eval.normalized Ref.StringToNumber raw "intonation" = num 1 /\
  Rev2Eval.normalized Ref.StringToNumber raw "vocabulary" = num 8 /\
  Rev2Eval.normalized Ref.StringToNumber raw "grammar" = num 0 /\
  Rev2Eval.normalized Ref.StringToNumber raw "taskFulfillment" = num 0 /\
  Rev1Eval.normalized Ref.StringToNumber raw "pronunciation" = num 10 /\
  Rev1Eval.normalized Ref.StringToNumber raw "fluency" = NaN /\
  Rev1Eval.normalized Ref.StringToNumber raw "intonation" = num 10 /\
  Rev1Eval.normalized Ref.StringToNumber raw "vocabulary" = num 8 /\
  Rev1Eval.normalized Ref.StringToNumber raw "grammar" = num 0.
Proof. repeat split; by_evaluation. Qed.

(** In the first revision the mean goes through [normalize] again, which
    rescales it: six scores of 1 give the aggregate 10. *)
Example Rev1_aggregate_rescaled :
  Rev1.normalize (Some (sum6 (num 1) (num 1) (num 1) (num 1) (num 1) (num 1) / num 6)%js)
  = num 10 /\
  meanScore (num 1) (num 1) (num 1) (num 1) (num 1) (num 1) = num 1.
Proof. split; by_evaluation. Qed.

(** ** The candidate list *)

Lemma filter_others_notin (P : string) (pool : list string) :
  P ∉ pool -> List.filter (fun m => negb (String.eqb m P)) pool = pool.
Proof.
  induction pool as [ | m rest IH]; intros H; [reflexivity | ].
  apply not_elem_of_cons in H as [Hne Hrest]. cbn [List.filter].
  destruct (String.eqb_spec m P) as [-> | _]; [congruence | ].
  cbn [negb]. f_equal. apply IH, Hrest.
Qed.

Lemma filter_others_in (P : string) (pool : list string) :
  NoDup pool -> P ∈ pool ->
  P :: List.filter (fun m => negb (String.eqb m P)) pool ≡ₚ pool.
Proof.
  induction pool as [ | m rest IH]; intros Hnd Hin.
  - inversion Hin.
  - apply NoDup_cons in Hnd as [Hm Hnd]. cbn [List.filter].
    destruct (String.eqb_spec m P) as [-> | Hne]; cbn [negb].
    + rewrite filter_others_notin; [reflexivity | exact Hm].
    + apply elem_of_cons in Hin as [-> | Hin]; [congruence | ].
      rewrite Permutation_swap. constructor. apply IH; assumption.
Qed.

Lemma FALLBACK_MODELS_NoDup : NoDup FALLBACK_MODELS.
Proof. apply (bool_decide_unpack _). vm_compute. exact I. Qed.

(** C5. When the preferred model P is in the pool, the candidate list starts
    with P, contains each pool member exactly once and has no duplicates (it
    is a permutation of the pool); when P is not in the pool, the list is P
    followed by the pool in pool order. *)
Theorem C5_candidate_list (ls : localStorage) (P : string) :
  getSelectedModel ls = P ->
  (P ∈ FALLBACK_MODELS ->
     head (getFallbackModels ls) = Some P /\
     (forall m, m ∈ FALLBACK_MODELS ->
        count_occ string_dec (getFallbackModels ls) m = 1%nat) /\
     NoDup (getFallbackModels ls) /\
     getFallbackModels ls ≡ₚ FALLBACK_MODELS) /\
  (P ∉ FALLBACK_MODELS -> getFallbackModels ls = P :: FALLBACK_MODELS).
Proof.
  intros HP. unfold getFallbackModels. rewrite HP. split.
  - intros Hin.
    pose proof (filter_others_in P FALLBACK_MODELS FALLBACK_MODELS_NoDup Hin) as Hperm.
    assert (NoDup (P :: List.filter (fun m => negb (String.eqb m P)) FALLBACK_MODELS))
      as Hnd by (rewrite Hperm; apply FALLBACK_MODELS_NoDup).
    split; [reflexivity | ]. split; [ | split; [exact Hnd | exact Hperm]].
    intros m Hm. apply NoDup_count_occ'; [apply NoDup_ListNoDup, Hnd | ].
    apply list_elem_of_In. rewrite Hperm. exact Hm.
  - intros Hout. f_equal. apply filter_others_notin, Hout.
Qed.

Lemma C5_candidate_list_witness :
  getFallbackModels (<["selected_model" := "gemini-2.5-flash"]> ∅)
  = ["gemini-2.5-flash"; "gemini-3-flash-preview"; "gemini-3-pro-preview"] /\
  NoDup (getFallbackModels (<["selected_model" := "gemini-2.5-flash"]> ∅)) /\
  getFallbackModels (<["selected_model" := "gemini-1.5-pro"]> ∅)
  = "gemini-1.5-pro" :: FALLBACK_MODELS.
Proof.
  split; [reflexivity | ].
  assert (getSelectedModel (<["selected_model" := "gemini-2.5-flash"]> ∅)
          = "gemini-2.5-flash") as H1 by (vm_compute; reflexivity).
  assert (getSelectedModel (<["selected_model" := "gemini-1.5-pro"]> ∅)
          = "gemini-1.5-pro") as H2 by (vm_compute; reflexivity).
  split.
  - apply (C5_candidate_list _ _ H1).
    apply (bool_decide_unpack _). vm_compute. exact I.
  - apply (C5_candidate_list _ _ H2).
    apply (bool_decide_unpack _). vm_compute. exact I.
Defined.

(** ** Traces and backoff delays *)

Lemma attemptsOf_app (M : string) (a b : list event) :
  attemptsOf M (a ++ b) = (attemptsOf M a + attemptsOf M b)%nat.
Proof. unfold attemptsOf. rewrite List.filter_app, length_app. reflexivity. Qed.

Lemma attemptsOf_retryTrace (M : string) (n : nat) (d : number) :
  attemptsOf M (retryTrace M n d) = Datatypes.S n.
Proof.
  revert d. induction n as [ | n IH]; intros d.
  - unfold attemptsOf. cbn. rewrite String.eqb_refl. reflexivity.
  - change (retryTrace M (Datatypes.S n) d)
      with ([Attempt M; Sleep d] ++ retryTrace M n (d * num 2.5)%js).
    rewrite attemptsOf_app, IH. unfold attemptsOf. cbn.
    rewrite String.eqb_refl. reflexivity.
Qed.

Lemma attemptsOf_retryTrace_other (M m : string) (n : nat) (d : number) :
  m <> M -> attemptsOf m (retryTrace M n d) = 0%nat.
Proof.
  intros Hne. revert d. induction n as [ | n IH]; intros d.
  - unfold attemptsOf. cbn. destruct (String.eqb_spec M m); [congruence | reflexivity].
  - change (retryTrace M (Datatypes.S n) d)
      with ([Attempt M; Sleep d] ++ retryTrace M n (d * num 2.5)%js).
    rewrite attemptsOf_app, IH. unfold attemptsOf. cbn.
    destruct (String.eqb_spec M m); [congruence | reflexivity].
Qed.

Lemma backoffDelay_0 : backoffDelay 0 = num 1500.
Proof. by_evaluation. Qed.

Lemma backoffDelay_S (k : nat) :
  (backoffDelay k * num 2.5)%js = backoffDelay (Datatypes.S k).
Proof.
  unfold backoffDelay, num. rewrite mul_Fin. f_equal.
  change (Qcpower (Q2Qc 2.5) (Datatypes.S k))
    with (Q2Qc 2.5 * Qcpower (Q2Qc 2.5) k)%Qc.
  ring.
Qed.

Lemma sleepsOf_retryTrace (M : string) (n k : nat) :
  sleepsOf (retryTrace M n (backoffDelay k)) = List.map backoffDelay (seq k n).
Proof.
  revert k. induction n as [ | n IH]; intros k; [reflexivity | ].
  cbn [retryTrace sleepsOf flat_map app seq List.map]. f_equal.
  rewrite backoffDelay_S. apply IH.
Qed.

Lemma Qcpower_2_5_pos (k : nat) : (0 < Qcpower (Q2Qc 2.5) k)%Qc.
Proof.
  induction k as [ | k IH]; [reflexivity | ].
  change (Qcpower (Q2Qc 2.5) (Datatypes.S k))
    with (Q2Qc 2.5 * Qcpower (Q2Qc 2.5) k)%Qc.
  set (p := Qcpower (Q2Qc 2.5) k) in *. to_Q. nra.
Qed.

(** Each delay is strictly longer than the one before. *)
Lemma backoffDelay_increasing (k : nat) :
  JS.lt (backoffDelay k) (backoffDelay (Datatypes.S k)) = true.
Proof.
  unfold backoffDelay. rewrite lt_Fin. apply Qc_ltb_lt.
  change (Qcpower (Q2Qc 2.5) (Datatypes.S k))
    with (Q2Qc 2.5 * Qcpower (Q2Qc 2.5) k)%Qc.
  pose proof (Qcpower_2_5_pos k) as Hpos.
  set (p := Qcpower (Q2Qc 2.5) k) in *.
  to_Q. nra.
Qed.

(** ** The retry/fallback orchestrator *)

Section OrchestratorFacts.

Variable toLowerCase : string -> string.
Context {S T : Type}.
Variable fn : string -> S -> outcome T * S.
Variable maxRetriesPerModel : nat.
Variable timeoutMs : number.

#[local] Abbreviation attemptLoop_ := (attemptLoop toLowerCase fn maxRetriesPerModel timeoutMs).
#[local] Abbreviation modelLoop_ := (modelLoop toLowerCase fn maxRetriesPerModel timeoutMs).
#[local] Abbreviation callWithRetry_ := (callWithRetry toLowerCase fn maxRetriesPerModel timeoutMs).
#[local] Abbreviation classify_ := (classify toLowerCase).
#[local] Abbreviation isTimeoutError_ := (isTimeoutError toLowerCase).
#[local] Abbreviation isQuotaError_ := (isQuotaError toLowerCase).

Lemma classify_quota (e : JsError) :
  classify_ e = QuotaExceeded <-> isTimeoutError_ e = false /\ isQuotaError_ e = true.
Proof.
  unfold classify.
  destruct (isTimeoutError_ e), (isQuotaError_ e); split;
    try discriminate; try tauto; intros [? ?]; discriminate.
Qed.

(** A resolved attempt returns at once. *)
Lemma attemptLoop_resolved (M : string) (n a : nat) (d : number)
    (r : Run) (v : T) (w' : S) :
  fn M (world r) = (Resolved v, w') ->
  attemptLoop_ M (Datatypes.S n) a d r
  = (Some v, mkRun w' (trace r ++ [Attempt M]) (lastError r)).
Proof. intros H. cbn [attemptLoop]. rewrite H. reflexivity. Qed.

(** A failed attempt that is a timeout, or not a quota error, or the last
    one allowed, leaves the inner loop. *)
Lemma attemptLoop_gives_up (M : string) (remaining a : nat) (d : number)
    (r : Run) (p : outcome T) (w' : S) (e : JsError) :
  (1 <= remaining)%nat ->
  fn M (world r) = (p, w') ->
  withTimeout p timeoutMs ("Model " ++ M) = inl e ->
  isTimeoutError_ e = true \/ isQuotaError_ e = false
    \/ (maxRetriesPerModel <= Datatypes.S a)%nat ->
  attemptLoop_ M remaining a d r
  = (None, mkRun w' (trace r ++ [Attempt M]) (Some e)).
Proof.
  intros Hrem Hfn Hto Hwhy. destruct remaining as [ | n]; [lia | ].
  cbn [attemptLoop]. rewrite Hfn, Hto.
  destruct (isTimeoutError_ e); [reflexivity | ].
  destruct Hwhy as [Hwhy | [Hwhy | Hwhy]]; [discriminate | | ].
  - rewrite Hwhy. reflexivity.
  - replace (a <? maxRetriesPerModel - 1)%nat with false
      by (symmetry; apply Nat.ltb_ge; lia).
    rewrite andb_false_r. reflexivity.
Qed.

(** A quota failure with attempts left waits, multiplies the delay by 2.5
    and tries the same model again. *)
Lemma attemptLoop_retries (M : string) (n a : nat) (d : number)
    (r : Run) (w' : S) (e : JsError) :
  fn M (world r) = (Rejected e, w') ->
  classify_ e = QuotaExceeded ->
  (Datatypes.S a < maxRetriesPerModel)%nat ->
  attemptLoop_ M (Datatypes.S n) a d r
  = attemptLoop_ M n (Datatypes.S a) (d * num 2.5)%js
      (mkRun w' ((trace r ++ [Attempt M]) ++ [Sleep d]) (Some e)).
Proof.
  intros Hfn Hq Ha. apply classify_quota in Hq as [Ht Hq].
  cbn [attemptLoop]. rewrite Hfn. cbn [withTimeout]. rewrite Ht, Hq.
  replace (a <? maxRetriesPerModel - 1)%nat with true
    by (symmetry; apply Nat.ltb_lt; lia).
  reflexivity.
Qed.

Lemma attemptLoop_quotaThenSuccess (M : string) (n : nat) :
  forall (remaining a : nat) (d : number) (r : Run)
         (last : option JsError) (v : T) (w' : S),
    quotaThenSuccess toLowerCase fn M n (world r) last v w' ->
    (n < remaining)%nat ->
    (a + n < maxRetriesPerModel)%nat ->
    attemptLoop_ M remaining a d r
    = (Some v,
       mkRun w' (trace r ++ retryTrace M n d)
         (match last with Some l => Some l | None => lastError r end)).
Proof.
  induction n as [ | n IH]; intros remaining a d r last v w' H Hrem Ha;
    (destruct remaining as [ | remaining]; [lia | ]); inversion H; subst.
  - now apply attemptLoop_resolved.
  - rewrite (attemptLoop_retries M remaining a d r w1 e) by (assumption || lia).
    rewrite (IH remaining (Datatypes.S a) _ _ last0 v w') by (assumption || lia).
    cbn [world trace lastError retryTrace]. f_equal. f_equal.
    + rewrite <- !app_assoc. reflexivity.
    + destruct last0; reflexivity.
Qed.

Lemma modelLoop_app (pre post : list string) (r : Run) :
  modelLoop_ (pre ++ post) r
  = match modelLoop_ pre r with
    | (Some v, r') => (Some v, r')
    | (None, r') => modelLoop_ post r'
    end.
Proof.
  revert r. induction pre as [ | m pre IH]; intros r; [reflexivity | ].
  cbn [app modelLoop].
  destruct (attemptLoop_ m maxRetriesPerModel 0 (num 1500) r) as [[v | ] r'];
    [reflexivity | apply IH].
Qed.

(** The inner loop only adds events, and attempts only for its model. *)
Lemma attemptLoop_trace (M : string) (n : nat) :
  forall (a : nat) (d : number) (r : Run) (res : option T) (r' : Run),
    attemptLoop_ M n a d r = (res, r') ->
    exists suffix : list event,
      trace r' = trace r ++ suffix /\
      forall m : string, m <> M -> attemptsOf m suffix = 0%nat.
Proof.
  induction n as [ | n IH]; intros a d r res r' H; cbn [attemptLoop] in H.
  - injection H as <- <-. exists []. split; [now rewrite app_nil_r | reflexivity].
  - assert (forall m : string, m <> M -> attemptsOf m [Attempt M] = 0%nat) as Hone.
    { intros m Hm. unfold attemptsOf. cbn.
      destruct (String.eqb_spec M m); [congruence | reflexivity]. }
    destruct (fn M (world r)) as [p w].
    destruct (withTimeout p timeoutMs ("Model " ++ M)) as [e | v].
    + destruct (isTimeoutError_ e).
      { injection H as <- <-. exists [Attempt M]. split; [reflexivity | exact Hone]. }
      destruct (isQuotaError_ e && (a <? maxRetriesPerModel - 1)%nat).
      * apply IH in H as [suffix [Htr Hother]]. cbn [trace] in Htr.
        exists ([Attempt M] ++ [Sleep d] ++ suffix). split.
        -- rewrite Htr, <- !app_assoc. reflexivity.
        -- intros m Hm. rewrite !attemptsOf_app, Hone, Hother by exact Hm.
           reflexivity.
      * injection H as <- <-. exists [Attempt M]. split; [reflexivity | exact Hone].
    + injection H as <- <-. exists [Attempt M]. split; [reflexivity | exact Hone].
Qed.

Lemma modelLoop_trace (models : list string) :
  forall (r : Run) (res : option T) (r' : Run),
    modelLoop_ models r = (res, r') ->
    exists suffix : list event,
      trace r' = trace r ++ suffix /\
      forall m : string, m ∉ models -> attemptsOf m suffix = 0%nat.
Proof.
  induction models as [ | M rest IH]; intros r res r' H; cbn [modelLoop] in H.
  - injection H as <- <-. exists []. split; [now rewrite app_nil_r | reflexivity].
  - destruct (attemptLoop_ M maxRetriesPerModel 0 (num 1500) r) as [[v | ] r1] eqn:E;
      apply attemptLoop_trace in E as [s1 [Htr1 Hother1]].
    + injection H as <- <-. exists s1. split; [exact Htr1 | ].
      intros m Hm. apply Hother1. intros ->. apply Hm. left.
    + apply IH in H as [s2 [Htr2 Hother2]]. exists (s1 ++ s2). split.
      * rewrite Htr2, Htr1, app_assoc. reflexivity.
      * intros m Hm. apply not_elem_of_cons in Hm as [Hne Hrest].
        rewrite attemptsOf_app, Hother1, Hother2 by assumption. reflexivity.
Qed.

(** When every attempt fails in a way that is not retried, each model is
    tried exactly once, in order, and the loop ends without a value; the
    last error is the one met on the last model.  [W] is an invariant of
    the world and [Q m e] a property of the error [e] met on model [m]. *)
Lemma modelLoop_single_attempts (W : S -> Prop) (Q : string -> JsError -> Prop)
    (models : list string) :
  (1 <= maxRetriesPerModel)%nat ->
  (forall (m : string) (w : S), m ∈ models -> W w ->
     exists (p : outcome T) (w' : S) (e : JsError),
       fn m w = (p, w') /\
       withTimeout p timeoutMs ("Model " ++ m) = inl e /\
       (isTimeoutError_ e = true \/ isQuotaError_ e = false
          \/ (maxRetriesPerModel <= 1)%nat) /\
       W w' /\ Q m e) ->
  forall r : Run,
    W (world r) ->
    exists r' : Run,
      modelLoop_ models r = (None, r') /\
      trace r' = trace r ++ List.map Attempt models /\
      W (world r') /\
      (models = [] /\ lastError r' = lastError r
       \/ exists (m : string) (e : JsError),
            last models = Some m /\ lastError r' = Some e /\ Q m e).
Proof.
  intros Hmax. induction models as [ | M rest IH]; intros Hall r HW.
  - exists r. cbn. rewrite app_nil_r. repeat split; [exact HW | now left].
  - destruct (Hall M (world r)) as (p & w' & e & Hfn & Hto & Hwhy & HW' & HQ);
      [left | exact HW | ].
    pose proof (attemptLoop_gives_up M maxRetriesPerModel 0 (num 1500) r p w' e
                  Hmax Hfn Hto Hwhy) as Hloop.
    destruct (IH (fun m w Hm => Hall m w (list_elem_of_further _ _ _ Hm))
                (mkRun w' (trace r ++ [Attempt M]) (Some e)) HW')
      as (r' & Hrest & Htr & HWr & Hlast).
    exists r'. cbn [modelLoop]. rewrite Hloop. split; [exact Hrest | ].
    split; [rewrite Htr; cbn [trace List.map]; rewrite <- app_assoc; reflexivity | ].
    split; [exact HWr | ]. right.
    destruct Hlast as [[-> Hl] | (m & e' & Hm & Hl & HQ')].
    + exists M, e. split; [reflexivity | split; [exact Hl | exact HQ]].
    + exists m, e'. split; [ | split; [exact Hl | exact HQ']].
      destruct rest; [discriminate | exact Hm].
Qed.

End OrchestratorFacts.

(** ** Strings *)

Lemma prefix_app (p s : string) : String.prefix p (p ++ s) = true.
Proof.
  induction p as [ | c p IH]; simpl.
  - destruct s; reflexivity.
  - destruct (Ascii.ascii_dec c c); [exact IH | congruence].
Qed.

Lemma includes_prefix (p s : string) : String.prefix p s = true -> includes p s = true.
Proof. intros H. destruct s; cbn [includes]; rewrite H; reflexivity. Qed.

Lemma includes_app (p a b : string) : includes p (a ++ p ++ b) = true.
Proof.
  induction a as [ | c a IH].
  - change ("" ++ p ++ b)%string with (p ++ b)%string.
    apply includes_prefix, prefix_app.
  - change (String c a ++ p ++ b)%string with (String c (a ++ p ++ b)).
    cbn [includes]. rewrite IH. apply orb_true_r.
Qed.

Lemma append_assoc (a b c : string) : ((a ++ b) ++ c = a ++ (b ++ c))%string.
Proof.
  induction a as [ | x a IH]; [reflexivity | ].
  change (String x ((a ++ b) ++ c) = String x (a ++ (b ++ c)))%string.
  f_equal. exact IH.
Qed.

(** ** Candidates *)

Lemma getFallbackModels_NoDup (ls : localStorage) : NoDup (getFallbackModels ls).
Proof.
  unfold getFallbackModels. set (P := getSelectedModel ls).
  apply NoDup_cons. split.
  - intros H. apply list_elem_of_In, List.filter_In in H as [_ H].
    rewrite String.eqb_refl in H. discriminate.
  - apply NoDup_ListNoDup, List.NoDup_filter, NoDup_ListNoDup, FALLBACK_MODELS_NoDup.
Qed.

Lemma attemptsOf_candidates (models : list string) (m : string) :
  NoDup models -> m ∈ models -> attemptsOf m (List.map Attempt models) = 1%nat.
Proof.
  assert (forall l : list string, m ∉ l -> attemptsOf m (List.map Attempt l) = 0%nat)
    as Hzero.
  { induction l as [ | x l IH]; intros H; [reflexivity | ].
    apply not_elem_of_cons in H as [Hne Hl].
    change (List.map Attempt (x :: l)) with ([Attempt x] ++ List.map Attempt l).
    rewrite attemptsOf_app, IH by exact Hl. unfold attemptsOf. cbn.
    destruct (String.eqb_spec x m); [congruence | reflexivity]. }
  induction models as [ | x l IH]; intros Hnd Hin; [inversion Hin | ].
  apply NoDup_cons in Hnd as [Hx Hnd].
  change (List.map Attempt (x :: l)) with ([Attempt x] ++ List.map Attempt l).
  rewrite attemptsOf_app.
  apply elem_of_cons in Hin as [-> | Hin].
  - rewrite Hzero by exact Hx. unfold attemptsOf. cbn.
    rewrite String.eqb_refl. reflexivity.
  - rewrite IH by assumption. unfold attemptsOf. cbn.
    destruct (String.eqb_spec x m) as [-> | _]; [contradiction | reflexivity].
Qed.

(** ** The reference lower-casing *)

Lemma Ref_toLowerCase_app (a b : string) :
  Ref.toLowerCase (a ++ b) = (Ref.toLowerCase a ++ Ref.toLowerCase b)%string.
Proof.
  induction a as [ | c a IH]; [reflexivity | ].
  change (String (Ref.lower_ascii c) (Ref.toLowerCase (a ++ b))
          = String (Ref.lower_ascii c) (Ref.toLowerCase a ++ Ref.toLowerCase b))%string.
  f_equal. exact IH.
Qed.

Lemma Ref_toLowerCase_marker (before after : string) :
  includes TIMEOUT_MARKER
    (Ref.toLowerCase (before ++ TIMEOUT_MARKER ++ after)) = true.
Proof.
  rewrite !Ref_toLowerCase_app.
  change (Ref.toLowerCase TIMEOUT_MARKER) with TIMEOUT_MARKER.
  apply includes_app.
Qed.

(** ** Timeouts *)

Section Timeouts.

Variable toLowerCase : string -> string.

(** Lower-casing keeps an occurrence of the (lower-case) timeout marker. *)
Hypothesis lower_keeps_marker :
  forall before after : string,
    includes TIMEOUT_MARKER
      (toLowerCase (before ++ TIMEOUT_MARKER ++ after)) = true.

(** The error [withTimeout] raises for a promise that has not settled is
    classified as a timeout, whatever the label and the deadline. *)
Lemma unsettled_is_timeout (T : Type) (label : string) (ms : number) :
  exists e : JsError,
    withTimeout (T := T) Unsettled ms label = inl e /\
    message e = Some (timeoutMessage label ms) /\
    isTimeoutError toLowerCase e = true.
Proof.
  eexists. split; [reflexivity | ]. split; [reflexivity | ].
  unfold isTimeoutError, errorStr, Error. cbn [message stringified].
  change (str_or (str_or (Some (timeoutMessage label ms)) (Some "{}")) (Some ""))
    with (Some (timeoutMessage label ms)).
  cbn [interpolate]. unfold timeoutMessage.
  rewrite <- (append_assoc label " "), <- (append_assoc "⏱️ " (label ++ " ")).
  apply lower_keeps_marker.
Qed.

End Timeouts.

(** ** Retry on quota errors *)




(** ** Timeouts are not retried *)




(** ** The content request builders *)

Section BuilderFacts.

Variable toLowerCase : string -> string.
Context {S : Type}.
Variable generateContent : string -> Request -> S -> outcome Response * S.
Variable ls : localStorage.

Lemma getApiKey_missing :
  ls !! "gemini_api_key" = None \/ ls !! "gemini_api_key" = Some "" ->
  getApiKey ls = inl (Error MISSING_KEY_MESSAGE).
Proof. intros [H | H]; unfold getApiKey; rewrite H; reflexivity. Qed.

(** Without a key every attempt is rejected by [getApiKey] before the
    service is called; with the default limit of one attempt the
    orchestrator moves to the next model each time. *)
Lemma apiCall_missing_credential {A : Type} (request : string -> Request)
    (post : Response -> result A) (w : S) :
  ls !! "gemini_api_key" = None \/ ls !! "gemini_api_key" = Some "" ->
  failsAfterFallback ls w (apiCall toLowerCase generateContent ls request post w).
Proof.
  intros Hkey. apply getApiKey_missing in Hkey.
  destruct (modelLoop_single_attempts toLowerCase
              (apiAttempt generateContent ls request post) 1 (num 60000)
              (fun w' => w' = w) (fun _ e => e = Error MISSING_KEY_MESSAGE)
              (getFallbackModels ls) (le_n 1)) with (r := mkRun w [] None)
    as (r & Hloop & Htr & Hw & Hlast).
  - intros m w' _ ->. exists (Rejected (Error MISSING_KEY_MESSAGE)), w,
      (Error MISSING_KEY_MESSAGE).
    unfold apiAttempt. rewrite Hkey. repeat split. right. right. lia.
  - reflexivity.
  - destruct Hlast as [[Hnil _] | (m & e & _ & Hl & ->)]; [discriminate | ].
    unfold failsAfterFallback, apiCall, callWithRetry. rewrite Hloop, Hl.
    f_equal. destruct r as [w1 tr l1]. cbn in Htr, Hw, Hl. subst. reflexivity.
Qed.

(** With a key, an attempt on the preferred model that the service resolves
    and whose post-processing succeeds is returned at once. *)
Lemma apiCall_first_success {A : Type} (request : string -> Request)
    (post : Response -> result A) (w w' : S) (key : string)
    (response : Response) (v : A) :
  getApiKey ls = inr key ->
  generateContent key (request (getSelectedModel ls)) w = (Resolved response, w') ->
  post response = inr v ->
  apiCall toLowerCase generateContent ls request post w
  = (inr v, mkRun w' [Attempt (getSelectedModel ls)] None).
Proof.
  intros Hkey Hcall Hpost. unfold apiCall, callWithRetry, getFallbackModels.
  cbn [modelLoop].
  rewrite (attemptLoop_resolved toLowerCase _ 1 (num 60000) (getSelectedModel ls)
             0 0 (num 1500) (mkRun w [] None) v w').
  - reflexivity.
  - cbn [world]. unfold apiAttempt. rewrite Hkey, Hcall, Hpost. reflexivity.
Qed.

End BuilderFacts.

(** ** Missing credential *)

(** C6, as stated, fails: with no API key the operation does not surface
    the missing-key error at once.  [getApiKey] is called inside each
    attempt, so the orchestrator tries the three candidate models in turn
    and throws the aggregate error, which is not the missing-key error. *)
Lemma C6_counterexample :
  getApiKey ∅ = inl (Error MISSING_KEY_MESSAGE) /\
  fst (generatePresentationScript Ref.toLowerCase Ref.JSON_parse silentService ∅
         "A red panda" "panda, tree" Starters "An" "Animals" 0%nat)
  = inl (Error (aggregateMessage (Some (Error MISSING_KEY_MESSAGE)))) /\
  fst (generatePresentationScript Ref.toLowerCase Ref.JSON_parse silentService ∅
         "A red panda" "panda, tree" Starters "An" "Animals" 0%nat)
  <> inl (Error MISSING_KEY_MESSAGE) /\
  trace (snd (generatePresentationScript Ref.toLowerCase Ref.JSON_parse silentService ∅
                "A red panda" "panda, tree" Starters "An" "Animals" 0%nat))
  = [Attempt "gemini-3-flash-preview"; Attempt "gemini-3-pro-preview";
     Attempt "gemini-2.5-flash"].
Proof.
  split; [reflexivity | ]. split; [vm_compute; reflexivity | ].
  split; [vm_compute; discriminate | vm_compute; reflexivity].
Qed.

(** C6, amended. When no API credential is configured, [getApiKey] fails
    with the distinct missing-key error, and every caller-facing operation
    raises that error inside each attempt: the callback is attempted once
    per candidate model, without any wait and without reaching the service,
    and the operation fails with the terminal aggregate error, whose message
    embeds the missing-key message.  Only the aggregate error crosses the
    boundary of the operations. *)
Theorem C6_missing_credential (toLowerCase : string -> string)
    (JSON_parse : string -> result json) (StringToNumber : string -> number)
    (trim : string -> string)
    (atob : string -> result (list Byte.byte)) (today : string)
    (newAudioContext : number -> AudioContext) {S : Type}
    (generateContent : string -> Request -> S -> outcome Response * S)
    (ls : localStorage) (w : S) :
  ls !! "gemini_api_key" = None \/ ls !! "gemini_api_key" = Some "" ->
  getApiKey ls = inl (Error MISSING_KEY_MESSAGE) /\
  (forall theme,
     failsAfterFallback ls w
       (generateImagePrompt toLowerCase trim generateContent ls theme w)) /\
  (forall imagePrompt userText level childName themeLabel,
     failsAfterFallback ls w
       (generatePresentationScript toLowerCase JSON_parse generateContent ls
          imagePrompt userText level childName themeLabel w)) /\
  (forall imageBase64 imageMimeType level childName,
     failsAfterFallback ls w
       (generateScriptFromImage toLowerCase JSON_parse generateContent ls
          imageBase64 imageMimeType level childName w)) /\
  (forall text,
     failsAfterFallback ls w
       (generateTeacherVoice toLowerCase atob newAudioContext generateContent ls
          text w)) /\
  (forall originalScript audioBase64 audioMimeType level,
     failsAfterFallback ls w
       (Rev1Api.evaluatePresentation toLowerCase JSON_parse StringToNumber today
          generateContent ls originalScript audioBase64 audioMimeType level w)) /\
  (forall originalScript audioBase64 audioMimeType level,
     failsAfterFallback ls w
       (Rev2Api.evaluatePresentation toLowerCase JSON_parse StringToNumber today
          generateContent ls originalScript audioBase64 audioMimeType level w)) /\
  (forall (A : Type) (request : string -> Request) (post : Response -> result A),
     failsAfterFallback ls w
       (apiCall toLowerCase generateContent ls request post w)) /\
  sleepsOf (List.map Attempt (getFallbackModels ls)) = [] /\
  includes MISSING_KEY_MESSAGE
    (aggregateMessage (Some (Error MISSING_KEY_MESSAGE))) = true /\
  Error (aggregateMessage (Some (Error MISSING_KEY_MESSAGE)))
  <> Error MISSING_KEY_MESSAGE.
Proof.
  intros Hkey. split; [now apply getApiKey_missing | ].
  repeat (split; [intros; now apply apiCall_missing_credential | ]).
  split; [induction (getFallbackModels ls); [reflexivity | assumption] | ].
  split; [apply includes_app | ].
  intros H. vm_compute in H. discriminate.
Qed.

Lemma C6_missing_credential_witness :
  failsAfterFallback ∅ 0%nat
    (generatePresentationScript Ref.toLowerCase Ref.JSON_parse silentService ∅
       "A red panda" "panda, tree" Starters "An" "Animals" 0%nat).
Proof.
  assert ((∅ : localStorage) !! "gemini_api_key" = None
          \/ (∅ : localStorage) !! "gemini_api_key" = Some "") as H
      by (left; reflexivity).
  apply (C6_missing_credential Ref.toLowerCase Ref.JSON_parse Ref.StringToNumber
           Ref.trim Ref.atob
           "03/11/2026" (fun _ => Ref.audioContext) silentService ∅ 0%nat H).
Defined.

(** ** Malformed and empty responses *)

(** C7, as stated, fails for a body that is not JSON: [JSON.parse] throws,
    the attempt is rejected, and (the service answering the same way on
    every model) the operation fails with the aggregate error. *)
Lemma C7_counterexample :
  Ref.JSON_parse "Sorry, I cannot help with that."
  = inl (mkError (Some "Unexpected token in JSON") None (Some "{}")) /\
  parseScript Ref.JSON_parse (mkResponse (Some "Sorry, I cannot help with that.") None)
  <> inr DEFAULT_SCRIPT /\
  fst (generatePresentationScript Ref.toLowerCase Ref.JSON_parse chattyService
         keyedStorage "A red panda" "panda, tree" Starters "An" "Animals" 0%nat)
  = inl (Error (aggregateMessage
                  (Some (mkError (Some "Unexpected token in JSON") None (Some "{}"))))) /\
  trace (snd (generatePresentationScript Ref.toLowerCase Ref.JSON_parse chattyService
                keyedStorage "A red panda" "panda, tree" Starters "An" "Animals" 0%nat))
  = [Attempt "gemini-3-flash-preview"; Attempt "gemini-3-pro-preview";
     Attempt "gemini-2.5-flash"] /\
  (exists e : JsError,
     parseEvaluation Ref.JSON_parse "03/11/2026"
       (Rev2Eval.evaluate Ref.StringToNumber) Starters
       (mkResponse (Some "Sorry, I cannot help with that.") None) = inl e).
Proof.
  split; [vm_compute; reflexivity | ].
  split; [vm_compute; discriminate | ].
  split; [vm_compute; reflexivity | ].
  split; [vm_compute; reflexivity | ].
  eexists. vm_compute. reflexivity.
Qed.

Section EmptyBody.

Variable toLowerCase : string -> string.
Variable JSON_parse : string -> result json.
Variable StringToNumber : string -> number.
Variable today : string.

Hypothesis parse_default : JSON_parse DEFAULT_SCRIPT_JSON = inr DEFAULT_SCRIPT.
Hypothesis parse_empty_object : JSON_parse "{}" = inr (JObject ∅).

Lemma parseScript_empty (response : Response) :
  emptyBody response -> parseScript JSON_parse response = inr DEFAULT_SCRIPT.
Proof.
  intros [H | H]; unfold parseScript; rewrite H; exact parse_default.
Qed.

Lemma parseEvaluation_empty (level : CEFRLevel) (response : Response) :
  emptyBody response ->
  exists r : EvaluationResult,
    parseEvaluation JSON_parse today (Rev2Eval.evaluate StringToNumber) level response
    = inr r /\
    allZero r /\ raw r = JObject ∅ /\ perceivedLevel r = level.
Proof.
  intros H.
  assert (parseEvaluation JSON_parse today (Rev2Eval.evaluate StringToNumber)
            level response
          = Rev2Eval.evaluate StringToNumber (JObject ∅) level today) as ->.
  { destruct H as [H | H]; unfold parseEvaluation; rewrite H;
      cbn [str_or str_truthy interpolate String.eqb negb];
      rewrite parse_empty_object; reflexivity. }
  eexists. split; [reflexivity | ].
  unfold allZero. cbn [pronunciation fluency intonation vocabulary grammar
    taskFulfillment score raw perceivedLevel].
  repeat split; by_evaluation.
Qed.

Lemma Rev1_parseEvaluation_empty (level : CEFRLevel) (response : Response) :
  emptyBody response ->
  exists r : EvaluationResult,
    parseEvaluation JSON_parse today (Rev1Eval.evaluate StringToNumber) level response
    = inr r /\
    allZero r /\ raw r = JObject ∅ /\ perceivedLevel r = level.
Proof.
  intros H.
  assert (parseEvaluation JSON_parse today (Rev1Eval.evaluate StringToNumber)
            level response
          = Rev1Eval.evaluate StringToNumber (JObject ∅) level today) as ->.
  { destruct H as [H | H]; unfold parseEvaluation; rewrite H;
      cbn [str_or str_truthy interpolate String.eqb negb];
      rewrite parse_empty_object; reflexivity. }
  eexists. split; [reflexivity | ].
  unfold allZero. cbn [pronunciation fluency intonation vocabulary grammar
    taskFulfillment score raw perceivedLevel].
  repeat split; by_evaluation.
Qed.

End EmptyBody.

(** C7, amended. When the network call of a script-generation attempt
    succeeds with an empty or absent response body, the builder does not
    raise: it parses the default text and returns the object
    {intro:"", points:[], conclusion:"", lessonVocab:[]}; the evaluator
    likewise parses "{}" and normalizes it, returning a result whose six
    scores (and aggregate) are 0.  (A non-empty body that is not JSON is not
    covered: there [JSON.parse] throws.) *)
Theorem C7_empty_body_defaults (toLowerCase : string -> string)
    (JSON_parse : string -> result json) (StringToNumber : string -> number)
    (today : string) {S : Type}
    (generateContent : string -> Request -> S -> outcome Response * S)
    (ls : localStorage) (key : string) (response : Response) (w w' : S) :
  JSON_parse DEFAULT_SCRIPT_JSON = inr DEFAULT_SCRIPT ->
  JSON_parse "{}" = inr (JObject ∅) ->
  getApiKey ls = inr key ->
  (forall contents : Contents,
     generateContent key (mkRequest (getSelectedModel ls) contents) w
     = (Resolved response, w')) ->
  emptyBody response ->
  (forall imagePrompt userText level childName themeLabel,
     generatePresentationScript toLowerCase JSON_parse generateContent ls
       imagePrompt userText level childName themeLabel w
     = (inr DEFAULT_SCRIPT, mkRun w' [Attempt (getSelectedModel ls)] None)) /\
  (forall imageBase64 imageMimeType level childName,
     generateScriptFromImage toLowerCase JSON_parse generateContent ls
       imageBase64 imageMimeType level childName w
     = (inr DEFAULT_SCRIPT, mkRun w' [Attempt (getSelectedModel ls)] None)) /\
  (forall originalScript audioBase64 audioMimeType level,
     exists r : EvaluationResult,
       Rev2Api.evaluatePresentation toLowerCase JSON_parse StringToNumber today
         generateContent ls originalScript audioBase64 audioMimeType level w
       = (inr r, mkRun w' [Attempt (getSelectedModel ls)] None) /\
       allZero r) /\
  (forall originalScript audioBase64 audioMimeType level,
     exists r : EvaluationResult,
       Rev1Api.evaluatePresentation toLowerCase JSON_parse StringToNumber today
         generateContent ls originalScript audioBase64 audioMimeType level w
       = (inr r, mkRun w' [Attempt (getSelectedModel ls)] None) /\
       allZero r).
Proof.
  intros Hdefault Hobject Hkey Hcall Hbody. split; [ | split; [ | split]].
  - intros. unfold generatePresentationScript.
    apply (apiCall_first_success toLowerCase generateContent ls _ _ w w' key response);
      [exact Hkey | apply Hcall | now apply parseScript_empty].
  - intros. unfold generateScriptFromImage.
    apply (apiCall_first_success toLowerCase generateContent ls _ _ w w' key response);
      [exact Hkey | apply Hcall | now apply parseScript_empty].
  - intros.
    destruct (parseEvaluation_empty JSON_parse StringToNumber today Hobject
                level response Hbody) as (r & Hr & Hzero & _).
    exists r. split; [ | exact Hzero].
    unfold Rev2Api.evaluatePresentation, evaluatePresentationWith.
    apply (apiCall_first_success toLowerCase generateContent ls _ _ w w' key response);
      [exact Hkey | apply Hcall | exact Hr].
  - intros.
    destruct (Rev1_parseEvaluation_empty JSON_parse StringToNumber today Hobject
                level response Hbody) as (r & Hr & Hzero & _).
    exists r. split; [ | exact Hzero].
    unfold Rev1Api.evaluatePresentation, evaluatePresentationWith.
    apply (apiCall_first_success toLowerCase generateContent ls _ _ w w' key response);
      [exact Hkey | apply Hcall | exact Hr].
Qed.

Lemma C7_empty_body_defaults_witness :
  generatePresentationScript Ref.toLowerCase Ref.JSON_parse emptyService keyedStorage
    "A red panda" "panda, tree" Starters "An" "Animals" 0%nat
  = (inr DEFAULT_SCRIPT, mkRun 1%nat [Attempt (getSelectedModel keyedStorage)] None).
Proof.
  assert (Ref.JSON_parse DEFAULT_SCRIPT_JSON = inr DEFAULT_SCRIPT) as H1
      by (vm_compute; reflexivity).
  assert (Ref.JSON_parse "{}" = inr (JObject ∅)) as H2 by (vm_compute; reflexivity).
  assert (getApiKey keyedStorage = inr "AIza-test") as H3 by (vm_compute; reflexivity).
  assert (emptyBody (mkResponse (Some "") None)) as H4 by (right; reflexivity).
  apply (C7_empty_body_defaults Ref.toLowerCase Ref.JSON_parse Ref.StringToNumber
           "03/11/2026" emptyService keyedStorage "AIza-test"
           (mkResponse (Some "") None) 0%nat 1%nat H1 H2 H3 (fun _ => eq_refl) H4).
Defined.

(** ** Audio decoding *)

Lemma int16_of_bytes_range (lo hi : Byte.byte) :
  -32768 <= int16_of_bytes lo hi < 32768.
Proof.
  unfold int16_of_bytes.
  pose proof (Byte.to_N_bounded lo). pose proof (Byte.to_N_bounded hi).
  destruct (Z.ltb_spec (Z.of_N (Byte.to_N lo) + 256 * Z.of_N (Byte.to_N hi)) 32768); lia.
Qed.

Lemma int16_view_range_aux (n : nat) :
  forall (data : list Byte.byte) (i : nat) (s : Z),
    (List.length data <= n)%nat ->
    int16_view data !! i = Some s -> -32768 <= s < 32768.
Proof.
  induction n as [ | n IH]; intros [ | lo [ | hi rest]] i s Hlen H;
    try (destruct i; discriminate); cbn [List.length] in Hlen; try lia.
  cbn [int16_view] in H. destruct i as [ | i].
  - injection H as <-. apply int16_of_bytes_range.
  - apply (IH rest i s); [lia | exact H].
Qed.

Lemma int16_view_range (data : list Byte.byte) (i : nat) (s : Z) :
  int16_view data !! i = Some s -> -32768 <= s < 32768.
Proof. apply (int16_view_range_aux (List.length data)). lia. Qed.

Lemma fillChannel_lookup (dataInt16 : list Z) (numChannels channel : nat) (count : nat) :
  forall (i : nat) (data : list number) (j : nat),
    fillChannel dataInt16 numChannels channel count i data !! j
    = if decide ((i <= j < i + count)%nat /\ (j < List.length data)%nat)
      then Some (scaledSample dataInt16 (j * numChannels + channel))
      else data !! j.
Proof.
  induction count as [ | count IH]; intros i data j; cbn [fillChannel].
  - case_decide; [lia | reflexivity].
  - rewrite IH, length_insert.
    destruct (decide (j = i)) as [-> | Hne].
    + case_decide; [lia | ]. case_decide.
      * apply list_lookup_insert_eq. lia.
      * rewrite list_insert_ge by lia. reflexivity.
    + rewrite list_lookup_insert_ne by congruence.
      repeat case_decide; try reflexivity; lia.
Qed.

Lemma fillChannel_length (dataInt16 : list Z) (numChannels channel : nat) (count : nat) :
  forall (i : nat) (data : list number),
    List.length (fillChannel dataInt16 numChannels channel count i data)
    = List.length data.
Proof.
  induction count as [ | count IH]; intros i data; cbn [fillChannel]; [reflexivity | ].
  rewrite IH. apply length_insert.
Qed.

(** The loop over the channels succeeds on a buffer that has the channels
    it visits, and fills exactly those. *)
Lemma fillChannels_ok (dataInt16 : list Z) (numChannels : nat)
    (frameCount : number) (count : nat) :
  forall (channel : nat) (chans : list (list number)),
    (channel + count <= List.length chans)%nat ->
    exists chans' : list (list number),
      fillChannels dataInt16 numChannels frameCount count channel chans
      = inr chans' /\
      List.length chans' = List.length chans /\
      forall c : nat,
        chans' !! c
        = if decide (channel <= c < channel + count)%nat
          then fillChannel dataInt16 numChannels c (iterations frameCount) 0
                 <$> (chans !! c)
          else chans !! c.
Proof.
  induction count as [ | count IH]; intros channel chans Hlen; cbn [fillChannels].
  - exists chans. split; [reflexivity | ]. split; [reflexivity | ].
    intros c. case_decide; [lia | reflexivity].
  - destruct (lookup_lt_is_Some_2 chans channel) as [data E]; [lia | ].
    rewrite E.
    destruct (IH (S channel)
                (<[channel := fillChannel dataInt16 numChannels channel
                                (iterations frameCount) 0 data]> chans))
      as (chans' & Hrun & Hlen' & Hlookup).
    { rewrite length_insert. lia. }
    exists chans'. split; [exact Hrun | ].
    split; [rewrite Hlen'; apply length_insert | ].
    intros c. rewrite Hlookup. destruct (decide (c = channel)) as [-> | Hne].
    + case_decide; [lia | ]. case_decide; [ | lia].
      rewrite list_lookup_insert_eq by lia. rewrite E. reflexivity.
    + rewrite list_lookup_insert_ne by congruence.
      repeat case_decide; try reflexivity; lia.
Qed.

(** A buffer with fewer channels than requested makes the loop fail. *)
Lemma fillChannels_missing_channel (dataInt16 : list Z) (numChannels : nat)
    (frameCount : number) (count : nat) :
  forall (channel : nat) (chans : list (list number)),
    (List.length chans < channel + count)%nat ->
    (channel <= List.length chans)%nat ->
    fillChannels dataInt16 numChannels frameCount count channel chans
    = inl (Error INDEX_SIZE_MESSAGE).
Proof.
  induction count as [ | count IH]; intros channel chans Hshort Hle;
    cbn [fillChannels]; [lia | ].
  destruct (chans !! channel) as [data | ] eqn:E; [ | reflexivity].
  apply lookup_lt_Some in E.
  apply IH; rewrite length_insert; lia.
Qed.

Lemma Qc_of_nat_nonzero (n : nat) :
  n <> 0%nat -> Qc_eqb (Q2Qc (inject_Z (Z.of_nat n))) (Q2Qc 0) = false.
Proof.
  intros Hn. apply not_true_iff_false. intros H. apply Qc_eqb_eq in H.
  apply (f_equal this) in H. cbn [this Q2Qc] in H.
  assert (inject_Z (Z.of_nat n) == 0)%Q as H0.
  { rewrite <- (Qred_correct (inject_Z (Z.of_nat n))), H. reflexivity. }
  unfold Qeq in H0. cbn in H0. lia.
Qed.

Lemma frameCount_Fin (len numChannels : nat) :
  numChannels <> 0%nat ->
  (num (inject_Z (Z.of_nat len)) / num (inject_Z (Z.of_nat numChannels)))%js
  = Fin (Q2Qc (inject_Z (Z.of_nat len)) / Q2Qc (inject_Z (Z.of_nat numChannels))).
Proof.
  intros Hn. unfold num, JS.div. rewrite (Qc_of_nat_nonzero _ Hn). reflexivity.
Qed.

Lemma frameCount_value (len numChannels : nat) :
  ((Q2Qc (inject_Z (Z.of_nat len)) / Q2Qc (inject_Z (Z.of_nat numChannels)))%Qc
   == inject_Z (Z.of_nat len) / inject_Z (Z.of_nat numChannels))%Q.
Proof.
  unfold Qcdiv, Qcmult, Qcinv. cbn [this Q2Qc].
  rewrite !Qred_correct. reflexivity.
Qed.

(** The frame count is truncated to [len / numChannels]; the loop over [i]
    runs at least that many times. *)
Lemma frameCount_frames (len numChannels : nat) :
  toUnsignedLong
    (num (inject_Z (Z.of_nat len)) / num (inject_Z (Z.of_nat numChannels)))%js
  = (len / numChannels)%nat.
Proof.
  destruct (Nat.eq_dec numChannels 0%nat) as [-> | Hn].
  - change (len / 0)%nat with 0%nat. unfold num, JS.div.
    change (Qc_eqb (Q2Qc (inject_Z (Z.of_nat 0))) (Q2Qc 0)) with true.
    cbv iota. unfold JS.inf_of_sign.
    destruct (0 <? _); [reflexivity | ]. destruct (_ <? 0); reflexivity.
  - rewrite frameCount_Fin by exact Hn. cbn [toUnsignedLong].
    rewrite (Qfloor_comp _ _ (frameCount_value len numChannels)), <- Zdiv_Qdiv.
    rewrite <- Nat2Z.inj_div. apply Nat2Z.id.
Qed.

Lemma frameCount_iterations (len numChannels : nat) :
  numChannels <> 0%nat ->
  (len / numChannels
   <= iterations
        (num (inject_Z (Z.of_nat len)) / num (inject_Z (Z.of_nat numChannels)))%js)%nat.
Proof.
  intros Hn. rewrite <- (frameCount_frames len numChannels).
  rewrite frameCount_Fin by exact Hn. cbn [toUnsignedLong iterations].
  set (x := (Q2Qc (inject_Z (Z.of_nat len))
             / Q2Qc (inject_Z (Z.of_nat numChannels)))%Qc).
  pose proof (Qle_floor_ceiling x) as Hfc. rewrite <- Zle_Qle in Hfc.
  assert (0 <= Qfloor x) as Hpos.
  { subst x. rewrite (Qfloor_comp _ _ (frameCount_value len numChannels)), <- Zdiv_Qdiv.
    apply Z.div_pos; lia. }
  apply Z2Nat.inj_le; lia.
Qed.

Lemma pcmSample_range (s : Z) :
  -32768 <= s < 32768 ->
  JS.le (num (-1)) (pcmSample s) = true /\ JS.le (pcmSample s) (num 1) = true.
Proof.
  intros [Hlo Hhi]. rewrite Zle_Qle in Hlo. rewrite Zlt_Qlt in Hhi.
  unfold pcmSample, num.
  change (Fin (Q2Qc (inject_Z s)) / Fin (Q2Qc 32768))%js
    with (Fin (Q2Qc (inject_Z s) / Q2Qc 32768)).
  rewrite !le_Fin. split; apply Qc_leb_le; to_Q; lra.
Qed.

(** C9. Given interleaved little-endian 16-bit signed PCM bytes (an even
    number of bytes), a sample rate and a channel count, and an audio
    context that allocates the requested buffer, decodeAudioData returns a
    buffer with that many channels in which sample [i] of channel [c] is the
    16-bit sample [i * numChannels + c] divided by 32768, a value of
    [-1, 1].  The result is a function of these arguments alone.  For the
    bytes 00 40 00 C0 (the samples 16384 and -16384) and one channel, the
    decoded samples are 0.5 and -0.5. *)
Theorem C9_decodeAudioData (data : list Byte.byte) (ctx : AudioContext)
    (rate : number) (numChannels : nat) :
  Nat.even (List.length data) = true ->
  (let frameCount :=
     (num (inject_Z (Z.of_nat (List.length (int16_view data))))
      / num (inject_Z (Z.of_nat numChannels)))%js in
   createBuffer ctx numChannels frameCount rate
   = inr (silentBuffer numChannels frameCount rate)) ->
  (exists buffer : AudioBuffer,
     decodeAudioData data ctx rate numChannels = inr buffer /\
     numberOfChannels buffer = numChannels /\
     List.length (channelData buffer) = numChannels /\
     sampleRate buffer = rate /\
     frames buffer = (List.length (int16_view data) / numChannels)%nat /\
     (forall c i : nat,
        (c < numChannels)%nat -> (i < frames buffer)%nat ->
        exists s : Z,
          int16_view data !! (i * numChannels + c)%nat = Some s /\
          sampleAt buffer c i = Some (pcmSample s) /\
          JS.le (num (-1)) (pcmSample s) = true /\
          JS.le (pcmSample s) (num 1) = true)) /\
  (exists buffer : AudioBuffer,
     decodeAudioData [x00; x40; x00; xc0]%byte Ref.audioContext (num 24000) 1
     = inr buffer /\
     int16_view [x00; x40; x00; xc0]%byte = [16384; -16384] /\
     sampleAt buffer 0 0 = Some (num 0.5) /\
     sampleAt buffer 0 1 = Some (num (-0.5)) /\
     frames buffer = 2%nat).
Proof.
  intros Heven Hctx. split.
  - unfold decodeAudioData, Int16Array. rewrite Heven. cbv zeta in Hctx.
    rewrite Hctx.
    set (dataInt16 := int16_view data) in *.
    set (frameCount :=
           (num (inject_Z (Z.of_nat (List.length dataInt16)))
            / num (inject_Z (Z.of_nat numChannels)))%js) in *.
    assert (toUnsignedLong frameCount
            = (List.length dataInt16 / numChannels)%nat) as Hframes
        by apply frameCount_frames.
    destruct (fillChannels_ok dataInt16 numChannels frameCount numChannels 0
                (channelData (silentBuffer numChannels frameCount rate)))
      as (chans & Hrun & Hlen & Hlookup).
    { cbn [channelData silentBuffer]. rewrite length_replicate. lia. }
    rewrite Hrun. eexists. split; [reflexivity | ].
    cbn [numberOfChannels frames sampleRate channelData silentBuffer] in *.
    split; [reflexivity | ].
    split; [rewrite Hlen; apply length_replicate | ].
    split; [reflexivity | ]. split; [exact Hframes | ].
    intros c i Hc Hi. rewrite Hframes in Hi.
    assert (numChannels <> 0%nat) as Hn by lia.
    assert (i * numChannels + c < List.length dataInt16)%nat as Hidx.
    { pose proof (Nat.Div0.mul_div_le (List.length dataInt16) numChannels). nia. }
    destruct (lookup_lt_is_Some_2 dataInt16 _ Hidx) as [s Hs].
    exists s. split; [exact Hs | ].
    destruct (pcmSample_range s (int16_view_range data _ s Hs)) as [Hlo Hhi].
    split; [ | split; [exact Hlo | exact Hhi]].
    unfold sampleAt. cbn [channelData].
    rewrite Hlookup. case_decide; [ | lia].
    rewrite lookup_replicate_2 by exact Hc. cbn [fmap option_fmap option_map].
    rewrite fillChannel_lookup, length_replicate, Hframes.
    pose proof (frameCount_iterations (List.length dataInt16) numChannels Hn)
      as Hiter.
    fold frameCount in Hiter.
    case_decide; [ | lia].
    unfold scaledSample. rewrite Hs. reflexivity.
  - eexists. split; [reflexivity | ]. split; [reflexivity | ].
    split; [ | split; [ | reflexivity]].
    + apply (f_equal Some). by_evaluation.
    + apply (f_equal Some). by_evaluation.
Qed.

Lemma C9_decodeAudioData_witness :
  exists buffer : AudioBuffer,
    decodeAudioData [x00; x40; x00; xc0; x01; x00; xff; x7f]%byte
      Ref.audioContext (num 24000) 2 = inr buffer /\
    numberOfChannels buffer = 2%nat /\
    frames buffer = 2%nat /\
    sampleAt buffer 1 1 = Some (pcmSample 32767).
Proof.
  assert (Nat.even (List.length [x00; x40; x00; xc0; x01; x00; xff; x7f]%byte) = true)
    as Heven by reflexivity.
  destruct (proj1 (C9_decodeAudioData [x00; x40; x00; xc0; x01; x00; xff; x7f]%byte
                     Ref.audioContext (num 24000) 2 Heven eq_refl))
    as (buffer & Hb & Hc & _ & _ & Hf & Hs).
  exists buffer. split; [exact Hb | ]. split; [exact Hc | ]. split; [exact Hf | ].
  destruct (Hs 1%nat 1%nat) as (s & Hidx & Hv & _); [lia | rewrite Hf; cbn; lia | ].
  cbn in Hidx. injection Hidx as <-. exact Hv.
Defined.

(** The voice synthesizer on a response carrying the bytes 00 40 00 C0. *)
Example teacherVoice_sample :
  Ref.atob "AEAAwA==" = inr [x00; x40; x00; xc0]%byte /\
  exists buffer : AudioBuffer,
    fst (generateTeacherVoice Ref.toLowerCase Ref.atob (fun _ => Ref.audioContext)
           voiceService keyedStorage "Hello everyone" 0%nat) = inr buffer /\
    sampleAt buffer 0 0 = Some (num 0.5) /\
    sampleAt buffer 0 1 = Some (num (-0.5)) /\
    frames buffer = 2%nat /\ numberOfChannels buffer = 1%nat.
Proof.
  split; [reflexivity | ].
  eexists. split; [vm_compute; reflexivity | ].
  split; [apply (f_equal Some); by_evaluation | ].
  split; [apply (f_equal Some); by_evaluation | ].
  split; reflexivity.
Qed.

(** ** The concrete values in binary64 *)

Section Binary64Values.

Import PrimFloat.

(** The values of claim C3, and the normalizer on an absent, NaN or infinite
  input, with IEEE 754 arithmetic. *)
Example binary64_normalize_values :
Binary64.Rev2.normalize (Some 0.8%float) = 8%float /\
Binary64.Rev2.normalize (Some 85%float) = 8.5%float /\
Binary64.Rev2.normalize (Some 7.3%float) = 7.3%float /\
Binary64.Rev2.normalize (Some (-1)%float) = 0%float /\
Binary64.Rev2.normalize (Some PrimFloat.nan) = 0%float /\
Binary64.Rev2.normalize None = 0%float /\
Binary64.Rev2.normalize (Some PrimFloat.infinity) = 10%float.
Proof. repeat split; reflexivity. Qed.

(** The aggregate of claim C4. *)
Example binary64_aggregate_value :
Binary64.Rev2.finalScore 9 8 7 9 8 10 = 8.5%float.
Proof. reflexivity. Qed.

(** The counterexample to idempotence (C8), and the behaviour of the
  normalizer on each of its own possible results [k / 10], [0 <= k <= 100]:
  the results 0.1, ..., 0.9 are multiplied by 10, the others are kept. *)
Example binary64_idempotence :
Binary64.Rev2.normalize (Some 0.05%float) = 0.5%float /\
Binary64.Rev2.normalize (Some 0.5%float) = 5%float /\
forallb
  (fun k : nat =>
     let k := Z.of_nat k in
     let x := (Binary64.of_Z k / 10)%float in
     PrimFloat.eqb (Binary64.Rev2.normalize (Some x))
       (if (0 <? k) && (k <? 10) then Binary64.of_Z k else x))
  (seq 0 101) = true.
Proof. repeat split; vm_compute; reflexivity. Qed.

(** The inputs on which the two revisions differ (C10). *)
Example binary64_revisions :
Binary64.Rev1.normalize (Some 85%float) = 10%float /\
Binary64.Rev2.normalize (Some 85%float) = 8.5%float /\
Binary64.Rev1.normalize (Some 1%float) = 10%float /\
Binary64.Rev2.normalize (Some 1%float) = 1%float /\
Binary64.Rev1.normalize (Some 7.3%float) = Binary64.Rev2.normalize (Some 7.3%float).
Proof. repeat split; reflexivity. Qed.

(** The samples of claim C9, and the first backoff delays of claim C1. *)
Example binary64_samples_and_delays :
Binary64.pcmSample 16384 = 0.5%float /\
Binary64.pcmSample (-16384) = (-0.5)%float /\
Binary64.pcmSample (-32768) = (-1)%float /\
List.map Binary64.backoffDelay [0; 1; 2; 3]%nat
= [1500; 3750; 9375; 23437.5]%float.
Proof. repeat split; reflexivity. Qed.

End Binary64Values.


(** * Further properties *)

(** ** Shape of a run of the orchestrator *)

Lemma attemptCount_app (a b : list event) :
  attemptCount (a ++ b) = (attemptCount a + attemptCount b)%nat.
Proof. unfold attemptCount. rewrite List.filter_app, length_app. reflexivity. Qed.

Lemma sleepsOf_app (a b : list event) : sleepsOf (a ++ b) = sleepsOf a ++ sleepsOf b.
Proof. unfold sleepsOf. apply flat_map_app. Qed.

Lemma attemptCount_retryTrace (M : string) (n : nat) (d : number) :
  attemptCount (retryTrace M n d) = Datatypes.S n.
Proof.
  revert d. induction n as [ | n IH]; intros d; [reflexivity | ].
  change (retryTrace M (Datatypes.S n) d)
    with ([Attempt M; Sleep d] ++ retryTrace M n (d * num 2.5)%js).
  rewrite attemptCount_app, IH. reflexivity.
Qed.

Lemma length_sleepsOf_retryTrace (M : string) (n : nat) (d : number) :
  List.length (sleepsOf (retryTrace M n d)) = n.
Proof.
  revert d. induction n as [ | n IH]; intros d; [reflexivity | ].
  cbn [retryTrace sleepsOf flat_map app List.length]. f_equal. apply IH.
Qed.

Lemma visits_cons (m : string) (k : nat) (blocks : list (string * nat)) :
  visits ((m, k) :: blocks) = retryTrace m k (num 1500) ++ visits blocks.
Proof. reflexivity. Qed.

Lemma visits_app (a b : list (string * nat)) : visits (a ++ b) = visits a ++ visits b.
Proof. unfold visits. apply flat_map_app. Qed.

Lemma visits_single_attempts (models : list string) :
  visits (List.map (fun m => (m, 0%nat)) models) = List.map Attempt models.
Proof.
  induction models as [ | m rest IH]; [reflexivity | ].
  cbn [List.map]. rewrite visits_cons, IH. reflexivity.
Qed.

Lemma attemptCount_visits (max : nat) (blocks : list (string * nat)) :
  Forall (fun b => (snd b < max)%nat) blocks ->
  (attemptCount (visits blocks) <= List.length blocks * max)%nat /\
  (List.length (sleepsOf (visits blocks)) <= List.length blocks * (max - 1))%nat.
Proof.
  induction 1 as [ | [m k] blocks Hk _ [IHa IHs]]; [split; reflexivity | ].
  cbn [snd] in Hk. rewrite visits_cons, attemptCount_app, sleepsOf_app, length_app.
  rewrite attemptCount_retryTrace, length_sleepsOf_retryTrace.
  cbn [List.length]. split; lia.
Qed.

Lemma attemptsOf_visits_other (m : string) (blocks : list (string * nat)) :
  m ∉ List.map fst blocks -> attemptsOf m (visits blocks) = 0%nat.
Proof.
  induction blocks as [ | [M k] blocks IH]; intros H; [reflexivity | ].
  cbn [List.map fst] in H. apply not_elem_of_cons in H as [Hne Hrest].
  rewrite visits_cons, attemptsOf_app, IH by exact Hrest.
  rewrite attemptsOf_retryTrace_other by exact Hne. reflexivity.
Qed.

Lemma attemptsOf_visits (max : nat) (m : string) (blocks : list (string * nat)) :
  NoDup (List.map fst blocks) ->
  Forall (fun b => (snd b < max)%nat) blocks ->
  (attemptsOf m (visits blocks) <= max)%nat.
Proof.
  induction blocks as [ | [M k] blocks IH]; intros Hnd Hall; [cbn; lia | ].
  cbn [List.map fst] in Hnd. apply NoDup_cons in Hnd as [HM Hnd].
  apply Forall_cons in Hall as [Hk Hall]. cbn [snd] in Hk.
  rewrite visits_cons, attemptsOf_app.
  destruct (String.eqb_spec m M) as [-> | Hne].
  - rewrite attemptsOf_retryTrace, attemptsOf_visits_other by exact HM. lia.
  - rewrite attemptsOf_retryTrace_other by exact Hne. now apply IH.
Qed.

Lemma getFallbackModels_length (ls : localStorage) :
  (1 <= List.length (getFallbackModels ls) <= 4)%nat.
Proof.
  unfold getFallbackModels. cbn [List.length].
  pose proof (List.filter_length_le
                (fun m => negb (String.eqb m (getSelectedModel ls))) FALLBACK_MODELS) as H.
  change (List.length FALLBACK_MODELS) with 3%nat in H. lia.
Qed.

Section OrchestratorShape.

Variable toLowerCase : string -> string.
Context {S T : Type}.
Variable fn : string -> S -> outcome T * S.
Variable maxRetriesPerModel : nat.
Variable timeoutMs : number.

#[local] Abbreviation attemptLoop' :=
  (attemptLoop toLowerCase fn maxRetriesPerModel timeoutMs).
#[local] Abbreviation modelLoop' :=
  (modelLoop toLowerCase fn maxRetriesPerModel timeoutMs).

(** One visit of a model: [k] waits and [k + 1] attempts, [k] below the
    limit; when the visit ends without a value, the last error is the one
    of an attempt on this model. *)
Lemma attemptLoop_shape (M : string) (remaining : nat) :
  forall (a : nat) (d : number) (r : Run) (res : option T) (r' : Run),
    attemptLoop' M remaining a d r = (res, r') ->
    (remaining + a = maxRetriesPerModel)%nat ->
    (1 <= remaining)%nat ->
    exists k : nat,
      trace r' = trace r ++ retryTrace M k d /\
      (a + k < maxRetriesPerModel)%nat /\
      (res = None ->
       exists (w : S) (e : JsError),
         withTimeout (fst (fn M w)) timeoutMs ("Model " ++ M) = inl e /\
         lastError r' = Some e).
Proof.
  induction remaining as [ | n IH]; intros a d r res r' H Hsum Hpos; [lia | ].
  cbn [attemptLoop] in H.
  destruct (fn M (world r)) as [p w] eqn:Hfn.
  assert (p = fst (fn M (world r))) as Hp by (rewrite Hfn; reflexivity).
  destruct (withTimeout p timeoutMs ("Model " ++ M)) as [e | v] eqn:Hto.
  - rewrite Hp in Hto.
    destruct (isTimeoutError toLowerCase e).
    { injection H as <- <-. exists 0%nat. cbn [trace lastError retryTrace].
      split; [reflexivity | ]. split; [lia | ]. intros _. eauto. }
    destruct (isQuotaError toLowerCase e && (a <? maxRetriesPerModel - 1)%nat) eqn:Hq.
    + apply andb_true_iff in Hq as [_ Hq]. apply Nat.ltb_lt in Hq.
      apply IH in H as (k & Htr & Hk & Hlast); [ | lia | lia].
      exists (Datatypes.S k). cbn [trace] in Htr. split.
      * rewrite Htr. cbn [retryTrace]. rewrite <- !app_assoc. reflexivity.
      * split; [lia | exact Hlast].
    + injection H as <- <-. exists 0%nat. cbn [trace lastError retryTrace].
      split; [reflexivity | ]. split; [lia | ]. intros _. eauto.
  - injection H as <- <-. exists 0%nat. cbn [trace retryTrace].
    split; [reflexivity | ]. split; [lia | discriminate].
Qed.

(** The outer loop visits a prefix of the models, all of them when it ends
    without a value. *)
Lemma modelLoop_shape (models : list string) :
  (1 <= maxRetriesPerModel)%nat ->
  forall (r : Run) (res : option T) (r' : Run),
    modelLoop' models r = (res, r') ->
    exists (blocks : list (string * nat)) (rest : list string),
      trace r' = trace r ++ visits blocks /\
      Forall (fun b => (snd b < maxRetriesPerModel)%nat) blocks /\
      models = List.map fst blocks ++ rest /\
      (res = None -> rest = []).
Proof.
  intros Hmax. induction models as [ | M others IH]; intros r res r' H;
    cbn [modelLoop] in H.
  - injection H as <- <-. exists [], []. rewrite app_nil_r. repeat split. constructor.
  - destruct (attemptLoop' M maxRetriesPerModel 0 (num 1500) r) as [[v | ] r1] eqn:E;
      apply attemptLoop_shape in E as (k & Htr & Hk & _); try lia.
    + injection H as <- <-. exists [(M, k)], others.
      rewrite visits_cons. cbn [visits flat_map]. rewrite app_nil_r.
      split; [exact Htr | ]. split; [repeat constructor; cbn; lia | ].
      split; [reflexivity | discriminate].
    + apply IH in H as (blocks & rest & Htr' & Hall & Hmodels & Hrest).
      exists ((M, k) :: blocks), rest. split.
      * rewrite Htr', Htr, visits_cons, app_assoc. reflexivity.
      * split; [constructor; [cbn; lia | exact Hall] | ].
        split; [cbn [List.map fst app]; f_equal; exact Hmodels | exact Hrest].
Qed.

(** With the limit 0 the callback is never invoked. *)
Lemma modelLoop_no_attempt (models : list string) (r : Run) :
  maxRetriesPerModel = 0%nat -> modelLoop' models r = (None, r).
Proof.
  intros H0. induction models as [ | M others IH]; [reflexivity | ].
  assert (forall n : nat, n = 0%nat ->
            attemptLoop' M n 0 (num 1500) r = (None, r)) as Hloop
      by (intros n ->; reflexivity).
  cbn [modelLoop]. rewrite (Hloop _ H0). exact IH.
Qed.

(** When the outer loop ends without a value, the last error is the one of
    an attempt on the last model. *)
Lemma modelLoop_last_error (models : list string) :
  (1 <= maxRetriesPerModel)%nat ->
  forall (r : Run) (r' : Run) (M : string),
    modelLoop' models r = (None, r') ->
    last models = Some M ->
    exists (w : S) (e : JsError),
      withTimeout (fst (fn M w)) timeoutMs ("Model " ++ M) = inl e /\
      lastError r' = Some e.
Proof.
  intros Hmax. induction models as [ | m others IH]; intros r r' M H Hlast;
    [discriminate | ].
  cbn [modelLoop] in H.
  destruct (attemptLoop' m maxRetriesPerModel 0 (num 1500) r) as [[v | ] r1] eqn:E;
    [discriminate | ].
  destruct others as [ | m' others].
  - cbn [modelLoop] in H. injection H as <-. injection Hlast as <-.
    apply attemptLoop_shape in E as (k & _ & _ & Herr); try lia.
    apply Herr. reflexivity.
  - apply (IH r1 r' M H). exact Hlast.
Qed.

End OrchestratorShape.

Lemma callWithRetry_run (toLowerCase : string -> string) {S T : Type}
    (fn : string -> S -> outcome T * S) (maxRetriesPerModel : nat)
    (timeoutMs : number) (ls : localStorage) (w : S) :
  snd (callWithRetry toLowerCase fn maxRetriesPerModel timeoutMs ls w)
  = snd (modelLoop toLowerCase fn maxRetriesPerModel timeoutMs
           (getFallbackModels ls) (mkRun w [] None)).
Proof.
  unfold callWithRetry. cbv zeta.
  destruct (modelLoop toLowerCase fn maxRetriesPerModel timeoutMs
              (getFallbackModels ls) (mkRun w [] None)) as [[v | ] r]; reflexivity.
Qed.


(** X2. Whatever the callback does, callWithRetry invokes it at most
    [maxRetriesPerModel] times per candidate model, hence at most
    4 * maxRetriesPerModel times in all (there are at most 4 candidates), and
    waits at most maxRetriesPerModel - 1 times per candidate. *)
Theorem X2_attempt_budget (toLowerCase : string -> string) {S T : Type}
    (fn : string -> S -> outcome T * S) (maxRetriesPerModel : nat)
    (timeoutMs : number) (ls : localStorage) (w : S) :
  let r := snd (callWithRetry toLowerCase fn maxRetriesPerModel timeoutMs ls w) in
  (forall m : string, attemptsOf m (trace r) <= maxRetriesPerModel)%nat /\
  (forall m : string, m ∉ getFallbackModels ls -> attemptsOf m (trace r) = 0%nat) /\
  (attemptCount (trace r)
   <= List.length (getFallbackModels ls) * maxRetriesPerModel)%nat /\
  (List.length (sleepsOf (trace r))
   <= List.length (getFallbackModels ls) * (maxRetriesPerModel - 1))%nat /\
  (attemptCount (trace r) <= 4 * maxRetriesPerModel)%nat.
Proof.
  cbv zeta. rewrite callWithRetry_run.
  assert (exists (blocks : list (string * nat)) (rest : list string),
            trace (snd (modelLoop toLowerCase fn maxRetriesPerModel timeoutMs
                          (getFallbackModels ls) (mkRun w [] None)))
            = visits blocks /\
            Forall (fun b => (snd b < maxRetriesPerModel)%nat) blocks /\
            getFallbackModels ls = List.map fst blocks ++ rest)
    as (blocks & rest & Htr & Hall & Hmodels).
  { destruct (Nat.eq_dec maxRetriesPerModel 0%nat) as [H0 | Hpos].
    - rewrite (modelLoop_no_attempt toLowerCase fn maxRetriesPerModel timeoutMs _ _ H0).
      exists [], (getFallbackModels ls). repeat split. constructor.
    - destruct (modelLoop toLowerCase fn maxRetriesPerModel timeoutMs
                  (getFallbackModels ls) (mkRun w [] None)) as [res r] eqn:E.
      apply modelLoop_shape in E as (blocks & rest & Htr & Hall & Hmodels & _);
        [ | lia].
      exists blocks, rest. repeat split; assumption. }
  rewrite Htr.
  pose proof (getFallbackModels_NoDup ls) as Hnd.
  pose proof (getFallbackModels_length ls) as Hlen.
  rewrite Hmodels in Hnd, Hlen. rewrite length_app, length_map in Hlen.
  apply NoDup_app in Hnd as (Hnd & _ & _).
  destruct (attemptCount_visits maxRetriesPerModel blocks Hall) as [Ha Hs].
  rewrite Hmodels, length_app, length_map.
  split; [intros m; now apply (attemptsOf_visits maxRetriesPerModel) | ].
  split.
  { intros m Hm. apply attemptsOf_visits_other. intros Hin. apply Hm.
    apply elem_of_app. now left. }
  split; [nia | ]. split; nia.
Qed.

Lemma visits_no_retry (blocks : list (string * nat)) :
  Forall (fun b => (snd b < 1)%nat) blocks ->
  visits blocks = List.map Attempt (List.map fst blocks).
Proof.
  induction 1 as [ | [m k] blocks Hk _ IH]; [reflexivity | ].
  cbn [snd] in Hk. assert (k = 0%nat) as -> by lia.
  rewrite visits_cons, IH. reflexivity.
Qed.

Lemma sleepsOf_attempts (models : list string) : sleepsOf (List.map Attempt models) = [].
Proof. induction models as [ | m rest IH]; [reflexivity | exact IH]. Qed.

Lemma attemptCount_attempts (models : list string) :
  attemptCount (List.map Attempt models) = List.length models.
Proof.
  induction models as [ | m rest IH]; [reflexivity | ].
  unfold attemptCount in *. cbn. f_equal. exact IH.
Qed.

Section OrchestratorCases.

Variable toLowerCase : string -> string.
Context {S T : Type}.
Variable fn : string -> S -> outcome T * S.
Variable maxRetriesPerModel : nat.
Variable timeoutMs : number.

#[local] Abbreviation attemptLoop'' :=
  (attemptLoop toLowerCase fn maxRetriesPerModel timeoutMs).
#[local] Abbreviation modelLoop'' :=
  (modelLoop toLowerCase fn maxRetriesPerModel timeoutMs).

(** A model on which no failure is a quota error (unless it is a timeout)
    is attempted once. *)
Lemma attemptLoop_no_wait (M : string) (remaining a : nat) (d : number)
    (r : Run) (res : option T) (r' : Run) :
  (1 <= remaining)%nat ->
  (forall (w : S) (e : JsError),
     withTimeout (fst (fn M w)) timeoutMs ("Model " ++ M) = inl e ->
     isTimeoutError toLowerCase e = true \/ isQuotaError toLowerCase e = false) ->
  attemptLoop'' M remaining a d r = (res, r') ->
  trace r' = trace r ++ [Attempt M].
Proof.
  intros Hpos Hno H. destruct remaining as [ | n]; [lia | ].
  cbn [attemptLoop] in H.
  pose proof (Hno (world r)) as Hw.
  destruct (fn M (world r)) as [p w]. cbn [fst] in Hw.
  destruct (withTimeout p timeoutMs ("Model " ++ M)) as [e | v].
  - destruct (Hw e eq_refl) as [Ht | Hq].
    + rewrite Ht in H. injection H as <- <-. reflexivity.
    + rewrite Hq in H. cbn [andb] in H.
      destruct (isTimeoutError toLowerCase e); injection H as <- <-; reflexivity.
  - injection H as <- <-. reflexivity.
Qed.

Lemma modelLoop_no_wait (models : list string) :
  (1 <= maxRetriesPerModel)%nat ->
  (forall (m : string) (w : S) (e : JsError), m ∈ models ->
     withTimeout (fst (fn m w)) timeoutMs ("Model " ++ m) = inl e ->
     isTimeoutError toLowerCase e = true \/ isQuotaError toLowerCase e = false) ->
  forall (r : Run) (res : option T) (r' : Run),
    modelLoop'' models r = (res, r') ->
    exists tried rest : list string,
      models = tried ++ rest /\
      trace r' = trace r ++ List.map Attempt tried /\
      (res = None -> rest = []).
Proof.
  intros Hmax. induction models as [ | M others IH]; intros Hno r res r' H;
    cbn [modelLoop] in H.
  - injection H as <- <-. exists [], []. cbn [List.map].
    split; [reflexivity | split; [now rewrite app_nil_r | intros _; reflexivity]].
  - assert (forall (w : S) (e : JsError),
              withTimeout (fst (fn M w)) timeoutMs ("Model " ++ M) = inl e ->
              isTimeoutError toLowerCase e = true
              \/ isQuotaError toLowerCase e = false) as HM
        by (intros w e; apply Hno; left).
    destruct (attemptLoop'' M maxRetriesPerModel 0 (num 1500) r) as [[v | ] r1] eqn:E;
      apply (attemptLoop_no_wait _ _ _ _ _ _ _ Hmax HM) in E.
    + injection H as <- <-. exists [M], others.
      split; [reflexivity | ]. split; [exact E | discriminate].
    + apply IH in H as (tried & rest & Hmodels & Htr & Hrest).
      * exists (M :: tried), rest. split; [cbn; f_equal; exact Hmodels | ].
        split; [ | exact Hrest].
        rewrite Htr, E. cbn [List.map]. rewrite <- app_assoc. reflexivity.
      * intros m w e Hm. apply Hno. now right.
Qed.

(** A model on which every attempt fails with a quota error is attempted
    as often as the limit allows. *)
Lemma attemptLoop_exhausts (M : string) :
  (forall w : S, exists (e : JsError) (w' : S),
     fn M w = (Rejected e, w') /\ classify toLowerCase e = QuotaExceeded) ->
  forall (remaining a : nat) (d : number) (r : Run),
    (remaining + a = maxRetriesPerModel)%nat ->
    (1 <= remaining)%nat ->
    exists (r' : Run) (e : JsError),
      attemptLoop'' M remaining a d r = (None, r') /\
      trace r' = trace r ++ retryTrace M (remaining - 1) d /\
      lastError r' = Some e /\
      classify toLowerCase e = QuotaExceeded.
Proof.
  intros Hq. induction remaining as [ | n IH]; intros a d r Hsum Hpos; [lia | ].
  destruct (Hq (world r)) as (e & w' & Hfn & He).
  destruct n as [ | n].
  - exists (mkRun w' (trace r ++ [Attempt M]) (Some e)), e.
    split; [ | split; [reflexivity | split; [reflexivity | exact He]]].
    apply (attemptLoop_gives_up toLowerCase fn maxRetriesPerModel timeoutMs
             M 1 a d r (Rejected e) w' e); [lia | exact Hfn | reflexivity | ].
    right. right. lia.
  - rewrite (attemptLoop_retries toLowerCase fn maxRetriesPerModel timeoutMs
               M (Datatypes.S n) a d r w' e Hfn He) by lia.
    destruct (IH (Datatypes.S a) (d * num 2.5)%js
                (mkRun w' ((trace r ++ [Attempt M]) ++ [Sleep d]) (Some e)))
      as (r' & e' & Hloop & Htr & Hlast & He'); [lia | lia | ].
    exists r', e'. split; [exact Hloop | ]. split; [ | split; assumption].
    rewrite Htr. cbn [trace]. replace (Datatypes.S (Datatypes.S n) - 1)%nat
      with (Datatypes.S (Datatypes.S n - 1)) by lia.
    cbn [retryTrace]. rewrite <- !app_assoc. reflexivity.
Qed.

Lemma modelLoop_exhausts (models : list string) :
  (1 <= maxRetriesPerModel)%nat ->
  (forall (m : string) (w : S), m ∈ models ->
     exists (e : JsError) (w' : S),
       fn m w = (Rejected e, w') /\ classify toLowerCase e = QuotaExceeded) ->
  forall r : Run,
    exists r' : Run,
      modelLoop'' models r = (None, r') /\
      trace r' = trace r
                 ++ visits (List.map (fun m => (m, (maxRetriesPerModel - 1)%nat)) models) /\
      (models <> [] ->
       exists e : JsError,
         lastError r' = Some e /\ classify toLowerCase e = QuotaExceeded).
Proof.
  intros Hmax. induction models as [ | M others IH]; intros Hq r.
  - exists r. cbn. rewrite app_nil_r. repeat split. intros H. contradiction.
  - destruct (attemptLoop_exhausts M (fun w => Hq M w ltac:(left))
                maxRetriesPerModel 0 (num 1500) r)
      as (r1 & e1 & Hloop & Htr1 & Hlast1 & He1); [lia | lia | ].
    destruct (IH (fun m w Hm => Hq m w (list_elem_of_further _ _ _ Hm)) r1)
      as (r' & Hrest & Htr & Hlast).
    exists r'. cbn [modelLoop]. rewrite Hloop. split; [exact Hrest | ].
    split.
    + rewrite Htr, Htr1. cbn [List.map]. rewrite visits_cons, app_assoc. reflexivity.
    + intros _. destruct others as [ | m' others].
      * cbn [modelLoop] in Hrest. injection Hrest as <-. eauto.
      * apply Hlast. discriminate.
Qed.

End OrchestratorCases.

Lemma attemptCount_exhausted (max : nat) (models : list string) :
  attemptCount (visits (List.map (fun m => (m, max)) models))
  = (List.length models * Datatypes.S max)%nat.
Proof.
  induction models as [ | m rest IH]; [reflexivity | ].
  cbn [List.map List.length]. rewrite visits_cons, attemptCount_app, IH.
  rewrite attemptCount_retryTrace. lia.
Qed.

Lemma sleepsOf_exhausted (max : nat) (models : list string) :
  sleepsOf (visits (List.map (fun m => (m, max)) models))
  = concat (List.map (fun _ => List.map backoffDelay (seq 0 max)) models).
Proof.
  induction models as [ | m rest IH]; [reflexivity | ].
  cbn [List.map concat]. rewrite visits_cons, sleepsOf_app, IH.
  rewrite <- backoffDelay_0, sleepsOf_retryTrace. reflexivity.
Qed.

(** X3. Only quota errors make the orchestrator wait or retry: when no
    failure of the callback is a quota error (timeouts apart), callWithRetry
    makes one attempt on each of the first candidate models, in list order,
    and never waits, whatever the retry limit (at least 1). *)
Theorem X3_only_quota_errors_wait (toLowerCase : string -> string) {S T : Type}
    (fn : string -> S -> outcome T * S) (maxRetriesPerModel : nat)
    (timeoutMs : number) (ls : localStorage) (w : S) :
  (1 <= maxRetriesPerModel)%nat ->
  (forall (m : string) (w' : S) (e : JsError), m ∈ getFallbackModels ls ->
     withTimeout (fst (fn m w')) timeoutMs ("Model " ++ m) = inl e ->
     isTimeoutError toLowerCase e = true \/ isQuotaError toLowerCase e = false) ->
  let out := callWithRetry toLowerCase fn maxRetriesPerModel timeoutMs ls w in
  singleAttempts ls (trace (snd out)) /\
  sleepsOf (trace (snd out)) = [] /\
  (forall m : string, attemptsOf m (trace (snd out)) <= 1)%nat /\
  ((exists e, fst out = inl e) ->
   trace (snd out) = List.map Attempt (getFallbackModels ls)).
Proof.
  intros Hmax Hno. cbv zeta.
  assert (exists tried rest : list string,
            getFallbackModels ls = tried ++ rest /\
            trace (snd (callWithRetry toLowerCase fn maxRetriesPerModel timeoutMs ls w))
            = List.map Attempt tried /\
            ((exists e, fst (callWithRetry toLowerCase fn maxRetriesPerModel
                               timeoutMs ls w) = inl e) -> rest = []))
    as (tried & rest & Hmodels & Htr & Hrest).
  { unfold callWithRetry. cbv zeta.
    destruct (modelLoop toLowerCase fn maxRetriesPerModel timeoutMs
                (getFallbackModels ls) (mkRun w [] None)) as [res r] eqn:E.
    apply modelLoop_no_wait in E as (tried & rest & Hmodels & Htr & Hrest);
      [ | exact Hmax | exact Hno].
    exists tried, rest. split; [exact Hmodels | ].
    destruct res as [v | ]; cbn [fst snd]; (split; [exact Htr | ]).
    - intros [e He]. discriminate.
    - intros _. now apply Hrest. }
  rewrite Htr. split; [exists tried, rest; split; [exact Hmodels | reflexivity] | ].
  split; [apply sleepsOf_attempts | ]. split.
  - intros m. pose proof (getFallbackModels_NoDup ls) as Hnd. rewrite Hmodels in Hnd.
    apply NoDup_app in Hnd as (Hnd & _ & _).
    destruct (decide (m ∈ tried)) as [Hin | Hout].
    + rewrite attemptsOf_candidates by assumption. lia.
    + rewrite <- visits_single_attempts, attemptsOf_visits_other; [lia | ].
      rewrite List.map_map, List.map_id. exact Hout.
  - intros Hfail. rewrite Hmodels, (Hrest Hfail), app_nil_r. reflexivity.
Qed.

Lemma X3_only_quota_errors_wait_witness :
  trace (snd (callWithRetry Ref.toLowerCase alwaysBroken 3 (num 60000) ∅ 0%nat))
  = [Attempt "gemini-3-flash-preview"; Attempt "gemini-3-pro-preview";
     Attempt "gemini-2.5-flash"].
Proof.
  assert (forall (m : string) (w' : nat) (e : JsError), m ∈ getFallbackModels ∅ ->
            withTimeout (fst (alwaysBroken m w')) (num 60000) ("Model " ++ m) = inl e ->
            isTimeoutError Ref.toLowerCase e = true
            \/ isQuotaError Ref.toLowerCase e = false) as Hno.
  { intros m w' e _ H. injection H as <-. right. vm_compute. reflexivity. }
  assert (1 <= 3)%nat as Hmax by lia.
  apply (X3_only_quota_errors_wait Ref.toLowerCase alwaysBroken 3 (num 60000) ∅ 0%nat
           Hmax Hno).
  eexists. vm_compute. reflexivity.
Defined.



(** X5. A failed call reports one error only: with a retry limit of at
    least 1, the error callWithRetry throws is the aggregate error whose
    message is the fixed prefix, the message (or, when that is empty, the
    JSON form) of the error of an attempt on the last candidate model, and
    the fixed suffix.  The errors met on the earlier candidates are not
    reported. *)
Theorem X5_failure_reports_last_error (toLowerCase : string -> string) {S T : Type}
    (fn : string -> S -> outcome T * S) (maxRetriesPerModel : nat)
    (timeoutMs : number) (ls : localStorage) (w : S) (err : JsError) (r : Run) :
  (1 <= maxRetriesPerModel)%nat ->
  callWithRetry toLowerCase fn maxRetriesPerModel timeoutMs ls w = (inl err, r) ->
  exists (M : string) (e : JsError) (w' : S),
    last (getFallbackModels ls) = Some M /\
    withTimeout (fst (fn M w')) timeoutMs ("Model " ++ M) = inl e /\
    lastError r = Some e /\
    err = Error (aggregateMessage (Some e)) /\
    message err
    = Some (AGGREGATE_PREFIX
              ++ interpolate (str_or (message e) (stringified e))
              ++ AGGREGATE_SUFFIX)%string.
Proof.
  intros Hmax H. unfold callWithRetry in H. cbv zeta in H.
  destruct (modelLoop toLowerCase fn maxRetriesPerModel timeoutMs
              (getFallbackModels ls) (mkRun w [] None)) as [[v | ] r'] eqn:E;
    [discriminate | ].
  injection H as <- <-.
  destruct (last (getFallbackModels ls)) as [M | ] eqn:Hlast.
  - destruct (modelLoop_last_error toLowerCase fn maxRetriesPerModel timeoutMs
                (getFallbackModels ls) Hmax _ _ M E Hlast) as (w' & e & Hto & Herr).
    exists M, e, w'. rewrite Herr. repeat split; assumption.
  - apply last_None in Hlast. discriminate.
Qed.

Lemma X5_failure_reports_last_error_witness :
  exists (err : JsError) (r : Run),
    callWithRetry Ref.toLowerCase alwaysBroken 1 (num 60000) ∅ 0%nat = (inl err, r) /\
    message err = Some (AGGREGATE_PREFIX ++ "boom" ++ AGGREGATE_SUFFIX)%string.
Proof.
  assert (1 <= 1)%nat as Hmax by lia.
  destruct (callWithRetry Ref.toLowerCase alwaysBroken 1 (num 60000) ∅ 0%nat)
    as [[err | v] r] eqn:E; [ | vm_compute in E; discriminate].
  exists err, r. split; [reflexivity | ].
  destruct (X5_failure_reports_last_error Ref.toLowerCase alwaysBroken 1 (num 60000)
              ∅ 0%nat err r Hmax E) as (M & e & w' & _ & Hto & _ & _ & Hmsg).
  injection Hto as <-. exact Hmsg.
Defined.

(** With the retry limit 1 there is at most one attempt per candidate. *)
Lemma callWithRetry_limit_1 (toLowerCase : string -> string) {S T : Type}
    (fn : string -> S -> outcome T * S) (timeoutMs : number)
    (ls : localStorage) (w : S) :
  let tr := trace (snd (callWithRetry toLowerCase fn 1 timeoutMs ls w)) in
  singleAttempts ls tr /\ sleepsOf tr = [] /\ (attemptCount tr <= 4)%nat.
Proof.
  cbv zeta. rewrite callWithRetry_run.
  destruct (modelLoop toLowerCase fn 1 timeoutMs (getFallbackModels ls)
              (mkRun w [] None)) as [res r] eqn:E.
  apply modelLoop_shape in E as (blocks & rest & Htr & Hall & Hmodels & _); [ | lia].
  cbn [trace app snd] in *. rewrite Htr, visits_no_retry by exact Hall.
  split; [exists (List.map fst blocks), rest; split; [exact Hmodels | reflexivity] | ].
  split; [apply sleepsOf_attempts | ].
  rewrite attemptCount_attempts.
  pose proof (getFallbackModels_length ls) as Hlen.
  rewrite Hmodels, length_app in Hlen. lia.
Qed.

(** X6. The five operations call callWithRetry with its default retry limit
    of 1, so none of them ever retries a model or waits, whatever errors the
    service returns: a run is one attempt on each of the first candidate
    models, in list order, at most 4 attempts in all. *)
Theorem X6_operations_never_wait (toLowerCase : string -> string)
    (JSON_parse : string -> result json) (StringToNumber : string -> number)
    (trim : string -> string)
    (atob : string -> result (list Byte.byte)) (today : string)
    (newAudioContext : number -> AudioContext) {S : Type}
    (generateContent : string -> Request -> S -> outcome Response * S)
    (ls : localStorage) (w : S) :
  let quiet (tr : list event) :=
    singleAttempts ls tr /\ sleepsOf tr = [] /\ (attemptCount tr <= 4)%nat in
  (forall theme,
     quiet (trace (snd (generateImagePrompt toLowerCase trim generateContent ls
                          theme w)))) /\
  (forall imagePrompt userText level childName themeLabel,
     quiet (trace (snd (generatePresentationScript toLowerCase JSON_parse
                          generateContent ls imagePrompt userText level childName
                          themeLabel w)))) /\
  (forall imageBase64 imageMimeType level childName,
     quiet (trace (snd (generateScriptFromImage toLowerCase JSON_parse
                          generateContent ls imageBase64 imageMimeType level
                          childName w)))) /\
  (forall text,
     quiet (trace (snd (generateTeacherVoice toLowerCase atob newAudioContext
                          generateContent ls text w)))) /\
  (forall originalScript audioBase64 audioMimeType level,
     quiet (trace (snd (Rev1Api.evaluatePresentation toLowerCase JSON_parse
                          StringToNumber today generateContent ls originalScript
                          audioBase64 audioMimeType level w)))) /\
  (forall originalScript audioBase64 audioMimeType level,
     quiet (trace (snd (Rev2Api.evaluatePresentation toLowerCase JSON_parse
                          StringToNumber today generateContent ls originalScript
                          audioBase64 audioMimeType level w)))).
Proof.
  cbv zeta. repeat split; intros; apply callWithRetry_limit_1.
Qed.

(** ** The recording timer *)

Lemma string_length_app (a b : string) :
  String.length (a ++ b) = (String.length a + String.length b)%nat.
Proof. induction a as [ | c a IH]; [reflexivity | ]. simpl. f_equal. exact IH. Qed.

(** Two concatenations with right parts of the same length are equal part
    by part. *)
Lemma string_app_inj (a b x y : string) :
  (a ++ x)%string = (b ++ y)%string ->
  String.length x = String.length y ->
  a = b /\ x = y.
Proof.
  revert b. induction a as [ | c a IH]; intros b H Hlen.
  - destruct b as [ | d b]; [split; [reflexivity | exact H] | ].
    apply (f_equal String.length) in H. simpl in H.
    rewrite !string_length_app in H. simpl in H. lia.
  - destruct b as [ | d b].
    + apply (f_equal String.length) in H. simpl in H.
      rewrite !string_length_app in H. simpl in H. lia.
    + simpl in H. injection H as -> H. destruct (IH b H Hlen) as [-> ->].
      split; reflexivity.
Qed.

(** The seconds field: two decimal digits. *)
Lemma padStart_seconds (k : Z) :
  0 <= k < 60 ->
  padStart 2 "0" (pretty k) = (pretty (k / 10) ++ pretty (k mod 10))%string /\
  String.length (pretty (k / 10)) = 1%nat /\
  String.length (pretty (k mod 10)) = 1%nat.
Proof.
  intros Hk.
  assert (Forall (fun k : Z =>
                    padStart 2 "0" (pretty k)
                    = (pretty (k / 10) ++ pretty (k mod 10))%string /\
                    String.length (pretty (k / 10)) = 1%nat /\
                    String.length (pretty (k mod 10)) = 1%nat)
            (seqZ 0 60)) as Hall.
  { vm_compute. repeat constructor. }
  rewrite Forall_forall in Hall. apply Hall, elem_of_seqZ. lia.
Qed.



(** The display at the boundaries, and for a negative count. *)
Example formatTime_samples :
  App.formatTime 0 = "0:00" /\ App.formatTime 9 = "0:09" /\
  App.formatTime 59 = "0:59" /\ App.formatTime 60 = "1:00" /\
  App.formatTime 3600 = "60:00" /\ App.formatTime (-1) = "-1:-1".
Proof. repeat split; reflexivity. Qed.

(** ** The application component *)

Lemma getApiKey_stored (ls : localStorage) :
  getApiKey ls
  = if String.eqb (interpolate (str_or (ls !! "gemini_api_key") (Some ""))) ""
    then inl (Error MISSING_KEY_MESSAGE)
    else inr (interpolate (str_or (ls !! "gemini_api_key") (Some ""))).
Proof. reflexivity. Qed.

Lemma stored_key (ls : localStorage) (key : string) :
  key <> "" ->
  interpolate (str_or ((<["selected_model" := "x"]> (<["gemini_api_key" := key]> ls))
                         !! "gemini_api_key") (Some "")) = key.
Proof.
  intros Hkey. rewrite lookup_insert_ne by discriminate. rewrite lookup_insert_eq.
  unfold str_or, str_truthy. destruct (String.eqb_spec key ""); [contradiction | ].
  reflexivity.
Qed.

Lemma str_truthy_key (ls : localStorage) :
  str_truthy (ls !! "gemini_api_key")
  = negb (String.eqb (interpolate (str_or (ls !! "gemini_api_key") (Some ""))) "").
Proof.
  unfold str_or, str_truthy. destruct (ls !! "gemini_api_key") as [k | ]; [ | reflexivity].
  destruct (String.eqb_spec k "") as [-> | Hne]; cbn [negb interpolate]; [reflexivity | ].
  destruct (String.eqb_spec k ""); [contradiction | reflexivity].
Qed.

Lemma errorMessage_truthy (err : JsError) (fallback : string) :
  fallback <> "" -> str_truthy (Some (App.errorMessage err fallback)) = true.
Proof.
  intros Hf. unfold App.errorMessage, str_or.
  destruct (str_truthy (message err)) eqn:E.
  - destruct (message err) as [m | ]; [exact E | discriminate].
  - cbn. destruct (String.eqb_spec fallback ""); [contradiction | reflexivity].
Qed.

(** Closes the parts of [panelsConsistent] a handler leaves as they are or
    sets to a constant. *)
Ltac panels :=
  unfold panelsConsistent, App.handleGenerate_resolved, App.handleGenerate_rejected,
    App.handleRetry, App.cancelGenerate, App.cancelEvaluate,
    App.startRecording_resolved, App.startRecording_rejected, App.stopRecording,
    App.handleEvaluate_resolved, App.handleEvaluate_rejected,
    App.setShowSettings, App.setStatus, App.setAppError, App.setResult;
  cbn [App.status App.appError App.result App.apiKey App.localStorage
       App.showSettings];
  repeat match goal with |- _ /\ _ => split end;
  try solve [ assumption | reflexivity
            | let H := fresh in intros H; discriminate H
            | let H := fresh in intros [H | H]; discriminate H
            | let H := fresh in intros H; contradiction
            | intros _; assumption
            | intros _; eexists; reflexivity
            | intros _; apply errorMessage_truthy; discriminate ].

Section AppFacts.

Context {UploadedImage Theme Blob : Type}.
Variable trim : string -> string.

#[local] Abbreviation Action' := (App.Action (UploadedImage := UploadedImage)
                                    (Theme := Theme) (Blob := Blob)).

Lemma panelsConsistent_first_render (storage : gmap string string) :
  panelsConsistent (App.mountEffect (App.initial storage)).
Proof.
  unfold App.mountEffect, App.initial. cbn [App.localStorage].
  rewrite str_truthy_key.
  destruct (String.eqb_spec (interpolate (str_or (storage !! "gemini_api_key") (Some ""))) "")
    as [E | E]; cbn [negb]; unfold panelsConsistent;
    cbn [App.status App.appError App.result App.apiKey App.localStorage App.showSettings];
    repeat split; try discriminate; try reflexivity;
    try (intros [H | H]; discriminate); intros H; congruence.
Qed.

Lemma panelsConsistent_perform (a : Action') (s : App.State) :
  panelsConsistent s -> panelsConsistent (App.perform trim a s).
Proof.
  intros (Herr & Hres & Hkey & Hshow & Hbusy).
  assert (panelsConsistent s) as Hs by (repeat split; assumption).
  destruct a; cbn [App.perform].
  - (* SaveClicked *)
    unfold App.handleSave. destruct (String.eqb_spec (trim apiKey) "") as [E | E];
      [exact Hs | ].
    unfold App.handleSaveSettings. cbn [App.appError].
    destruct (str_truthy (App.appError s)) eqn:Et; panels;
      try (rewrite Et; exact Herr).
    all: rewrite lookup_insert_ne by discriminate; rewrite lookup_insert_eq;
      unfold str_or, str_truthy;
      destruct (String.eqb_spec (trim apiKey) ""); [contradiction | reflexivity].
  - (* CloseClicked *)
    unfold App.onClose. destruct (String.eqb_spec (App.apiKey s) "") as [E | E];
      cbn [negb]; [exact Hs | panels].
  - (* SettingsClicked *) panels.
  - (* GenerateClicked *)
    unfold App.handleGenerate.
    destruct (negb (bool_decide (is_Some uploadedImage))
              && String.eqb customThemeLabel ""
              && negb (bool_decide (is_Some selectedTheme))); [exact Hs | ].
    rewrite getApiKey_stored, <- Hkey.
    destruct (String.eqb_spec (App.apiKey s) "") as [E | E]; cbn [fst]; panels.
  - (* GenerateResolved *) panels.
  - (* GenerateRejected *) panels.
  - (* RetryClicked *) panels.
  - (* CancelGenerateClicked *) panels.
  - (* CancelEvaluateClicked *) panels.
  - (* RecordingStarted *) panels.
  - (* RecordingRejected *) panels.
  - (* StopClicked *) panels.
  - (* EvaluateClicked *)
    unfold App.handleEvaluate. destruct recordedBlob as [blob | ]; [ | exact Hs].
    rewrite getApiKey_stored, <- Hkey.
    destruct (String.eqb_spec (App.apiKey s) "") as [E | E]; cbn [fst]; panels.
  - (* EvaluateResolved *) panels.
  - (* EvaluateRejected *) panels.
  - (* Reloaded *)
    apply panelsConsistent_first_render.
Qed.

Lemma panelsConsistent_run (actions : list Action') :
  forall s : App.State,
    panelsConsistent s -> panelsConsistent (App.run trim actions s).
Proof.
  induction actions as [ | a rest IH]; intros s H; [exact H | ].
  cbn [App.run fold_left]. apply IH, panelsConsistent_perform, H.
Qed.

Lemma panelsConsistent_reachable (s : App.State) :
  App.reachable (UploadedImage := UploadedImage) (Theme := Theme) (Blob := Blob)
    trim s ->
  panelsConsistent s.
Proof.
  intros (storage & actions & ->).
  apply panelsConsistent_run, panelsConsistent_first_render.
Qed.

End AppFacts.

(** X8. Saving the settings: with a blank key field the dialog's handleSave
    changes nothing; otherwise it stores the trimmed key and the model, after
    which getApiKey returns the trimmed key, a non-empty model is the
    selected model and the first candidate, the dialog is closed, and a
    displayed error is cleared with the status back to IDLE. *)
Theorem X8_settings_saved (trim : string -> string) (apiKey selectedModel : string)
    (s : App.State) :
  let s' := App.handleSave trim apiKey selectedModel s in
  (trim apiKey = "" -> s' = s) /\
  (trim apiKey <> "" ->
   getApiKey (App.localStorage s') = inr (trim apiKey) /\
   App.apiKey s' = trim apiKey /\
   App.showSettings s' = false /\
   App.selectedModel s' = selectedModel /\
   (selectedModel <> "" ->
    getSelectedModel (App.localStorage s') = selectedModel /\
    head (getFallbackModels (App.localStorage s')) = Some selectedModel) /\
   (selectedModel = "" ->
    getSelectedModel (App.localStorage s') = "gemini-3-flash-preview") /\
   (str_truthy (App.appError s) = true ->
    App.status s' = App.IDLE /\ App.appError s' = None) /\
   (str_truthy (App.appError s) = false ->
    App.status s' = App.status s /\ App.appError s' = App.appError s)).
Proof.
  cbv zeta. unfold App.handleSave.
  destruct (String.eqb_spec (trim apiKey) "") as [E | E];
    (split; [intros H; try contradiction; reflexivity | ]);
    intros H; [contradiction | clear H].
  assert (forall st : App.State,
            App.localStorage st
            = <["selected_model" := selectedModel]>
                (<["gemini_api_key" := trim apiKey]> (App.localStorage s)) ->
            getApiKey (App.localStorage st) = inr (trim apiKey) /\
            (selectedModel <> "" ->
             getSelectedModel (App.localStorage st) = selectedModel /\
             head (getFallbackModels (App.localStorage st)) = Some selectedModel) /\
            (selectedModel = "" ->
             getSelectedModel (App.localStorage st) = "gemini-3-flash-preview"))
    as Hstore.
  { intros st ->. unfold getFallbackModels, getApiKey, getSelectedModel.
    rewrite lookup_insert_eq, lookup_insert_ne by discriminate.
    rewrite lookup_insert_eq. unfold str_or, str_truthy. split.
    - destruct (String.eqb_spec (trim apiKey) ""); [contradiction | ].
      cbn [negb interpolate].
      destruct (String.eqb_spec (trim apiKey) ""); [contradiction | reflexivity].
    - split.
      + intros Hm. destruct (String.eqb_spec selectedModel ""); [contradiction | ].
        split; reflexivity.
      + intros ->. reflexivity. }
  unfold App.handleSaveSettings. cbn [App.appError].
  destruct (str_truthy (App.appError s)) eqn:Et;
    unfold App.setStatus, App.setAppError;
    cbn [App.status App.appError App.result App.apiKey App.localStorage
         App.showSettings App.selectedModel];
    match goal with
    | |- getApiKey ?ls = _ /\ _ =>
        destruct (Hstore (App.mkState App.IDLE None false "" "" None ls) eq_refl)
          as (Hk & Hm & Hd)
    end;
    cbn [App.localStorage] in Hk, Hm, Hd;
    repeat split; try assumption; try reflexivity; try discriminate;
      try (intros; apply Hm; assumption); try (intros; apply Hd; assumption).
Qed.

Lemma X8_settings_saved_witness :
  getApiKey (App.localStorage
               (App.handleSave Ref.trim " AIza-new " "gemini-2.5-flash" failedState))
  = inr "AIza-new" /\
  App.status (App.handleSave Ref.trim " AIza-new " "gemini-2.5-flash" failedState)
  = App.IDLE.
Proof.
  assert (Ref.trim " AIza-new " <> "") as H by (vm_compute; discriminate).
  destruct (proj2 (X8_settings_saved Ref.trim " AIza-new " "gemini-2.5-flash" failedState) H)
    as (Hkey & _ & _ & _ & _ & _ & Herr & _).
  split; [exact Hkey | ]. apply Herr. reflexivity.
Defined.

(** X9. In every state the component can reach, whatever the order of the
    clicks and of the answers of the service, the panel selected by the
    status has the data it displays: in the ERROR status the error message
    is a non-empty text, and in the RESULT status an evaluation result is
    present. *)
Theorem X9_panels_have_data {UploadedImage Theme Blob : Type}
    (trim : string -> string) (s : App.State) :
  App.reachable (UploadedImage := UploadedImage) (Theme := Theme) (Blob := Blob)
    trim s ->
  (App.status s = App.ERROR ->
   exists msg : string, App.appError s = Some msg /\ msg <> "") /\
  (App.status s = App.RESULT ->
   exists res : EvaluationResult, App.result s = Some res).
Proof.
  intros Hr. apply panelsConsistent_reachable in Hr as (Herr & Hres & _). split.
  - intros H. apply Herr in H. destruct (App.appError s) as [msg | ]; [ | discriminate].
    exists msg. split; [reflexivity | ]. intros ->. discriminate.
  - intros H. apply Hres in H as [res H]. exists res. exact H.
Qed.

Lemma X9_panels_have_data_witness :
  let s := App.run (UploadedImage := unit) (Theme := unit) (Blob := unit) Ref.trim
             [App.GenerateClicked None "The Jungle" None;
              App.GenerateRejected (mkError None (Some 500) None)]
             (App.mountEffect (App.initial keyedStorage)) in
  App.status s = App.ERROR /\
  exists msg : string, App.appError s = Some msg /\ msg <> "".
Proof.
  cbv zeta. split; [reflexivity | ].
  apply (X9_panels_have_data (UploadedImage := unit) (Theme := unit) (Blob := unit)
           Ref.trim).
  - exists keyedStorage. eexists. reflexivity.
  - reflexivity.
Defined.

(** X10. In every reachable state the component's copy of the API key is
    the stored one, so the missing-key banner is shown exactly when
    getApiKey would fail, and while no key is stored the settings dialog is
    open.  No action removes a key: once getApiKey succeeds it succeeds in
    every later state. *)
Theorem X10_missing_key_is_visible {UploadedImage Theme Blob : Type}
    (trim : string -> string) (s : App.State) :
  App.reachable (UploadedImage := UploadedImage) (Theme := Theme) (Blob := Blob)
    trim s ->
  (App.apiKey s = "" <-> getApiKey (App.localStorage s) = inl (Error MISSING_KEY_MESSAGE)) /\
  (App.apiKey s <> "" -> getApiKey (App.localStorage s) = inr (App.apiKey s)) /\
  (App.apiKey s = "" -> App.showSettings s = true) /\
  (forall actions : list (App.Action (UploadedImage := UploadedImage)
                            (Theme := Theme) (Blob := Blob)),
     App.apiKey s <> "" ->
     exists key : string,
       getApiKey (App.localStorage (App.run trim actions s)) = inr key).
Proof.
  intros Hr.
  assert (forall st : App.State, panelsConsistent st ->
            (App.apiKey st = ""
             <-> getApiKey (App.localStorage st) = inl (Error MISSING_KEY_MESSAGE)) /\
            (App.apiKey st <> "" -> getApiKey (App.localStorage st) = inr (App.apiKey st)))
    as Hmirror.
  { intros st (_ & _ & Hkey & _). rewrite getApiKey_stored, <- Hkey.
    destruct (String.eqb_spec (App.apiKey st) "") as [E | E]; split.
    - split; [reflexivity | intros _; exact E].
    - intros H. contradiction.
    - split; [intros H; contradiction | discriminate].
    - reflexivity. }
  pose proof (panelsConsistent_reachable trim s Hr) as Hs.
  destruct (Hmirror s Hs) as [Hiff Hpresent].
  split; [exact Hiff | ]. split; [exact Hpresent | ].
  split; [apply Hs | ].
  intros actions. revert s Hr Hs Hiff Hpresent.
  induction actions as [ | a rest IH]; intros s Hr Hs Hiff Hpresent Hkey.
  - exists (App.apiKey s). now apply Hpresent.
  - cbn [App.run fold_left].
    assert (panelsConsistent (App.perform trim a s)) as Hs'
        by (apply panelsConsistent_perform, Hs).
    assert (App.reachable (UploadedImage := UploadedImage) (Theme := Theme)
              (Blob := Blob) trim (App.perform trim a s)) as Hr'.
    { destruct Hr as (storage & acts & ->). exists storage, (acts ++ [a]).
      unfold App.run. rewrite fold_left_app. reflexivity. }
    destruct (Hmirror _ Hs') as [Hiff' Hpresent'].
    apply (IH _ Hr' Hs' Hiff' Hpresent').
    (* the key is still there after [a] *)
    destruct Hs as (_ & _ & Hk & _). destruct Hs' as (_ & _ & Hk' & _).
    clear IH Hiff' Hpresent' Hr'.
    destruct a; cbn [App.perform] in *; try exact Hkey.
    + unfold App.handleSave in *.
      destruct (String.eqb_spec (trim apiKey) "") as [E | E]; [exact Hkey | ].
      unfold App.handleSaveSettings. cbn [App.appError].
      destruct (str_truthy (App.appError s)); exact E.
    + unfold App.onClose. destruct (negb (String.eqb (App.apiKey s) "")); exact Hkey.
    + unfold App.handleGenerate.
      destruct (negb (bool_decide (is_Some uploadedImage))
                && String.eqb customThemeLabel ""
                && negb (bool_decide (is_Some selectedTheme))); [exact Hkey | ].
      destruct (getApiKey (App.localStorage s)); exact Hkey.
    + unfold App.handleEvaluate. destruct recordedBlob; [ | exact Hkey].
      destruct (getApiKey (App.localStorage s)); exact Hkey.
    + unfold App.reload, App.mountEffect, App.initial.
      cbn [App.localStorage]. rewrite <- Hk.
      destruct (negb (str_truthy (App.localStorage s !! "gemini_api_key")));
        exact Hkey.
Qed.

Lemma X10_missing_key_is_visible_witness :
  App.showSettings (App.mountEffect (App.initial ∅)) = true /\
  getApiKey (App.localStorage (App.mountEffect (App.initial ∅)))
  = inl (Error MISSING_KEY_MESSAGE).
Proof.
  assert (App.reachable (UploadedImage := unit) (Theme := unit) (Blob := unit)
            Ref.trim (App.mountEffect (App.initial ∅))) as Hr
      by (exists ∅, []; reflexivity).
  destruct (X10_missing_key_is_visible Ref.trim _ Hr) as (Hiff & _ & Hshow & _).
  split; [apply Hshow; reflexivity | apply Hiff; reflexivity].
Defined.

(** X11. The component starts the service operations only with a key
    stored: in every reachable state whose status is GENERATING or
    EVALUATING, getApiKey succeeds, so an attempt of any operation passes its
    own key check and calls the service.  The missing-key error of
    getApiKey is therefore met in the handlers' own check, which opens the
    settings dialog and starts nothing. *)
Theorem X11_operations_start_with_key {UploadedImage Theme Blob : Type}
    (trim : string -> string) (s : App.State) :
  App.reachable (UploadedImage := UploadedImage) (Theme := Theme) (Blob := Blob)
    trim s ->
  (App.status s = App.GENERATING \/ App.status s = App.EVALUATING ->
   exists key : string,
     getApiKey (App.localStorage s) = inr key /\
     forall (S A : Type) (generateContent : string -> Request -> S -> outcome Response * S)
            (request : string -> Request) (post : Response -> result A)
            (model : string) (w : S),
       apiAttempt generateContent (App.localStorage s) request post model w
       = match generateContent key (request model) w with
         | (Resolved response, w') => (settle (post response), w')
         | (Rejected e, w') => (Rejected e, w')
         | (Unsettled, w') => (Unsettled, w')
         end) /\
  (forall (uploadedImage : option UploadedImage) (customThemeLabel : string)
          (selectedTheme : option Theme),
     getApiKey (App.localStorage s) = inl (Error MISSING_KEY_MESSAGE) ->
     is_Some uploadedImage \/ customThemeLabel <> "" \/ is_Some selectedTheme ->
     App.handleGenerate uploadedImage customThemeLabel selectedTheme s
     = (App.setShowSettings true s, false)) /\
  (forall recordedBlob : Blob,
     getApiKey (App.localStorage s) = inl (Error MISSING_KEY_MESSAGE) ->
     App.handleEvaluate (Some recordedBlob) s = (App.setShowSettings true s, false)).
Proof.
  intros Hr. pose proof (panelsConsistent_reachable trim s Hr) as Hs.
  destruct Hs as (_ & _ & Hkey & _ & Hbusy). split; [ | split].
  - intros Hst. apply Hbusy in Hst. exists (App.apiKey s).
    assert (getApiKey (App.localStorage s) = inr (App.apiKey s)) as Hk.
    { rewrite getApiKey_stored, <- Hkey.
      destruct (String.eqb_spec (App.apiKey s) ""); [contradiction | reflexivity]. }
    split; [exact Hk | ]. intros. unfold apiAttempt. rewrite Hk. reflexivity.
  - intros uploadedImage customThemeLabel selectedTheme Hmiss Hchosen.
    unfold App.handleGenerate. rewrite Hmiss.
    destruct Hchosen as [H | [H | H]].
    + rewrite (bool_decide_eq_true_2 _ H). reflexivity.
    + destruct (String.eqb_spec customThemeLabel ""); [contradiction | ].
      rewrite andb_false_r. reflexivity.
    + rewrite (bool_decide_eq_true_2 _ H), andb_false_r. reflexivity.
  - intros recordedBlob Hmiss. unfold App.handleEvaluate. rewrite Hmiss. reflexivity.
Qed.

Lemma X11_operations_start_with_key_witness :
  let s := App.run (UploadedImage := unit) (Theme := unit) (Blob := unit) Ref.trim
             [App.GenerateClicked None "The Jungle" None]
             (App.mountEffect (App.initial keyedStorage)) in
  App.status s = App.GENERATING /\
  exists key : string, getApiKey (App.localStorage s) = inr key.
Proof.
  cbv zeta. split; [reflexivity | ].
  assert (App.reachable (UploadedImage := unit) (Theme := unit) (Blob := unit) Ref.trim
            (App.run (UploadedImage := unit) (Theme := unit) (Blob := unit) Ref.trim
               [App.GenerateClicked None "The Jungle" None]
               (App.mountEffect (App.initial keyedStorage)))) as Hr
      by (exists keyedStorage; eexists; reflexivity).
  destruct (proj1 (X11_operations_start_with_key Ref.trim _ Hr)) as (key & Hk & _).
  - left. reflexivity.
  - exists key. exact Hk.
Defined.

(** ** The illustration service and its page *)

Lemma json_or_truthy (value : option json) :
  json_truthy (json_or value (JString "")) = true \/ json_or value (JString "") = JString "".
Proof.
  destruct value as [v | ]; [ | now right]. unfold json_or.
  destruct (json_truthy v) eqn:E; [left; exact E | now right].
Qed.

(** X12. The text generator of the illustration service never fails on
    the content of an answer: whenever the service call resolves,
    generateContent resolves, and it rejects only with a rejection of the
    service call itself.  A body that is not JSON, or that is null, gives
    the result with both fields empty; so does an absent or empty body (read
    as {}); an object gives its prompt and readingText members, each
    replaced by the empty text when it is absent or falsy. *)
Theorem X12_generateContent_tolerates_any_body (JSON_parse : string -> result json)
    {S : Type} (service : Illustrator.Request -> S -> outcome Illustrator.Response * S)
    (input : string) (level : Illustrator.EnglishLevel) (imageData : option string)
    (w : S) :
  (exists request : Illustrator.Request,
     Illustrator.model request = "gemini-3-flash-preview" /\
     Illustrator.config request = Illustrator.TextConfig level /\
     Illustrator.generateContent JSON_parse service input level imageData w
     = match service request w with
       | (Resolved response, w') =>
           (Resolved (Illustrator.parseGenerated JSON_parse response), w')
       | (Rejected e, w') => (Rejected e, w')
       | (Unsettled, w') => (Unsettled, w')
       end) /\
  (forall response : Illustrator.Response,
     let g := Illustrator.parseGenerated JSON_parse response in
     let body := interpolate (str_or (Illustrator.text response) (Some "{}")) in
     (json_truthy (Illustrator.prompt g) = true \/ Illustrator.prompt g = JString "") /\
     (json_truthy (Illustrator.readingText g) = true
      \/ Illustrator.readingText g = JString "") /\
     ((exists e, JSON_parse body = inl e) \/ JSON_parse body = inr JNull ->
      g = Illustrator.mkGenerated (JString "") (JString "")) /\
     (forall members : gmap string json,
        JSON_parse body = inr (JObject members) ->
        g = Illustrator.mkGenerated (json_or (members !! "prompt") (JString ""))
              (json_or (members !! "readingText") (JString ""))) /\
     (Illustrator.text response = None \/ Illustrator.text response = Some "" ->
      body = "{}")).
Proof.
  split.
  - unfold Illustrator.generateContent. cbv zeta. eexists.
    split; [ | split; [ | reflexivity]]; reflexivity.
  - intros response. cbv zeta. unfold Illustrator.parseGenerated.
    destruct (JSON_parse (interpolate (str_or (Illustrator.text response) (Some "{}"))))
      as [e | [ | b | x | str | items | members]] eqn:E;
      cbn [Illustrator.prompt Illustrator.readingText];
      (split; [try apply json_or_truthy; now right | ]);
      (split; [try apply json_or_truthy; now right | ]);
      (split; [ | split]);
      try (intros [[e' He'] | He']; (discriminate || reflexivity));
      try (intros ms Hms; (discriminate || (injection Hms as <-; reflexivity)));
      intros [H | H]; rewrite H; reflexivity.
Qed.

Lemma firstImage_none (responseParts : list Illustrator.ResponsePart) :
  Forall (fun part => Illustrator.inlineData part = None) responseParts ->
  Illustrator.firstImage responseParts = inl (Error Illustrator.NO_IMAGE_MESSAGE).
Proof.
  induction 1 as [ | part rest Hpart _ IH]; [reflexivity | ].
  cbn [Illustrator.firstImage]. rewrite Hpart. exact IH.
Qed.

(** X13. generateImage returns the data URL of the first part of the answer
    that carries inline data, whatever follows it, and fails with its "no
    image" error exactly when no part does (in particular for an answer
    without candidate). *)
Theorem X13_generateImage_first_image
    (responseParts : list Illustrator.ResponsePart) :
  (forall (before after : list Illustrator.ResponsePart) (data : option string),
     responseParts = before ++ Illustrator.mkResponsePart (Some data) :: after ->
     Forall (fun part => Illustrator.inlineData part = None) before ->
     Illustrator.firstImage responseParts
     = inr (Illustrator.DATA_URL_PREFIX ++ interpolate data)%string) /\
  (Illustrator.firstImage responseParts = inl (Error Illustrator.NO_IMAGE_MESSAGE)
   <-> Forall (fun part => Illustrator.inlineData part = None) responseParts) /\
  (forall url : string,
     Illustrator.firstImage responseParts = inr url ->
     exists (before after : list Illustrator.ResponsePart) (data : option string),
       responseParts = before ++ Illustrator.mkResponsePart (Some data) :: after /\
       Forall (fun part => Illustrator.inlineData part = None) before /\
       url = (Illustrator.DATA_URL_PREFIX ++ interpolate data)%string) /\
  (forall (S : Type) (service : Illustrator.Request -> S -> outcome Illustrator.Response * S)
          (prompt : json) (ratio : option Illustrator.AspectRatio) (w w' : S)
          (body : option string),
     (forall request, service request w
                      = (Resolved (Illustrator.mkResponse body None), w')) ->
     Illustrator.generateImage service prompt ratio w
     = (Rejected (Error Illustrator.NO_IMAGE_MESSAGE), w')).
Proof.
  assert (forall (ps : list Illustrator.ResponsePart) (url : string),
            Illustrator.firstImage ps = inr url ->
            exists (before after : list Illustrator.ResponsePart) (data : option string),
              ps = before ++ Illustrator.mkResponsePart (Some data) :: after /\
              Forall (fun part => Illustrator.inlineData part = None) before /\
              url = (Illustrator.DATA_URL_PREFIX ++ interpolate data)%string) as Hfound.
  { induction ps as [ | [[data | ]] rest IH]; intros url H; [discriminate | | ].
    - injection H as <-. exists [], rest, data. repeat split. constructor.
    - cbn [Illustrator.firstImage Illustrator.inlineData] in H.
      destruct (IH url H) as (before & after & data & -> & Hall & ->).
      exists (Illustrator.mkResponsePart None :: before), after, data.
      repeat split. constructor; [reflexivity | exact Hall]. }
  assert (forall (before after : list Illustrator.ResponsePart) (data : option string),
            Forall (fun part => Illustrator.inlineData part = None) before ->
            Illustrator.firstImage (before ++ Illustrator.mkResponsePart (Some data) :: after)
            = inr (Illustrator.DATA_URL_PREFIX ++ interpolate data)%string) as Hfirst.
  { intros before after data Hall.
    induction Hall as [ | part rest Hpart _ IH]; [reflexivity | ].
    cbn [app Illustrator.firstImage]. rewrite Hpart. exact IH. }
  split; [intros before after data ->; apply Hfirst | ].
  split; [ | split; [apply Hfound | ]].
  - split; [ | apply firstImage_none].
    induction responseParts as [ | [[data | ]] rest IH]; intros H;
      [constructor | discriminate | ].
    constructor; [reflexivity | apply IH, H].
  - intros S service prompt ratio w w' body Hservice.
    unfold Illustrator.generateImage. rewrite Hservice. reflexivity.
Qed.

Lemma X13_generateImage_first_image_witness :
  Illustrator.firstImage
    [Illustrator.mkResponsePart None;
     Illustrator.mkResponsePart (Some (Some "iVBORw0KGgo="));
     Illustrator.mkResponsePart (Some (Some "AAAA"))]
  = inr "data:image/png;base64,iVBORw0KGgo=".
Proof.
  apply (proj1 (X13_generateImage_first_image _)
           [Illustrator.mkResponsePart None]
           [Illustrator.mkResponsePart (Some (Some "AAAA"))] (Some "iVBORw0KGgo="));
    [reflexivity | ].
  repeat constructor.
Defined.

Lemma firstImage_url (responseParts : list Illustrator.ResponsePart) (url : string) :
  Illustrator.firstImage responseParts = inr url ->
  String.prefix Illustrator.DATA_URL_PREFIX url = true.
Proof.
  induction responseParts as [ | [[data | ]] rest IH]; intros H; [discriminate | | ].
  - injection H as <-. apply prefix_app.
  - apply IH, H.
Qed.

(** X14. One run of the page's handleGenerate.  With neither a topic nor an
    image it only sets the "nothing entered" error and does not call the
    service.  Otherwise, when the run has ended (isGenerating is false
    again) exactly one of two things holds: an image is displayed and there
    is no error, or the fixed error message is set and no image is
    displayed; a displayed image is always a PNG data URL.  While a call is
    still pending there is neither image nor error. *)
Theorem X14_page_run (JSON_parse : string -> result json) {S : Type}
    (service : Illustrator.Request -> S -> outcome Illustrator.Response * S)
    (s : Illustrator.State) (w : S) :
  let s' := fst (Illustrator.handleGenerate JSON_parse service s w) in
  (Illustrator.topic s = "" /\ str_truthy (Illustrator.imagePreview s) = false ->
   Illustrator.handleGenerate JSON_parse service s w
   = (Illustrator.mkState (Illustrator.topic s) (Illustrator.level s)
        (Illustrator.imagePreview s) (Illustrator.aspectRatio s)
        (Illustrator.isGenerating s) (Illustrator.generatedImage s)
        (Illustrator.generatedPrompt s) (Illustrator.readingText' s)
        (Some Illustrator.NOTHING_ENTERED), w)) /\
  (Illustrator.topic s <> "" \/ str_truthy (Illustrator.imagePreview s) = true ->
   (Illustrator.isGenerating s' = false ->
    (exists url : string,
       Illustrator.generatedImage s' = Some url /\
       String.prefix Illustrator.DATA_URL_PREFIX url = true /\
       Illustrator.error s' = None /\
       is_Some (Illustrator.readingText' s'))
    \/ (Illustrator.generatedImage s' = None /\
        Illustrator.error s' = Some Illustrator.GENERATION_FAILED)) /\
   (Illustrator.isGenerating s' = true ->
    Illustrator.generatedImage s' = None /\ Illustrator.error s' = None)).
Proof.
  cbv zeta. unfold Illustrator.handleGenerate. split.
  - intros [-> Himg]. rewrite Himg. reflexivity.
  - intros Hin.
    assert (String.eqb (Illustrator.topic s) ""
            && negb (str_truthy (Illustrator.imagePreview s)) = false) as ->.
    { destruct Hin as [H | H].
      - destruct (String.eqb_spec (Illustrator.topic s) ""); [contradiction | reflexivity].
      - rewrite H. apply andb_false_r. }
    cbv zeta.
    destruct (Illustrator.generateContent JSON_parse service _ _ _ w) as [[g | e | ] w1];
      cbn [fst Illustrator.isGenerating Illustrator.generatedImage Illustrator.error
           Illustrator.readingText' Illustrator.topic Illustrator.level
           Illustrator.imagePreview Illustrator.aspectRatio Illustrator.generatedPrompt].
    + unfold Illustrator.generateImage.
      destruct (service _ w1) as [[response | e | ] w2];
        cbn [fst Illustrator.isGenerating Illustrator.generatedImage Illustrator.error
             Illustrator.readingText' Illustrator.topic Illustrator.level
             Illustrator.imagePreview Illustrator.aspectRatio
             Illustrator.generatedPrompt].
      * destruct (Illustrator.firstImage _) as [e | url] eqn:E;
          cbn [settle fst Illustrator.isGenerating Illustrator.generatedImage
               Illustrator.error Illustrator.readingText'].
        -- split; [intros _; right; split; reflexivity | discriminate].
        -- split; [ | discriminate]. intros _. left. exists url.
           split; [reflexivity | ]. split; [exact (firstImage_url _ _ E) | ].
           split; [reflexivity | eexists; reflexivity].
      * split; [intros _; right; split; reflexivity | discriminate].
      * split; [discriminate | intros _; split; reflexivity].
    + split; [intros _; right; split; reflexivity | discriminate].
    + split; [discriminate | intros _; split; reflexivity].
Qed.

Lemma X14_page_run_witness :
  let s' := fst (Illustrator.handleGenerate Ref.JSON_parse proseThenPicture
                   jungleForm 0%nat) in
  (exists url : string,
     Illustrator.generatedImage s' = Some url /\
     String.prefix Illustrator.DATA_URL_PREFIX url = true /\
     Illustrator.error s' = None /\
     is_Some (Illustrator.readingText' s'))
  \/ (Illustrator.generatedImage s' = None /\
      Illustrator.error s' = Some Illustrator.GENERATION_FAILED).
Proof.
  assert (Illustrator.topic jungleForm <> ""
          \/ str_truthy (Illustrator.imagePreview jungleForm) = true) as Hin
      by (left; discriminate).
  apply (proj1 (proj2 (X14_page_run Ref.JSON_parse proseThenPicture jungleForm 0%nat)
                  Hin)).
  reflexivity.
Defined.

(** X15. A text answer that is not JSON is not reported by the page: the
    text generator turns it into an empty prompt and an empty reading text,
    the image is then requested with the empty prompt, and when that request
    succeeds the run ends without error, with an image set, and with the
    poster not shown, since the reading text is empty. *)
Theorem X15_malformed_text_is_silent (JSON_parse : string -> result json) {S : Type}
    (service : Illustrator.Request -> S -> outcome Illustrator.Response * S)
    (s : Illustrator.State) (w w1 w2 : S)
    (answer picture : Illustrator.Response) (url : string) :
  Illustrator.topic s <> "" ->
  (forall request : Illustrator.Request,
     Illustrator.config request = Illustrator.TextConfig (Illustrator.level s) ->
     service request w = (Resolved answer, w1)) ->
  (exists e : JsError,
     JSON_parse (interpolate (str_or (Illustrator.text answer) (Some "{}"))) = inl e) ->
  service (Illustrator.mkRequest "gemini-2.5-flash-image"
             [Illustrator.TextPart (JString "")]
             (Illustrator.ImageConfig (Illustrator.aspectRatio s))) w1
  = (Resolved picture, w2) ->
  Illustrator.firstImage (default [] (Illustrator.candidateParts picture)) = inr url ->
  let s' := fst (Illustrator.handleGenerate JSON_parse service s w) in
  snd (Illustrator.handleGenerate JSON_parse service s w) = w2 /\
  Illustrator.error s' = None /\
  Illustrator.isGenerating s' = false /\
  Illustrator.generatedImage s' = Some url /\
  Illustrator.generatedPrompt s' = Some (JString "") /\
  Illustrator.readingText' s' = Some (JString "") /\
  Illustrator.posterShown s' = false.
Proof.
  intros Htopic Htext [e Hparse] Himage Hfirst. cbv zeta.
  unfold Illustrator.handleGenerate.
  destruct (String.eqb_spec (Illustrator.topic s) ""); [contradiction | ].
  cbn [andb]. cbv zeta. unfold Illustrator.generateContent. cbv zeta.
  rewrite Htext by reflexivity.
  unfold Illustrator.parseGenerated. rewrite Hparse.
  cbn [Illustrator.prompt Illustrator.readingText].
  unfold Illustrator.generateImage. cbn [from_option id]. rewrite Himage.
  cbn [from_option id] in Hfirst.
  replace (match Illustrator.candidateParts picture with
           | Some ps => ps
           | None => []
           end) with (default [] (Illustrator.candidateParts picture))
    by (destruct (Illustrator.candidateParts picture); reflexivity).
  rewrite Hfirst.
  cbn [settle fst snd Illustrator.error Illustrator.isGenerating
       Illustrator.generatedImage Illustrator.generatedPrompt Illustrator.readingText'].
  repeat split. unfold Illustrator.posterShown.
  cbn [Illustrator.readingText' json_truthy String.eqb negb]. apply andb_false_r.
Qed.

Lemma X15_malformed_text_is_silent_witness :
  let s' := fst (Illustrator.handleGenerate Ref.JSON_parse proseThenPicture
                   jungleForm 0%nat) in
  Illustrator.error s' = None /\
  Illustrator.generatedImage s' = Some "data:image/png;base64,iVBORw0KGgo=" /\
  Illustrator.posterShown s' = false.
Proof.
  assert (Illustrator.topic jungleForm <> "") as H1 by discriminate.
  assert (forall request : Illustrator.Request,
            Illustrator.config request
            = Illustrator.TextConfig (Illustrator.level jungleForm) ->
            proseThenPicture request 0%nat
            = (Resolved (Illustrator.mkResponse (Some "Here is your story!") None), 1%nat))
    as H2.
  { intros request H. unfold proseThenPicture. rewrite H. reflexivity. }
  assert (exists e : JsError,
            Ref.JSON_parse
              (interpolate (str_or (Illustrator.text
                                      (Illustrator.mkResponse (Some "Here is your story!") None))
                              (Some "{}"))) = inl e) as H3
      by (eexists; vm_compute; reflexivity).
  destruct (X15_malformed_text_is_silent Ref.JSON_parse proseThenPicture jungleForm
              0%nat 1%nat 2%nat _ _ "data:image/png;base64,iVBORw0KGgo="
              H1 H2 H3 eq_refl eq_refl)
    as (_ & Herr & _ & Himg & _ & _ & Hposter).
  cbv zeta. split; [exact Herr | ]. split; [exact Himg | exact Hposter].
Defined.

(** ** Data URLs *)

Lemma afterComma_app (header rest : string) :
  afterComma header = None ->
  afterComma (header ++ "," ++ rest) = Some rest.
Proof.
  induction header as [ | c header IH]; intros H; [reflexivity | ].
  simpl in *. destruct (c =? ",")%char; [discriminate | apply IH, H].
Qed.

Lemma untilComma_no_comma (s : string) : afterComma s = None -> untilComma s = s.
Proof.
  induction s as [ | c s IH]; intros H; [reflexivity | ].
  simpl in *. destruct (c =? ",")%char; [discriminate | ]. f_equal. apply IH, H.
Qed.

(** X16. Taking the payload out of a data URL with split(",")[1]: for a URL
    made of a header without comma, a comma and a payload without comma
    (the base64 alphabet has none), the result is the payload; a text
    without comma gives undefined.  So the text generator sends the payload
    of the uploaded image, always labelled image/jpeg whatever the header
    says, and the URL built by generateImage gives back the data it was
    built from. *)
Theorem X16_data_url_payload (header payload : string) :
  afterComma header = None ->
  afterComma payload = None ->
  split_comma_1 (header ++ "," ++ payload) = Some payload /\
  split_comma_1 header = None /\
  split_comma_1 (Illustrator.DATA_URL_PREFIX ++ payload) = Some payload /\
  (forall (JSON_parse : string -> result json) (S : Type)
          (service : Illustrator.Request -> S -> outcome Illustrator.Response * S)
          (input : string) (level : Illustrator.EnglishLevel) (w : S),
     exists topic : Illustrator.Part,
       Illustrator.generateContent JSON_parse service input level
         (Some (header ++ "," ++ payload)%string) w
       = match service (Illustrator.mkRequest "gemini-3-flash-preview"
                          [topic; Illustrator.InlineDataPart "image/jpeg" (Some payload)]
                          (Illustrator.TextConfig level)) w with
         | (Resolved response, w') =>
             (Resolved (Illustrator.parseGenerated JSON_parse response), w')
         | (Rejected e, w') => (Rejected e, w')
         | (Unsettled, w') => (Unsettled, w')
         end).
Proof.
  intros Hh Hp.
  assert (split_comma_1 (header ++ "," ++ payload) = Some payload) as Hsplit.
  { unfold split_comma_1. rewrite afterComma_app by exact Hh.
    cbn [option_map]. rewrite untilComma_no_comma by exact Hp. reflexivity. }
  split; [exact Hsplit | ]. split; [unfold split_comma_1; rewrite Hh; reflexivity | ].
  split.
  - unfold split_comma_1.
    change (Illustrator.DATA_URL_PREFIX ++ payload)%string
      with ("data:image/png;base64" ++ "," ++ payload)%string.
    rewrite afterComma_app by reflexivity.
    cbn [option_map]. rewrite untilComma_no_comma by exact Hp. reflexivity.
  - intros JSON_parse S service input level w. eexists.
    unfold Illustrator.generateContent. cbv zeta.
    assert (String.eqb (header ++ "," ++ payload) "" = false) as ->.
    { destruct header; reflexivity. }
    cbn [negb]. rewrite Hsplit. reflexivity.
Qed.

Lemma X16_data_url_payload_witness :
  split_comma_1 "data:image/webp;base64,UklGRg==" = Some "UklGRg==".
Proof.
  assert (afterComma "data:image/webp;base64" = None) as Hh by reflexivity.
  assert (afterComma "UklGRg==" = None) as Hp by reflexivity.
  exact (proj1 (X16_data_url_payload "data:image/webp;base64" "UklGRg==" Hh Hp)).
Defined.

(** ** Where the result of a call comes from *)

Section OrchestratorOrigin.

Variable toLowerCase : string -> string.
Context {S T : Type}.
Variable fn : string -> S -> outcome T * S.
Variable maxRetriesPerModel : nat.
Variable timeoutMs : number.

Lemma attemptLoop_success (M : string) (n : nat) :
  forall (a : nat) (d : number) (r : Run) (v : T) (r' : Run),
    attemptLoop toLowerCase fn maxRetriesPerModel timeoutMs M n a d r = (Some v, r') ->
    exists (w : S) (tr : list event),
      fst (fn M w) = Resolved v /\ trace r' = tr ++ [Attempt M].
Proof.
  induction n as [ | n IH]; intros a d r v r' H; cbn [attemptLoop] in H;
    [discriminate | ].
  destruct (fn M (world r)) as [p w] eqn:Hfn.
  destruct p as [v' | e | ]; cbn [withTimeout] in H.
  - injection H as <- <-. exists (world r), (trace r). rewrite Hfn. split; reflexivity.
  - destruct (isTimeoutError toLowerCase e); [discriminate | ].
    destruct (isQuotaError toLowerCase e && (a <? maxRetriesPerModel - 1)%nat);
      [ | discriminate].
    apply IH in H. exact H.
  - destruct (isTimeoutError toLowerCase _); [discriminate | ].
    destruct (isQuotaError toLowerCase _ && (a <? maxRetriesPerModel - 1)%nat);
      [ | discriminate].
    apply IH in H. exact H.
Qed.

Lemma modelLoop_success (models : list string) :
  forall (r : Run) (v : T) (r' : Run),
    modelLoop toLowerCase fn maxRetriesPerModel timeoutMs models r = (Some v, r') ->
    exists (M : string) (w : S) (tr : list event),
      M ∈ models /\ fst (fn M w) = Resolved v /\ trace r' = tr ++ [Attempt M].
Proof.
  induction models as [ | m rest IH]; intros r v r' H; cbn [modelLoop] in H;
    [discriminate | ].
  destruct (attemptLoop toLowerCase fn maxRetriesPerModel timeoutMs m
              maxRetriesPerModel 0 (num 1500) r) as [[v' | ] r1] eqn:E.
  - injection H as <- <-. apply attemptLoop_success in E as (w & tr & Hv & Htr).
    exists m, w, tr. split; [left | split; assumption].
  - apply IH in H as (M & w & tr & HM & Hv & Htr).
    exists M, w, tr. split; [now right | split; assumption].
Qed.

(** When every attempt on every model fails with the same error [e] in a
    way that is not retried, the call fails with the aggregate error of
    [e] after one attempt per model. *)
Lemma callWithRetry_all_fail (ls : localStorage) (w : S) (e : JsError) :
  (1 <= maxRetriesPerModel)%nat ->
  (forall (m : string) (w' : S), m ∈ getFallbackModels ls ->
     withTimeout (fst (fn m w')) timeoutMs ("Model " ++ m) = inl e) ->
  isTimeoutError toLowerCase e = true \/ isQuotaError toLowerCase e = false
    \/ (maxRetriesPerModel <= 1)%nat ->
  exists r : Run,
    callWithRetry toLowerCase fn maxRetriesPerModel timeoutMs ls w
    = (inl (Error (aggregateMessage (Some e))), r) /\
    trace r = List.map Attempt (getFallbackModels ls).
Proof.
  intros Hmax Hfail Hwhy.
  destruct (modelLoop_single_attempts toLowerCase fn maxRetriesPerModel timeoutMs
              (fun _ => True) (fun _ e' => e' = e) (getFallbackModels ls) Hmax)
    with (r := mkRun w [] None) as (r & Hloop & Htr & _ & Hlast).
  - intros m w' Hm _. destruct (fn m w') as [p w''] eqn:Hfn.
    exists p, w'', e. split; [reflexivity | ].
    pose proof (Hfail m w' Hm) as H. rewrite Hfn in H.
    split; [exact H | ]. split; [exact Hwhy | split; [exact I | reflexivity]].
  - exact I.
  - exists r. unfold callWithRetry. cbv zeta. rewrite Hloop.
    destruct Hlast as [[Hnil _] | (m & e' & _ & Hl & ->)]; [discriminate | ].
    rewrite Hl. split; [reflexivity | exact Htr].
Qed.

End OrchestratorOrigin.

Lemma callWithRetry_success (toLowerCase : string -> string) {S T : Type}
    (fn : string -> S -> outcome T * S) (maxRetriesPerModel : nat)
    (timeoutMs : number) (ls : localStorage) (w : S) (v : T) (r : Run) :
  callWithRetry toLowerCase fn maxRetriesPerModel timeoutMs ls w = (inr v, r) ->
  exists (M : string) (w' : S) (tr : list event),
    M ∈ getFallbackModels ls /\
    fst (fn M w') = Resolved v /\
    trace r = tr ++ [Attempt M].
Proof.
  intros H. unfold callWithRetry in H. cbv zeta in H.
  destruct (modelLoop toLowerCase fn maxRetriesPerModel timeoutMs
              (getFallbackModels ls) (mkRun w [] None)) as [[v' | ] r'] eqn:E;
    [ | discriminate].
  injection H as <- <-. apply modelLoop_success in E. exact E.
Qed.

(** X17. A value returned by callWithRetry is the value with which the
    callback resolved on one of the candidate models, and that attempt is
    the last event of the run: nothing is attempted and no wait is made after
    a success. *)
Theorem X17_success_is_last_attempt (toLowerCase : string -> string) {S T : Type}
    (fn : string -> S -> outcome T * S) (maxRetriesPerModel : nat)
    (timeoutMs : number) (ls : localStorage) (w : S) (v : T) (r : Run) :
  callWithRetry toLowerCase fn maxRetriesPerModel timeoutMs ls w = (inr v, r) ->
  exists (M : string) (w' : S) (tr : list event),
    M ∈ getFallbackModels ls /\
    fst (fn M w') = Resolved v /\
    trace r = tr ++ [Attempt M].
Proof.
  intros H. unfold callWithRetry in H. cbv zeta in H.
  destruct (modelLoop toLowerCase fn maxRetriesPerModel timeoutMs
              (getFallbackModels ls) (mkRun w [] None)) as [[v' | ] r'] eqn:E;
    [ | discriminate].
  injection H as <- <-.
  exact (modelLoop_success toLowerCase fn maxRetriesPerModel timeoutMs _ _ _ _ E).
Qed.

Lemma X17_success_is_last_attempt_witness :
  exists (M : string) (w' : nat) (tr : list event),
    fst (quotaTwice M w') = Resolved 42%nat /\
    trace (snd (callWithRetry Ref.toLowerCase quotaTwice 3 (num 60000) ∅ 0%nat))
    = tr ++ [Attempt M].
Proof.
  destruct (callWithRetry Ref.toLowerCase quotaTwice 3 (num 60000) ∅ 0%nat)
    as [[e | v] r] eqn:E; [vm_compute in E; discriminate | ].
  assert (v = 42%nat) as -> by (vm_compute in E; congruence).
  destruct (X17_success_is_last_attempt Ref.toLowerCase quotaTwice 3 (num 60000) ∅
              0%nat 42%nat r E) as (M & w' & tr & _ & Hv & Htr).
  exists M, w', tr. split; [exact Hv | exact Htr].
Defined.

Section BuilderOrigin.

Variable toLowerCase : string -> string.
Context {S : Type}.
Variable generateContent : string -> Request -> S -> outcome Response * S.
Variable ls : localStorage.

(** A value returned by an operation is the post-processing of an answer
    of the service. *)
Lemma apiCall_success_origin {A : Type} (request : string -> Request)
    (post : Response -> result A) (w : S) (v : A) (r : Run) :
  apiCall toLowerCase generateContent ls request post w = (inr v, r) ->
  exists (key model : string) (w' : S) (response : Response),
    getApiKey ls = inr key /\
    fst (generateContent key (request model) w') = Resolved response /\
    post response = inr v.
Proof.
  intros H. unfold apiCall in H.
  apply callWithRetry_success in H as (M & w' & tr & _ & Hv & _).
  unfold apiAttempt in Hv.
  destruct (getApiKey ls) as [e | key]; [discriminate | ].
  destruct (generateContent key (request M) w') as [[response | e | ] w''] eqn:Hg;
    cbn [fst] in Hv; try discriminate.
  exists key, M, w', response. rewrite Hg.
  split; [reflexivity | ]. split; [reflexivity | ].
  destruct (post response); cbn [settle] in Hv; [discriminate | ].
  injection Hv as ->. reflexivity.
Qed.

(** When the service answers every request and the post-processing of
    every answer fails with the same error, the operation fails with the
    aggregate error of that error after one attempt per candidate. *)
Lemma apiCall_post_fails {A : Type} (request : string -> Request)
    (post : Response -> result A) (w : S) (key : string) (e : JsError) :
  getApiKey ls = inr key ->
  (forall (m : string) (w' : S),
     exists (response : Response) (w'' : S),
       generateContent key (request m) w' = (Resolved response, w'') /\
       post response = inl e) ->
  exists r : Run,
    apiCall toLowerCase generateContent ls request post w
    = (inl (Error (aggregateMessage (Some e))), r) /\
    trace r = List.map Attempt (getFallbackModels ls).
Proof.
  intros Hkey Hpost. unfold apiCall.
  apply callWithRetry_all_fail; [lia | | right; right; lia].
  intros m w' _. unfold apiAttempt. rewrite Hkey.
  destruct (Hpost m w') as (response & w'' & -> & ->). reflexivity.
Qed.

End BuilderOrigin.

(** ** Results of the operations *)



(** X19. An answer of the speech model without audio data is not detected
    as such: generateTeacherVoice decodes the text "undefined", which atob
    refuses, so every attempt fails in the decoder and the operation fails
    with the aggregate error built from atob's error, after one attempt per
    candidate model (each of them asking the same speech model). *)
Theorem X19_voice_without_audio (toLowerCase : string -> string)
    (atob : string -> result (list Byte.byte))
    (newAudioContext : number -> AudioContext) {S : Type}
    (generateContent : string -> Request -> S -> outcome Response * S)
    (ls : localStorage) (key : string) (e : JsError) (text : string) (w : S) :
  getApiKey ls = inr key ->
  atob "undefined" = inl e ->
  (forall (w' : S),
     exists (body : option string) (w'' : S),
       generateContent key
         (mkRequest "gemini-2.5-flash-preview-tts" (VoiceContents text)) w'
       = (Resolved (mkResponse body None), w'')) ->
  exists r : Run,
    generateTeacherVoice toLowerCase atob newAudioContext generateContent ls text w
    = (inl (Error (aggregateMessage (Some e))), r) /\
    trace r = List.map Attempt (getFallbackModels ls).
Proof.
  intros Hkey Hatob Hservice. unfold generateTeacherVoice.
  apply (apiCall_post_fails toLowerCase generateContent ls _ _ w key e Hkey).
  intros m w'. destruct (Hservice w') as (body & w'' & Hg).
  exists (mkResponse body None), w''. split; [exact Hg | ].
  unfold decode. cbn [inlineData interpolate]. rewrite Hatob. reflexivity.
Qed.

Lemma X19_voice_without_audio_witness :
  exists (e : JsError) (r : Run),
    generateTeacherVoice Ref.toLowerCase Ref.atob (fun _ => Ref.audioContext)
      mutedService keyedStorage "Hello everyone" 0%nat
    = (inl (Error (aggregateMessage (Some e))), r) /\
    trace r = List.map Attempt (getFallbackModels keyedStorage).
Proof.
  assert (getApiKey keyedStorage = inr "AIza-test") as Hkey by (vm_compute; reflexivity).
  assert (Ref.atob "undefined"
          = inl (Error "The string to be decoded is not correctly encoded.")) as Hatob
      by (vm_compute; reflexivity).
  assert (forall w' : nat,
            exists (body : option string) (w'' : nat),
              mutedService "AIza-test"
                (mkRequest "gemini-2.5-flash-preview-tts" (VoiceContents "Hello everyone")) w'
              = (Resolved (mkResponse body None), w'')) as Hservice
      by (intros w'; exists None, (Datatypes.S w'); reflexivity).
  destruct (X19_voice_without_audio Ref.toLowerCase Ref.atob (fun _ => Ref.audioContext)
              mutedService keyedStorage "AIza-test" _ "Hello everyone" 0%nat
              Hkey Hatob Hservice) as (r & Hr & Htr).
  eexists. exists r. split; [exact Hr | exact Htr].
Defined.

(** X20. The JSON text null is a valid body with opposite effects: the
    script builders return null to their caller after one attempt, while the
    evaluator (in both revisions) fails on reading a score of null, on every
    candidate model, and the operation fails with the aggregate error. *)
Theorem X20_null_body (toLowerCase : string -> string)
    (JSON_parse : string -> result json) (StringToNumber : string -> number)
    (today : string) {S : Type}
    (generateContent : string -> Request -> S -> outcome Response * S)
    (ls : localStorage) (key : string) (w : S) :
  JSON_parse "null" = inr JNull ->
  getApiKey ls = inr key ->
  (forall (request : Request) (w' : S),
     exists w'' : S,
       generateContent key request w' = (Resolved (mkResponse (Some "null") None), w'')) ->
  (forall imagePrompt userText level childName themeLabel,
     exists r : Run,
       generatePresentationScript toLowerCase JSON_parse generateContent ls
         imagePrompt userText level childName themeLabel w = (inr JNull, r) /\
       trace r = [Attempt (getSelectedModel ls)]) /\
  (forall originalScript audioBase64 audioMimeType level,
     exists (e : JsError) (r : Run),
       Rev2Api.evaluatePresentation toLowerCase JSON_parse StringToNumber today
         generateContent ls originalScript audioBase64 audioMimeType level w
       = (inl (Error (aggregateMessage (Some e))), r) /\
       trace r = List.map Attempt (getFallbackModels ls)) /\
  (forall originalScript audioBase64 audioMimeType level,
     exists (e : JsError) (r : Run),
       Rev1Api.evaluatePresentation toLowerCase JSON_parse StringToNumber today
         generateContent ls originalScript audioBase64 audioMimeType level w
       = (inl (Error (aggregateMessage (Some e))), r) /\
       trace r = List.map Attempt (getFallbackModels ls)).
Proof.
  intros Hnull Hkey Hservice. split; [ | split].
  - intros. unfold generatePresentationScript.
    destruct (Hservice (mkRequest (getSelectedModel ls)
                          (ScriptContents imagePrompt userText level childName)) w)
      as (w'' & Hg).
    eexists. split.
    + apply (apiCall_first_success toLowerCase generateContent ls _ _ w w'' key
               (mkResponse (Some "null") None)); [exact Hkey | exact Hg | ].
      unfold parseScript. exact Hnull.
    + reflexivity.
  - intros. exists (Error NULL_MEMBER_MESSAGE).
    unfold Rev2Api.evaluatePresentation, evaluatePresentationWith.
    apply (apiCall_post_fails toLowerCase generateContent ls _ _ w key _ Hkey).
    intros m w'. destruct (Hservice (mkRequest m
                             (EvaluationContents originalScript audioBase64 audioMimeType)) w')
      as (w'' & Hg).
    exists (mkResponse (Some "null") None), w''. split; [exact Hg | ].
    unfold parseEvaluation.
    change (interpolate (str_or (text (mkResponse (Some "null") None)) (Some "{}")))
      with "null".
    rewrite Hnull. reflexivity.
  - intros. exists (Error NULL_MEMBER_MESSAGE).
    unfold Rev1Api.evaluatePresentation, evaluatePresentationWith.
    apply (apiCall_post_fails toLowerCase generateContent ls _ _ w key _ Hkey).
    intros m w'. destruct (Hservice (mkRequest m
                             (EvaluationContents originalScript audioBase64 audioMimeType)) w')
      as (w'' & Hg).
    exists (mkResponse (Some "null") None), w''. split; [exact Hg | ].
    unfold parseEvaluation.
    change (interpolate (str_or (text (mkResponse (Some "null") None)) (Some "{}")))
      with "null".
    rewrite Hnull. reflexivity.
Qed.

Lemma X20_null_body_witness :
  exists (e : JsError) (r : Run),
    Rev2Api.evaluatePresentation Ref.toLowerCase Ref.JSON_parse Ref.StringToNumber
      "03/11/2026" nullService keyedStorage "Hello" "AAAA" "audio/webm" Starters 0%nat
    = (inl (Error (aggregateMessage (Some e))), r) /\
    trace r = List.map Attempt (getFallbackModels keyedStorage).
Proof.
  assert (Ref.JSON_parse "null" = inr JNull) as Hnull by (vm_compute; reflexivity).
  assert (getApiKey keyedStorage = inr "AIza-test") as Hkey by (vm_compute; reflexivity).
  assert (forall (request : Request) (w' : nat),
            exists w'' : nat,
              nullService "AIza-test" request w'
              = (Resolved (mkResponse (Some "null") None), w'')) as Hservice
      by (intros request w'; exists (Datatypes.S w'); reflexivity).
  exact (proj1 (proj2 (X20_null_body Ref.toLowerCase Ref.JSON_parse Ref.StringToNumber
                         "03/11/2026" nullService keyedStorage "AIza-test" 0%nat
                         Hnull Hkey Hservice))
           "Hello" "AAAA" "audio/webm" Starters).
Defined.

Lemma isScore_normalized (StringToNumber : string -> number) (raw : json) (key : string) :
  isScore (Rev2Eval.normalized StringToNumber raw key).
Proof. apply Rev2_normalized_range. Qed.

(** X21. Every result returned by evaluatePresentation (second revision)
    can be displayed as it is: whatever JSON the service answered, with
    scores of any kind or missing, the six scores and the aggregate are
    multiples of 0.1 between 0 and 10 (never NaN), the level is the one
    asked for, and the key vocabulary is empty. *)
Theorem X21_evaluation_is_displayable (toLowerCase : string -> string)
    (JSON_parse : string -> result json) (StringToNumber : string -> number)
    (today : string) {S : Type}
    (generateContent : string -> Request -> S -> outcome Response * S)
    (ls : localStorage) (originalScript audioBase64 audioMimeType : string)
    (level : CEFRLevel) (w : S) (res : EvaluationResult) (r : Run) :
  Rev2Api.evaluatePresentation toLowerCase JSON_parse StringToNumber today
    generateContent ls originalScript audioBase64 audioMimeType level w = (inr res, r) ->
  displayable res /\
  perceivedLevel res = level /\
  keyVocabulary res = [] /\
  evaluationDate res = today.
Proof.
  intros H. unfold Rev2Api.evaluatePresentation, evaluatePresentationWith in H.
  apply apiCall_success_origin in H as (key & model & w' & response & _ & _ & Hpost).
  unfold parseEvaluation in Hpost.
  destruct (JSON_parse (interpolate (str_or (text response) (Some "{}"))))
    as [e | raw]; [discriminate | ].
  assert (raw <> JNull) as Hraw by (intros ->; discriminate).
  rewrite Rev2_evaluate_nonnull in Hpost by exact Hraw. injection Hpost as <-.
  unfold displayable.
  cbn [pronunciation fluency intonation vocabulary grammar taskFulfillment score
       perceivedLevel keyVocabulary evaluationDate].
  repeat split; try apply isScore_normalized.
  destruct (Rev2_normalized_range StringToNumber raw "pronunciation") as [a [Ha ->]].
  destruct (Rev2_normalized_range StringToNumber raw "fluency") as [b [Hb ->]].
  destruct (Rev2_normalized_range StringToNumber raw "intonation") as [c [Hc ->]].
  destruct (Rev2_normalized_range StringToNumber raw "vocabulary") as [d [Hd ->]].
  destruct (Rev2_normalized_range StringToNumber raw "grammar") as [e [He ->]].
  destruct (Rev2_normalized_range StringToNumber raw "taskFulfillment") as [f [Hf ->]].
  now apply meanScore_range.
Qed.

Lemma X21_evaluation_is_displayable_witness :
  exists (res : EvaluationResult) (r : Run),
    Rev2Api.evaluatePresentation Ref.toLowerCase Ref.JSON_parse Ref.StringToNumber
      "03/11/2026" gradingService keyedStorage "Hello" "AAAA" "audio/webm" A2 0%nat
    = (inr res, r) /\
    displayable res /\ perceivedLevel res = A2.
Proof.
  destruct (Rev2Api.evaluatePresentation Ref.toLowerCase Ref.JSON_parse
              Ref.StringToNumber "03/11/2026" gradingService keyedStorage
              "Hello" "AAAA" "audio/webm" A2 0%nat) as [[e | res] r] eqn:E;
    [vm_compute in E; discriminate | ].
  destruct (X21_evaluation_is_displayable _ _ _ _ _ _ _ _ _ _ _ _ _ E)
    as (Hd & Hl & _).
  exists res, r. split; [reflexivity | split; assumption].
Defined.

(** The sample answer, evaluated: 0.8 is read as 8, 70 as 7, and the text
    "8" as 8. *)
Example grading_sample :
  exists (res : EvaluationResult) (r : Run),
    Rev2Api.evaluatePresentation Ref.toLowerCase Ref.JSON_parse Ref.StringToNumber
      "03/11/2026" gradingService keyedStorage "Hello" "AAAA" "audio/webm" A2 0%nat
    = (inr res, r) /\
    fluency res = num 8 /\ intonation res = num 7 /\ grammar res = num 8 /\
    score res = num 8.5.
Proof.
  eexists. eexists. split; [vm_compute; reflexivity | ].
  cbn [fluency intonation grammar score]. repeat split; by_evaluation.
Qed.

(** ** Failures of the audio decoder *)

(** X22. decodeAudioData fails in exactly three ways: on an odd number of
    bytes (before any buffer is created), when createBuffer fails (with its
    error), and when the buffer it returns has fewer channels than asked
    for.  In every other case it returns the buffer createBuffer made, with
    its first numChannels channels filled and any further channel left as it
    was. *)
Theorem X22_decodeAudioData_failures (data : list Byte.byte) (ctx : AudioContext)
    (rate : number) (numChannels : nat) :
  let frameCount :=
    (num (inject_Z (Z.of_nat (List.length (int16_view data))))
     / num (inject_Z (Z.of_nat numChannels)))%js in
  (Nat.even (List.length data) = false ->
   decodeAudioData data ctx rate numChannels
   = inl (Error "byte length of Int16Array should be a multiple of 2")) /\
  (Nat.even (List.length data) = true ->
   (forall e : JsError,
      createBuffer ctx numChannels frameCount rate = inl e ->
      decodeAudioData data ctx rate numChannels = inl e) /\
   (forall buffer : AudioBuffer,
      createBuffer ctx numChannels frameCount rate = inr buffer ->
      (List.length (channelData buffer) < numChannels)%nat ->
      decodeAudioData data ctx rate numChannels = inl (Error INDEX_SIZE_MESSAGE)) /\
   (forall buffer : AudioBuffer,
      createBuffer ctx numChannels frameCount rate = inr buffer ->
      (numChannels <= List.length (channelData buffer))%nat ->
      exists chans : list (list number),
        decodeAudioData data ctx rate numChannels
        = inr (mkAudioBuffer (numberOfChannels buffer) (frames buffer)
                 (sampleRate buffer) chans) /\
        List.length chans = List.length (channelData buffer) /\
        (forall c : nat, (numChannels <= c)%nat ->
           chans !! c = channelData buffer !! c) /\
        (forall c : nat, (c < numChannels)%nat ->
           List.length <$> (chans !! c) = List.length <$> (channelData buffer !! c)))).
Proof.
  cbv zeta. unfold decodeAudioData, Int16Array. split.
  - intros ->. reflexivity.
  - intros ->. split; [ | split].
    + intros e ->. reflexivity.
    + intros buffer -> Hshort.
      rewrite fillChannels_missing_channel by lia. reflexivity.
    + intros buffer -> Hlong.
      destruct (fillChannels_ok (int16_view data) numChannels
                  (num (inject_Z (Z.of_nat (List.length (int16_view data))))
                   / num (inject_Z (Z.of_nat numChannels)))%js
                  numChannels 0 (channelData buffer))
        as (chans & Hrun & Hlen & Hlookup); [lia | ].
      rewrite Hrun. exists chans. split; [reflexivity | ]. split; [exact Hlen | ].
      split.
      * intros c Hc. rewrite Hlookup. case_decide; [lia | reflexivity].
      * intros c Hc. rewrite Hlookup. case_decide; [ | lia].
        destruct (channelData buffer !! c) as [samples | ]; [ | reflexivity].
        cbn [fmap option_fmap option_map]. f_equal. apply fillChannel_length.
Qed.

(** An odd number of bytes, and a context whose buffers have a single
    channel asked for two. *)
Example decodeAudioData_failure_samples :
  decodeAudioData [x00; x40; x00]%byte Ref.audioContext (num 24000) 1
  = inl (Error "byte length of Int16Array should be a multiple of 2") /\
  decodeAudioData [x00; x40; x00; xc0]%byte
    (mkAudioContext (fun _ frameCount rate => inr (silentBuffer 1 frameCount rate)))
    (num 24000) 2
  = inl (Error INDEX_SIZE_MESSAGE) /\
  (exists e : JsError,
     decodeAudioData [] Ref.audioContext (num 24000) 1 = inl e).
Proof.
  split; [reflexivity | ]. split; [vm_compute; reflexivity | ].
  eexists. vm_compute. reflexivity.
Qed.

(** ** Mono decoding loses nothing *)

Lemma byte_to_N_inj (a b : Byte.byte) : Byte.to_N a = Byte.to_N b -> a = b.
Proof.
  intros H. pose proof (Byte.of_to_N a) as Ha. rewrite H, Byte.of_to_N in Ha.
  congruence.
Qed.

Lemma int16_of_bytes_inj (lo hi lo' hi' : Byte.byte) :
  int16_of_bytes lo hi = int16_of_bytes lo' hi' -> lo = lo' /\ hi = hi'.
Proof.
  unfold int16_of_bytes. intros H.
  pose proof (Byte.to_N_bounded lo). pose proof (Byte.to_N_bounded hi).
  pose proof (Byte.to_N_bounded lo'). pose proof (Byte.to_N_bounded hi').
  assert (Byte.to_N lo = Byte.to_N lo' /\ Byte.to_N hi = Byte.to_N hi') as [Hl Hh].
  { destruct (Z.ltb_spec (Z.of_N (Byte.to_N lo) + 256 * Z.of_N (Byte.to_N hi)) 32768);
      destruct (Z.ltb_spec (Z.of_N (Byte.to_N lo') + 256 * Z.of_N (Byte.to_N hi')) 32768);
      lia. }
  split; apply byte_to_N_inj; assumption.
Qed.

Lemma int16_view_inj (n : nat) :
  forall data data' : list Byte.byte,
    (List.length data <= n)%nat ->
    Nat.even (List.length data) = true ->
    Nat.even (List.length data') = true ->
    int16_view data = int16_view data' ->
    data = data'.
Proof.
  induction n as [ | n IH];
    intros [ | lo [ | hi rest]] [ | lo' [ | hi' rest']] Hn Heven Heven' H;
    try reflexivity; try discriminate; cbn [List.length] in Hn; try lia.
  cbn [int16_view] in H. injection H as H Hrest.
  apply int16_of_bytes_inj in H as [-> ->]. f_equal. f_equal.
  apply IH; [lia | exact Heven | exact Heven' | exact Hrest].
Qed.

Lemma pcmSample_inj (s t : Z) : pcmSample s = pcmSample t -> s = t.
Proof.
  unfold pcmSample, num.
  change (Fin (Q2Qc (inject_Z s)) / Fin (Q2Qc 32768))%js
    with (Fin (Q2Qc (inject_Z s) / Q2Qc 32768)).
  change (Fin (Q2Qc (inject_Z t)) / Fin (Q2Qc 32768))%js
    with (Fin (Q2Qc (inject_Z t) / Q2Qc 32768)).
  intros H. injection H as H. apply inject_Z_injective.
  assert (Qred (Qred (inject_Z s) * Qred (/ Qred 32768))
          == Qred (Qred (inject_Z t) * Qred (/ Qred 32768)))%Q as E
      by (rewrite H; reflexivity).
  clear H. to_Q. lra.
Qed.

(** The single channel of a mono decoding: one sample per 16-bit value. *)
Lemma mono_decode (data : list Byte.byte) (ctx : AudioContext) (rate : number) :
  Nat.even (List.length data) = true ->
  (let frameCount :=
     (num (inject_Z (Z.of_nat (List.length (int16_view data))))
      / num (inject_Z (Z.of_nat 1)))%js in
   createBuffer ctx 1 frameCount rate = inr (silentBuffer 1 frameCount rate)) ->
  exists samples : list number,
    decodeAudioData data ctx rate 1
    = inr (mkAudioBuffer 1 (List.length (int16_view data)) rate [samples]) /\
    List.length samples = List.length (int16_view data) /\
    (forall (i : nat) (s : Z),
       int16_view data !! i = Some s -> samples !! i = Some (pcmSample s)).
Proof.
  intros Heven Hctx. cbv zeta in Hctx.
  unfold decodeAudioData, Int16Array. rewrite Heven, Hctx.
  set (dataInt16 := int16_view data) in *.
  set (frameCount :=
         (num (inject_Z (Z.of_nat (List.length dataInt16)))
          / num (inject_Z (Z.of_nat 1)))%js) in *.
  assert (toUnsignedLong frameCount = List.length dataInt16) as Hframes.
  { unfold frameCount. rewrite frameCount_frames. apply Nat.div_1_r. }
  pose proof (frameCount_iterations (List.length dataInt16) 1 ltac:(lia)) as Hiter.
  fold frameCount in Hiter. rewrite Nat.div_1_r in Hiter.
  cbn [silentBuffer channelData numberOfChannels frames sampleRate replicate
       fillChannels lookup list_lookup]. rewrite Hframes.
  cbn [insert list_insert fillChannels].
  eexists. split; [reflexivity | ]. split.
  - rewrite fillChannel_length. apply length_replicate.
  - intros i s Hs. rewrite fillChannel_lookup, length_replicate.
    apply lookup_lt_Some in Hs as Hi. case_decide; [ | lia].
    unfold scaledSample. replace (i * 1 + 0)%nat with i by lia.
    rewrite Hs. reflexivity.
Qed.

(** X23. Decoding to one channel loses nothing: two PCM inputs (each of an
    even number of bytes, decoded with a context that allocates the
    requested buffers) that give the same audio buffer are the same bytes. *)
Theorem X23_mono_decoding_is_lossless (data data' : list Byte.byte)
    (ctx : AudioContext) (rate : number) :
  Nat.even (List.length data) = true ->
  Nat.even (List.length data') = true ->
  (forall frameCount : number,
     frameCount = (num (inject_Z (Z.of_nat (List.length (int16_view data))))
                   / num (inject_Z (Z.of_nat 1)))%js
     \/ frameCount = (num (inject_Z (Z.of_nat (List.length (int16_view data'))))
                      / num (inject_Z (Z.of_nat 1)))%js ->
     createBuffer ctx 1 frameCount rate = inr (silentBuffer 1 frameCount rate)) ->
  decodeAudioData data ctx rate 1 = decodeAudioData data' ctx rate 1 ->
  data = data'.
Proof.
  intros Heven Heven' Hctx H.
  destruct (mono_decode data ctx rate Heven) as (samples & Hd & Hlen & Hs);
    [cbv zeta; apply Hctx; now left | ].
  destruct (mono_decode data' ctx rate Heven') as (samples' & Hd' & Hlen' & Hs');
    [cbv zeta; apply Hctx; now right | ].
  rewrite Hd, Hd' in H. injection H as Hframes Hsamples. subst samples'.
  apply (int16_view_inj (List.length data)); [lia | exact Heven | exact Heven' | ].
  apply list_eq. intros i.
  destruct (int16_view data !! i) as [s | ] eqn:E.
  - apply lookup_lt_Some in E as Hi. rewrite Hframes in Hi.
    destruct (lookup_lt_is_Some_2 (int16_view data') i Hi) as [s' E'].
    rewrite E'. f_equal. apply pcmSample_inj.
    apply Hs in E. apply Hs' in E'. congruence.
  - apply lookup_ge_None in E. rewrite Hframes in E.
    symmetry. apply lookup_ge_None. exact E.
Qed.

Lemma X23_mono_decoding_is_lossless_witness :
  decodeAudioData [x00; x40; x00; xc0]%byte Ref.audioContext (num 24000) 1
  <> decodeAudioData [x00; x40; x01; xc0]%byte Ref.audioContext (num 24000) 1.
Proof.
  intros H.
  assert ([x00; x40; x00; xc0]%byte = [x00; x40; x01; xc0]%byte) as E;
    [ | discriminate E].
  apply (X23_mono_decoding_is_lossless _ _ Ref.audioContext (num 24000));
    [reflexivity | reflexivity | | exact H].
  intros frameCount [-> | ->]; vm_compute; reflexivity.
Defined.
